(** * Skin: a shallow embedding of skeinforge's [skin] craft plugin

    Source: [skeinforge_application/skeinforge_plugins/craft_plugins/skin.py].

    The plugin rewrites each perimeter and each infill of an annotated gcode
    text into several thinner passes.  This file embeds the functions of
    [skin.py] as Rocq functions over an explicit [SkinSkein] state and proves
    properties of them.

    Conventions of the embedding.
    - A Python [float] is a binary64 number: Rocq's primitive [float].
      Python's [/] raises [ZeroDivisionError] on a zero divisor; see [pydiv].
    - A Python exception is the [Raise] result of the error monad [result].
    - An attribute that [__init__] leaves unset or sets to [None], and that is
      assigned only on some paths, is an [option] field; reading it while it
      is absent raises.
    - [self.distanceFeedRate] is an object of the module [gcodec], which is
      not part of [skin.py].  The embedding records the method calls made on
      it, in order ([DistanceFeedRateCall]); the text of the output is a
      function of that sequence.
    - The other functions of [gcodec], [euclidean], [intercircle],
      [triangle_mesh], [archive] and [settings] that [skin.py] calls are the
      fields of the interface [Fabmetheus]. *)

From Stdlib Require Import ZArith List String Ascii Bool Lia Floats.
Import ListNotations.

Set Warnings "-inexact-float".

Open Scope string_scope.
Open Scope Z_scope.
Open Scope list_scope.

(** ** Python exceptions and the error monad *)

Inductive PyExn : Type :=
| AttributeError
| TypeError
| IndexError
| ValueError
| ZeroDivisionError
| OverflowError.

Inductive result (A : Type) : Type :=
| Ok (a : A)
| Raise (e : PyExn).

Arguments Ok {A} a.
Arguments Raise {A} e.

Definition bind {A B : Type} (r : result A) (k : A -> result B) : result B :=
  match r with
  | Ok a => k a
  | Raise e => Raise e
  end.

Notation "x <- r ;; k" := (bind r (fun x => k))
  (at level 61, r at next level, right associativity).
Notation "' pat <- r ;; k" := (bind r (fun pat => k))
  (at level 61, pat pattern, r at next level, right associativity).

(** Reading an attribute that may be absent. *)
Definition attr {A : Type} (e : PyExn) (o : option A) : result A :=
  match o with
  | Some a => Ok a
  | None => Raise e
  end.

(** [for x in xs: s = body(x, s)], stopping at the first exception. *)
Fixpoint forEach {A S : Type} (body : A -> S -> result S) (xs : list A) (s : S)
  : result S :=
  match xs with
  | [] => Ok s
  | x :: xs' => s' <- body x s ;; forEach body xs' s'
  end.

(** [[f(x) for x in xs]] where [f] may raise. *)
Fixpoint mapM {A B : Type} (f : A -> result B) (xs : list A) : result (list B) :=
  match xs with
  | [] => Ok []
  | x :: xs' => y <- f x ;; ys <- mapM f xs' ;; Ok (y :: ys)
  end.

(** [xrange(n)] for a Python integer [n]: empty when [n <= 0]. *)
Definition xrange (n : Z) : list Z :=
  map Z.of_nat (seq 0 (Z.to_nat n)).

(** ** Python floats *)

(** [float(n)] for an integer [n]: the nearest binary64 number, ties to even. *)
Definition float_of_int (n : Z) : float :=
  SF2Prim (binary_normalize prec emax n 0 false).

(** [float(n)] raises [OverflowError] when [n] is beyond the binary64 range. *)
Definition pyfloat (n : Z) : result float :=
  let f := float_of_int n in
  if PrimFloat.eqb (PrimFloat.abs f) infinity then Raise OverflowError else Ok f.

(** [x / y] on floats. *)
Definition pydiv (x y : float) : result float :=
  if PrimFloat.eqb y 0%float then Raise ZeroDivisionError
  else Ok (PrimFloat.div x y).

(** [float(b)] for a boolean [b], as in [offsetY * (i % 2 == 0)]. *)
Definition float_of_bool (b : bool) : float :=
  if b then 1%float else 0%float.

(** ** Points *)

Record complex : Type := Complex { real : float; imag : float }.

Module Vector3.
Record t : Type := mk { x : float; y : float; z : float }.
End Vector3.
Abbreviation Vector3 := Vector3.t.

(** Modelled from the spec: [Vector3.dropAxis] (module [vector3], not under
    [src/]) is the 2D projection of a location, its [x] and [y]. *)
Definition dropAxis (v : Vector3) : complex :=
  Complex (Vector3.x v) (Vector3.y v).

(** [euclidean.LoopLayer]: a layer height and the loops found in the layer. *)
Record LoopLayer : Type := mkLoopLayer { layerZ : float; loops : list (list complex) }.

(** ** Lists updated in place *)

(** [l[i] = f(l[i])]; nothing changes out of range (the model never asks). *)
Fixpoint alterAt {A : Type} (f : A -> A) (i : nat) (l : list A) : list A :=
  match l, i with
  | [], _ => []
  | a :: l', O => f a :: l'
  | a :: l', S i' => a :: alterAt f i' l'
  end.

(** [l[-1] = f(l[-1])]. *)
Fixpoint alterLast {A : Type} (f : A -> A) (l : list A) : list A :=
  match l with
  | [] => []
  | [a] => [f a]
  | a :: l' => a :: alterLast f l'
  end.

(** [l[-1]], which raises [IndexError] on the empty list. *)
Definition lastItem {A : Type} (l : list A) : result A :=
  match rev l with
  | [] => Raise IndexError
  | a :: _ => Ok a
  end.

(** [l[0]]. *)
Definition firstItem {A : Type} (l : list A) : result A :=
  match l with
  | [] => Raise IndexError
  | a :: _ => Ok a
  end.

(** [l[i]] for a non-negative constant [i]. *)
Definition item {A : Type} (l : list A) (i : nat) : result A :=
  attr IndexError (nth_error l i).

(** ** The settings: [SkinRepository] *)

Module SkinRepository.
Record t : Type := mk {
  activateSkin : bool;
  horizontalInfillDivisions : Z;
  horizontalPerimeterDivisions : Z;
  verticalDivisions : Z;
  hopWhenExtrudingInfill : bool;
  layersFrom : Z
}.
End SkinRepository.
Abbreviation SkinRepository := SkinRepository.t.

(** ** The output object: calls on [gcodec.DistanceFeedRate] *)

Inductive DistanceFeedRateCall : Type :=
| addLine (line : string)
| addTagBracketedProcedure (procedureName : string)
| parseSplitLine (firstWord : string) (splitLine : list string)
| addGcodeFromFeedRateThreadZ
    (feedRateMinute : float) (thread : list complex)
    (travelFeedRateMinute : float) (z : float)
| addGcodeMovementZWithFeedRate (feedRateMinute : float) (point : complex) (z : float).

(** ** The functions of the other modules *)

Class Fabmetheus : Type := {
  (** [archive.getTextLines] *)
  getTextLines : string -> list string;
  (** [gcodec.getSplitLineBeforeBracketSemicolon] *)
  getSplitLineBeforeBracketSemicolon : string -> list string;
  (** Python's [float(word)] on a string *)
  float_of_string : string -> result float;
  (** [gcodec.getLocationFromSplitLine] *)
  getLocationFromSplitLine : option Vector3 -> list string -> result Vector3;
  (** [gcodec.getFeedRateMinute] *)
  getFeedRateMinute : float -> list string -> result float;
  (** [gcodec.getDoubleAfterFirstLetter] *)
  getDoubleAfterFirstLetter : string -> result float;
  (** [gcodec.getRotationBySplitLine] *)
  getRotationBySplitLine : list string -> result complex;
  (** [gcodec.isProcedureDone]: the stage-completion marker of the procedure
      is present in the text *)
  isProcedureDone : string -> string -> bool;
  (** the text written by a sequence of calls on a [DistanceFeedRate]:
      [distanceFeedRate.output.getvalue()] *)
  getvalue : list DistanceFeedRateCall -> string;
  (** [gcodec.getGcodeWithoutDuplication] *)
  getGcodeWithoutDuplication : string -> string -> string;
  (** [euclidean.getFourSignificantFigures] *)
  getFourSignificantFigures : float -> string;
  (** [euclidean.getRotatedComplexes] *)
  getRotatedComplexes : complex -> list complex -> list complex;
  (** [euclidean.getClippedSimplifiedLoopPath] *)
  getClippedSimplifiedLoopPath : float -> list complex -> float -> list complex;
  (** [intercircle.getLargestInsetLoopFromLoop] *)
  getLargestInsetLoopFromLoop : list complex -> float -> list complex;
  (** the pixel table shared by the infill functions, and the empty one *)
  PixelTable : Type;
  emptyPixelTable : PixelTable;
  (** [triangle_mesh.getInfillDictionary]: the dictionary as its items in
      the order of [keys()], and the pixel table it has filled *)
  getInfillDictionary :
    float -> list (list complex) -> float -> float -> float -> PixelTable ->
    list (list complex) -> list (Z * list float) * PixelTable;
  (** [xIntersections.sort()] *)
  sortFloats : list float -> list float;
  (** [euclidean.Endpoint] with its attribute [point] *)
  Endpoint : Type;
  endpointPoint : Endpoint -> complex;
  endpointWithPoint : complex -> Endpoint -> Endpoint;
  (** [euclidean.getSegmentsFromXIntersections] *)
  getSegmentsFromXIntersections : list float -> float -> list (list Endpoint);
  (** [euclidean.getPathsFromEndpoints] *)
  getPathsFromEndpoints :
    list Endpoint -> float -> PixelTable -> float -> list (list complex);
  (** [settings.getReadRepository(SkinRepository())]: the stored settings *)
  getReadRepository : SkinRepository
}.

(** Modelled from the spec: [gcodec.getFirstWord] (not under [src/]) gives
    the leading tag token of a split line, the empty string when there is
    none. *)
Definition getFirstWord (splitLine : list string) : string :=
  match splitLine with
  | [] => ""
  | firstWord :: _ => firstWord
  end.

(** Modelled from the spec: [gcodec.isProcedureDoneOrFileIsEmpty] (not under
    [src/]) holds when the input is empty or the stage-completion marker of
    the procedure is already present in it. *)
Definition isProcedureDoneOrFileIsEmpty `{Fabmetheus}
    (gcodeText procedure : string) : bool :=
  (gcodeText =? "")%string || isProcedureDone gcodeText procedure.

(** ** The state of the transform: [SkinSkein] *)

(** [self.infillBoundary] is a Python list that [parseLine] also appends to
    [self.infillBoundaries].  While the set it was appended to is the
    current one, the two names share the list: it is the last loop of the
    set ([aliasLast]).  Once the set has been replaced or cleared the list is
    reachable from [self.infillBoundary] only ([aliasDetached]). *)
Inductive LoopAlias : Type :=
| aliasLast
| aliasDetached (points : list complex).

(** The attributes of [SkinSkein].  [lines], [repository],
    [layersFromBottom], the three division attributes, [clipLength],
    [skinInfillInset], [boundaryLayers] and [layerIndexTop] are assigned
    unconditionally by [getCraftedGcode] and [parseBoundaries] before
    anything reads them, so they are plain fields.  [self.infill] is never
    read and is left out. *)
Record SkinSkein : Type := mkSkinSkein {
  clipOverPerimeterWidth : float;
  distanceFeedRate : list DistanceFeedRateCall;
  feedRateMinute : float;
  infillBoundaries : option (list (list complex));
  infillBoundary : option LoopAlias;
  layerIndex : Z;
  lineIndex : nat;
  lines : list string;
  maximumZFeedRateMinute : float;
  oldFlowRate : option float;
  oldLocation : option Vector3;
  perimeter : option (list complex);
  travelFeedRateMinute : float;
  repository : SkinRepository;
  layersFromBottom : Z;
  horizontalInfillDivisionsFloat : float;
  horizontalPerimeterDivisionsFloat : float;
  verticalDivisions : Z;
  verticalDivisionsFloat : float;
  clipLength : float;
  skinInfillInset : float;
  boundaryLayers : list LoopLayer;
  layerIndexTop : Z;
  infillPerimeterOverlap : option float;
  infillWidth : option float;
  skinInfillWidth : option float;
  layerThickness : option float;
  perimeterWidth : option float;
  halfPerimeterWidth : option float;
  rotation : option complex;
  reverseRotation : option complex
}.

Definition set_clipOverPerimeterWidth (v : float) (s : SkinSkein) : SkinSkein :=
  mkSkinSkein
    v (distanceFeedRate s) (feedRateMinute s) (infillBoundaries s)
    (infillBoundary s) (layerIndex s) (lineIndex s) (lines s)
    (maximumZFeedRateMinute s) (oldFlowRate s) (oldLocation s)
    (perimeter s) (travelFeedRateMinute s) (repository s)
    (layersFromBottom s) (horizontalInfillDivisionsFloat s)
    (horizontalPerimeterDivisionsFloat s) (verticalDivisions s)
    (verticalDivisionsFloat s) (clipLength s) (skinInfillInset s)
    (boundaryLayers s) (layerIndexTop s) (infillPerimeterOverlap s)
    (infillWidth s) (skinInfillWidth s) (layerThickness s)
    (perimeterWidth s) (halfPerimeterWidth s) (rotation s)
    (reverseRotation s).

Definition set_distanceFeedRate (v : list DistanceFeedRateCall) (s : SkinSkein) : SkinSkein :=
  mkSkinSkein
    (clipOverPerimeterWidth s) v (feedRateMinute s) (infillBoundaries s)
    (infillBoundary s) (layerIndex s) (lineIndex s) (lines s)
    (maximumZFeedRateMinute s) (oldFlowRate s) (oldLocation s)
    (perimeter s) (travelFeedRateMinute s) (repository s)
    (layersFromBottom s) (horizontalInfillDivisionsFloat s)
    (horizontalPerimeterDivisionsFloat s) (verticalDivisions s)
    (verticalDivisionsFloat s) (clipLength s) (skinInfillInset s)
    (boundaryLayers s) (layerIndexTop s) (infillPerimeterOverlap s)
    (infillWidth s) (skinInfillWidth s) (layerThickness s)
    (perimeterWidth s) (halfPerimeterWidth s) (rotation s)
    (reverseRotation s).

Definition set_feedRateMinute (v : float) (s : SkinSkein) : SkinSkein :=
  mkSkinSkein
    (clipOverPerimeterWidth s) (distanceFeedRate s) v (infillBoundaries s)
    (infillBoundary s) (layerIndex s) (lineIndex s) (lines s)
    (maximumZFeedRateMinute s) (oldFlowRate s) (oldLocation s)
    (perimeter s) (travelFeedRateMinute s) (repository s)
    (layersFromBottom s) (horizontalInfillDivisionsFloat s)
    (horizontalPerimeterDivisionsFloat s) (verticalDivisions s)
    (verticalDivisionsFloat s) (clipLength s) (skinInfillInset s)
    (boundaryLayers s) (layerIndexTop s) (infillPerimeterOverlap s)
    (infillWidth s) (skinInfillWidth s) (layerThickness s)
    (perimeterWidth s) (halfPerimeterWidth s) (rotation s)
    (reverseRotation s).

Definition set_infillBoundaries (v : option (list (list complex))) (s : SkinSkein) : SkinSkein :=
  mkSkinSkein
    (clipOverPerimeterWidth s) (distanceFeedRate s) (feedRateMinute s) v
    (infillBoundary s) (layerIndex s) (lineIndex s) (lines s)
    (maximumZFeedRateMinute s) (oldFlowRate s) (oldLocation s)
    (perimeter s) (travelFeedRateMinute s) (repository s)
    (layersFromBottom s) (horizontalInfillDivisionsFloat s)
    (horizontalPerimeterDivisionsFloat s) (verticalDivisions s)
    (verticalDivisionsFloat s) (clipLength s) (skinInfillInset s)
    (boundaryLayers s) (layerIndexTop s) (infillPerimeterOverlap s)
    (infillWidth s) (skinInfillWidth s) (layerThickness s)
    (perimeterWidth s) (halfPerimeterWidth s) (rotation s)
    (reverseRotation s).

Definition set_infillBoundary (v : option LoopAlias) (s : SkinSkein) : SkinSkein :=
  mkSkinSkein
    (clipOverPerimeterWidth s) (distanceFeedRate s) (feedRateMinute s)
    (infillBoundaries s) v (layerIndex s) (lineIndex s) (lines s)
    (maximumZFeedRateMinute s) (oldFlowRate s) (oldLocation s)
    (perimeter s) (travelFeedRateMinute s) (repository s)
    (layersFromBottom s) (horizontalInfillDivisionsFloat s)
    (horizontalPerimeterDivisionsFloat s) (verticalDivisions s)
    (verticalDivisionsFloat s) (clipLength s) (skinInfillInset s)
    (boundaryLayers s) (layerIndexTop s) (infillPerimeterOverlap s)
    (infillWidth s) (skinInfillWidth s) (layerThickness s)
    (perimeterWidth s) (halfPerimeterWidth s) (rotation s)
    (reverseRotation s).

Definition set_layerIndex (v : Z) (s : SkinSkein) : SkinSkein :=
  mkSkinSkein
    (clipOverPerimeterWidth s) (distanceFeedRate s) (feedRateMinute s)
    (infillBoundaries s) (infillBoundary s) v (lineIndex s) (lines s)
    (maximumZFeedRateMinute s) (oldFlowRate s) (oldLocation s)
    (perimeter s) (travelFeedRateMinute s) (repository s)
    (layersFromBottom s) (horizontalInfillDivisionsFloat s)
    (horizontalPerimeterDivisionsFloat s) (verticalDivisions s)
    (verticalDivisionsFloat s) (clipLength s) (skinInfillInset s)
    (boundaryLayers s) (layerIndexTop s) (infillPerimeterOverlap s)
    (infillWidth s) (skinInfillWidth s) (layerThickness s)
    (perimeterWidth s) (halfPerimeterWidth s) (rotation s)
    (reverseRotation s).

Definition set_lineIndex (v : nat) (s : SkinSkein) : SkinSkein :=
  mkSkinSkein
    (clipOverPerimeterWidth s) (distanceFeedRate s) (feedRateMinute s)
    (infillBoundaries s) (infillBoundary s) (layerIndex s) v (lines s)
    (maximumZFeedRateMinute s) (oldFlowRate s) (oldLocation s)
    (perimeter s) (travelFeedRateMinute s) (repository s)
    (layersFromBottom s) (horizontalInfillDivisionsFloat s)
    (horizontalPerimeterDivisionsFloat s) (verticalDivisions s)
    (verticalDivisionsFloat s) (clipLength s) (skinInfillInset s)
    (boundaryLayers s) (layerIndexTop s) (infillPerimeterOverlap s)
    (infillWidth s) (skinInfillWidth s) (layerThickness s)
    (perimeterWidth s) (halfPerimeterWidth s) (rotation s)
    (reverseRotation s).

Definition set_lines (v : list string) (s : SkinSkein) : SkinSkein :=
  mkSkinSkein
    (clipOverPerimeterWidth s) (distanceFeedRate s) (feedRateMinute s)
    (infillBoundaries s) (infillBoundary s) (layerIndex s) (lineIndex s) v
    (maximumZFeedRateMinute s) (oldFlowRate s) (oldLocation s)
    (perimeter s) (travelFeedRateMinute s) (repository s)
    (layersFromBottom s) (horizontalInfillDivisionsFloat s)
    (horizontalPerimeterDivisionsFloat s) (verticalDivisions s)
    (verticalDivisionsFloat s) (clipLength s) (skinInfillInset s)
    (boundaryLayers s) (layerIndexTop s) (infillPerimeterOverlap s)
    (infillWidth s) (skinInfillWidth s) (layerThickness s)
    (perimeterWidth s) (halfPerimeterWidth s) (rotation s)
    (reverseRotation s).

Definition set_maximumZFeedRateMinute (v : float) (s : SkinSkein) : SkinSkein :=
  mkSkinSkein
    (clipOverPerimeterWidth s) (distanceFeedRate s) (feedRateMinute s)
    (infillBoundaries s) (infillBoundary s) (layerIndex s) (lineIndex s)
    (lines s) v (oldFlowRate s) (oldLocation s) (perimeter s)
    (travelFeedRateMinute s) (repository s) (layersFromBottom s)
    (horizontalInfillDivisionsFloat s)
    (horizontalPerimeterDivisionsFloat s) (verticalDivisions s)
    (verticalDivisionsFloat s) (clipLength s) (skinInfillInset s)
    (boundaryLayers s) (layerIndexTop s) (infillPerimeterOverlap s)
    (infillWidth s) (skinInfillWidth s) (layerThickness s)
    (perimeterWidth s) (halfPerimeterWidth s) (rotation s)
    (reverseRotation s).

Definition set_oldFlowRate (v : option float) (s : SkinSkein) : SkinSkein :=
  mkSkinSkein
    (clipOverPerimeterWidth s) (distanceFeedRate s) (feedRateMinute s)
    (infillBoundaries s) (infillBoundary s) (layerIndex s) (lineIndex s)
    (lines s) (maximumZFeedRateMinute s) v (oldLocation s) (perimeter s)
    (travelFeedRateMinute s) (repository s) (layersFromBottom s)
    (horizontalInfillDivisionsFloat s)
    (horizontalPerimeterDivisionsFloat s) (verticalDivisions s)
    (verticalDivisionsFloat s) (clipLength s) (skinInfillInset s)
    (boundaryLayers s) (layerIndexTop s) (infillPerimeterOverlap s)
    (infillWidth s) (skinInfillWidth s) (layerThickness s)
    (perimeterWidth s) (halfPerimeterWidth s) (rotation s)
    (reverseRotation s).

Definition set_oldLocation (v : option Vector3) (s : SkinSkein) : SkinSkein :=
  mkSkinSkein
    (clipOverPerimeterWidth s) (distanceFeedRate s) (feedRateMinute s)
    (infillBoundaries s) (infillBoundary s) (layerIndex s) (lineIndex s)
    (lines s) (maximumZFeedRateMinute s) (oldFlowRate s) v (perimeter s)
    (travelFeedRateMinute s) (repository s) (layersFromBottom s)
    (horizontalInfillDivisionsFloat s)
    (horizontalPerimeterDivisionsFloat s) (verticalDivisions s)
    (verticalDivisionsFloat s) (clipLength s) (skinInfillInset s)
    (boundaryLayers s) (layerIndexTop s) (infillPerimeterOverlap s)
    (infillWidth s) (skinInfillWidth s) (layerThickness s)
    (perimeterWidth s) (halfPerimeterWidth s) (rotation s)
    (reverseRotation s).

Definition set_perimeter (v : option (list complex)) (s : SkinSkein) : SkinSkein :=
  mkSkinSkein
    (clipOverPerimeterWidth s) (distanceFeedRate s) (feedRateMinute s)
    (infillBoundaries s) (infillBoundary s) (layerIndex s) (lineIndex s)
    (lines s) (maximumZFeedRateMinute s) (oldFlowRate s) (oldLocation s) v
    (travelFeedRateMinute s) (repository s) (layersFromBottom s)
    (horizontalInfillDivisionsFloat s)
    (horizontalPerimeterDivisionsFloat s) (verticalDivisions s)
    (verticalDivisionsFloat s) (clipLength s) (skinInfillInset s)
    (boundaryLayers s) (layerIndexTop s) (infillPerimeterOverlap s)
    (infillWidth s) (skinInfillWidth s) (layerThickness s)
    (perimeterWidth s) (halfPerimeterWidth s) (rotation s)
    (reverseRotation s).

Definition set_travelFeedRateMinute (v : float) (s : SkinSkein) : SkinSkein :=
  mkSkinSkein
    (clipOverPerimeterWidth s) (distanceFeedRate s) (feedRateMinute s)
    (infillBoundaries s) (infillBoundary s) (layerIndex s) (lineIndex s)
    (lines s) (maximumZFeedRateMinute s) (oldFlowRate s) (oldLocation s)
    (perimeter s) v (repository s) (layersFromBottom s)
    (horizontalInfillDivisionsFloat s)
    (horizontalPerimeterDivisionsFloat s) (verticalDivisions s)
    (verticalDivisionsFloat s) (clipLength s) (skinInfillInset s)
    (boundaryLayers s) (layerIndexTop s) (infillPerimeterOverlap s)
    (infillWidth s) (skinInfillWidth s) (layerThickness s)
    (perimeterWidth s) (halfPerimeterWidth s) (rotation s)
    (reverseRotation s).

Definition set_repository (v : SkinRepository) (s : SkinSkein) : SkinSkein :=
  mkSkinSkein
    (clipOverPerimeterWidth s) (distanceFeedRate s) (feedRateMinute s)
    (infillBoundaries s) (infillBoundary s) (layerIndex s) (lineIndex s)
    (lines s) (maximumZFeedRateMinute s) (oldFlowRate s) (oldLocation s)
    (perimeter s) (travelFeedRateMinute s) v (layersFromBottom s)
    (horizontalInfillDivisionsFloat s)
    (horizontalPerimeterDivisionsFloat s) (verticalDivisions s)
    (verticalDivisionsFloat s) (clipLength s) (skinInfillInset s)
    (boundaryLayers s) (layerIndexTop s) (infillPerimeterOverlap s)
    (infillWidth s) (skinInfillWidth s) (layerThickness s)
    (perimeterWidth s) (halfPerimeterWidth s) (rotation s)
    (reverseRotation s).

Definition set_layersFromBottom (v : Z) (s : SkinSkein) : SkinSkein :=
  mkSkinSkein
    (clipOverPerimeterWidth s) (distanceFeedRate s) (feedRateMinute s)
    (infillBoundaries s) (infillBoundary s) (layerIndex s) (lineIndex s)
    (lines s) (maximumZFeedRateMinute s) (oldFlowRate s) (oldLocation s)
    (perimeter s) (travelFeedRateMinute s) (repository s) v
    (horizontalInfillDivisionsFloat s)
    (horizontalPerimeterDivisionsFloat s) (verticalDivisions s)
    (verticalDivisionsFloat s) (clipLength s) (skinInfillInset s)
    (boundaryLayers s) (layerIndexTop s) (infillPerimeterOverlap s)
    (infillWidth s) (skinInfillWidth s) (layerThickness s)
    (perimeterWidth s) (halfPerimeterWidth s) (rotation s)
    (reverseRotation s).

Definition set_horizontalInfillDivisionsFloat (v : float) (s : SkinSkein) : SkinSkein :=
  mkSkinSkein
    (clipOverPerimeterWidth s) (distanceFeedRate s) (feedRateMinute s)
    (infillBoundaries s) (infillBoundary s) (layerIndex s) (lineIndex s)
    (lines s) (maximumZFeedRateMinute s) (oldFlowRate s) (oldLocation s)
    (perimeter s) (travelFeedRateMinute s) (repository s)
    (layersFromBottom s) v (horizontalPerimeterDivisionsFloat s)
    (verticalDivisions s) (verticalDivisionsFloat s) (clipLength s)
    (skinInfillInset s) (boundaryLayers s) (layerIndexTop s)
    (infillPerimeterOverlap s) (infillWidth s) (skinInfillWidth s)
    (layerThickness s) (perimeterWidth s) (halfPerimeterWidth s)
    (rotation s) (reverseRotation s).

Definition set_horizontalPerimeterDivisionsFloat (v : float) (s : SkinSkein) : SkinSkein :=
  mkSkinSkein
    (clipOverPerimeterWidth s) (distanceFeedRate s) (feedRateMinute s)
    (infillBoundaries s) (infillBoundary s) (layerIndex s) (lineIndex s)
    (lines s) (maximumZFeedRateMinute s) (oldFlowRate s) (oldLocation s)
    (perimeter s) (travelFeedRateMinute s) (repository s)
    (layersFromBottom s) (horizontalInfillDivisionsFloat s) v
    (verticalDivisions s) (verticalDivisionsFloat s) (clipLength s)
    (skinInfillInset s) (boundaryLayers s) (layerIndexTop s)
    (infillPerimeterOverlap s) (infillWidth s) (skinInfillWidth s)
    (layerThickness s) (perimeterWidth s) (halfPerimeterWidth s)
    (rotation s) (reverseRotation s).

Definition set_verticalDivisions (v : Z) (s : SkinSkein) : SkinSkein :=
  mkSkinSkein
    (clipOverPerimeterWidth s) (distanceFeedRate s) (feedRateMinute s)
    (infillBoundaries s) (infillBoundary s) (layerIndex s) (lineIndex s)
    (lines s) (maximumZFeedRateMinute s) (oldFlowRate s) (oldLocation s)
    (perimeter s) (travelFeedRateMinute s) (repository s)
    (layersFromBottom s) (horizontalInfillDivisionsFloat s)
    (horizontalPerimeterDivisionsFloat s) v (verticalDivisionsFloat s)
    (clipLength s) (skinInfillInset s) (boundaryLayers s) (layerIndexTop s)
    (infillPerimeterOverlap s) (infillWidth s) (skinInfillWidth s)
    (layerThickness s) (perimeterWidth s) (halfPerimeterWidth s)
    (rotation s) (reverseRotation s).

Definition set_verticalDivisionsFloat (v : float) (s : SkinSkein) : SkinSkein :=
  mkSkinSkein
    (clipOverPerimeterWidth s) (distanceFeedRate s) (feedRateMinute s)
    (infillBoundaries s) (infillBoundary s) (layerIndex s) (lineIndex s)
    (lines s) (maximumZFeedRateMinute s) (oldFlowRate s) (oldLocation s)
    (perimeter s) (travelFeedRateMinute s) (repository s)
    (layersFromBottom s) (horizontalInfillDivisionsFloat s)
    (horizontalPerimeterDivisionsFloat s) (verticalDivisions s) v
    (clipLength s) (skinInfillInset s) (boundaryLayers s) (layerIndexTop s)
    (infillPerimeterOverlap s) (infillWidth s) (skinInfillWidth s)
    (layerThickness s) (perimeterWidth s) (halfPerimeterWidth s)
    (rotation s) (reverseRotation s).

Definition set_clipLength (v : float) (s : SkinSkein) : SkinSkein :=
  mkSkinSkein
    (clipOverPerimeterWidth s) (distanceFeedRate s) (feedRateMinute s)
    (infillBoundaries s) (infillBoundary s) (layerIndex s) (lineIndex s)
    (lines s) (maximumZFeedRateMinute s) (oldFlowRate s) (oldLocation s)
    (perimeter s) (travelFeedRateMinute s) (repository s)
    (layersFromBottom s) (horizontalInfillDivisionsFloat s)
    (horizontalPerimeterDivisionsFloat s) (verticalDivisions s)
    (verticalDivisionsFloat s) v (skinInfillInset s) (boundaryLayers s)
    (layerIndexTop s) (infillPerimeterOverlap s) (infillWidth s)
    (skinInfillWidth s) (layerThickness s) (perimeterWidth s)
    (halfPerimeterWidth s) (rotation s) (reverseRotation s).

Definition set_skinInfillInset (v : float) (s : SkinSkein) : SkinSkein :=
  mkSkinSkein
    (clipOverPerimeterWidth s) (distanceFeedRate s) (feedRateMinute s)
    (infillBoundaries s) (infillBoundary s) (layerIndex s) (lineIndex s)
    (lines s) (maximumZFeedRateMinute s) (oldFlowRate s) (oldLocation s)
    (perimeter s) (travelFeedRateMinute s) (repository s)
    (layersFromBottom s) (horizontalInfillDivisionsFloat s)
    (horizontalPerimeterDivisionsFloat s) (verticalDivisions s)
    (verticalDivisionsFloat s) (clipLength s) v (boundaryLayers s)
    (layerIndexTop s) (infillPerimeterOverlap s) (infillWidth s)
    (skinInfillWidth s) (layerThickness s) (perimeterWidth s)
    (halfPerimeterWidth s) (rotation s) (reverseRotation s).

Definition set_boundaryLayers (v : list LoopLayer) (s : SkinSkein) : SkinSkein :=
  mkSkinSkein
    (clipOverPerimeterWidth s) (distanceFeedRate s) (feedRateMinute s)
    (infillBoundaries s) (infillBoundary s) (layerIndex s) (lineIndex s)
    (lines s) (maximumZFeedRateMinute s) (oldFlowRate s) (oldLocation s)
    (perimeter s) (travelFeedRateMinute s) (repository s)
    (layersFromBottom s) (horizontalInfillDivisionsFloat s)
    (horizontalPerimeterDivisionsFloat s) (verticalDivisions s)
    (verticalDivisionsFloat s) (clipLength s) (skinInfillInset s) v
    (layerIndexTop s) (infillPerimeterOverlap s) (infillWidth s)
    (skinInfillWidth s) (layerThickness s) (perimeterWidth s)
    (halfPerimeterWidth s) (rotation s) (reverseRotation s).

Definition set_layerIndexTop (v : Z) (s : SkinSkein) : SkinSkein :=
  mkSkinSkein
    (clipOverPerimeterWidth s) (distanceFeedRate s) (feedRateMinute s)
    (infillBoundaries s) (infillBoundary s) (layerIndex s) (lineIndex s)
    (lines s) (maximumZFeedRateMinute s) (oldFlowRate s) (oldLocation s)
    (perimeter s) (travelFeedRateMinute s) (repository s)
    (layersFromBottom s) (horizontalInfillDivisionsFloat s)
    (horizontalPerimeterDivisionsFloat s) (verticalDivisions s)
    (verticalDivisionsFloat s) (clipLength s) (skinInfillInset s)
    (boundaryLayers s) v (infillPerimeterOverlap s) (infillWidth s)
    (skinInfillWidth s) (layerThickness s) (perimeterWidth s)
    (halfPerimeterWidth s) (rotation s) (reverseRotation s).

Definition set_infillPerimeterOverlap (v : option float) (s : SkinSkein) : SkinSkein :=
  mkSkinSkein
    (clipOverPerimeterWidth s) (distanceFeedRate s) (feedRateMinute s)
    (infillBoundaries s) (infillBoundary s) (layerIndex s) (lineIndex s)
    (lines s) (maximumZFeedRateMinute s) (oldFlowRate s) (oldLocation s)
    (perimeter s) (travelFeedRateMinute s) (repository s)
    (layersFromBottom s) (horizontalInfillDivisionsFloat s)
    (horizontalPerimeterDivisionsFloat s) (verticalDivisions s)
    (verticalDivisionsFloat s) (clipLength s) (skinInfillInset s)
    (boundaryLayers s) (layerIndexTop s) v (infillWidth s)
    (skinInfillWidth s) (layerThickness s) (perimeterWidth s)
    (halfPerimeterWidth s) (rotation s) (reverseRotation s).

Definition set_infillWidth (v : option float) (s : SkinSkein) : SkinSkein :=
  mkSkinSkein
    (clipOverPerimeterWidth s) (distanceFeedRate s) (feedRateMinute s)
    (infillBoundaries s) (infillBoundary s) (layerIndex s) (lineIndex s)
    (lines s) (maximumZFeedRateMinute s) (oldFlowRate s) (oldLocation s)
    (perimeter s) (travelFeedRateMinute s) (repository s)
    (layersFromBottom s) (horizontalInfillDivisionsFloat s)
    (horizontalPerimeterDivisionsFloat s) (verticalDivisions s)
    (verticalDivisionsFloat s) (clipLength s) (skinInfillInset s)
    (boundaryLayers s) (layerIndexTop s) (infillPerimeterOverlap s) v
    (skinInfillWidth s) (layerThickness s) (perimeterWidth s)
    (halfPerimeterWidth s) (rotation s) (reverseRotation s).

Definition set_skinInfillWidth (v : option float) (s : SkinSkein) : SkinSkein :=
  mkSkinSkein
    (clipOverPerimeterWidth s) (distanceFeedRate s) (feedRateMinute s)
    (infillBoundaries s) (infillBoundary s) (layerIndex s) (lineIndex s)
    (lines s) (maximumZFeedRateMinute s) (oldFlowRate s) (oldLocation s)
    (perimeter s) (travelFeedRateMinute s) (repository s)
    (layersFromBottom s) (horizontalInfillDivisionsFloat s)
    (horizontalPerimeterDivisionsFloat s) (verticalDivisions s)
    (verticalDivisionsFloat s) (clipLength s) (skinInfillInset s)
    (boundaryLayers s) (layerIndexTop s) (infillPerimeterOverlap s)
    (infillWidth s) v (layerThickness s) (perimeterWidth s)
    (halfPerimeterWidth s) (rotation s) (reverseRotation s).

Definition set_layerThickness (v : option float) (s : SkinSkein) : SkinSkein :=
  mkSkinSkein
    (clipOverPerimeterWidth s) (distanceFeedRate s) (feedRateMinute s)
    (infillBoundaries s) (infillBoundary s) (layerIndex s) (lineIndex s)
    (lines s) (maximumZFeedRateMinute s) (oldFlowRate s) (oldLocation s)
    (perimeter s) (travelFeedRateMinute s) (repository s)
    (layersFromBottom s) (horizontalInfillDivisionsFloat s)
    (horizontalPerimeterDivisionsFloat s) (verticalDivisions s)
    (verticalDivisionsFloat s) (clipLength s) (skinInfillInset s)
    (boundaryLayers s) (layerIndexTop s) (infillPerimeterOverlap s)
    (infillWidth s) (skinInfillWidth s) v (perimeterWidth s)
    (halfPerimeterWidth s) (rotation s) (reverseRotation s).

Definition set_perimeterWidth (v : option float) (s : SkinSkein) : SkinSkein :=
  mkSkinSkein
    (clipOverPerimeterWidth s) (distanceFeedRate s) (feedRateMinute s)
    (infillBoundaries s) (infillBoundary s) (layerIndex s) (lineIndex s)
    (lines s) (maximumZFeedRateMinute s) (oldFlowRate s) (oldLocation s)
    (perimeter s) (travelFeedRateMinute s) (repository s)
    (layersFromBottom s) (horizontalInfillDivisionsFloat s)
    (horizontalPerimeterDivisionsFloat s) (verticalDivisions s)
    (verticalDivisionsFloat s) (clipLength s) (skinInfillInset s)
    (boundaryLayers s) (layerIndexTop s) (infillPerimeterOverlap s)
    (infillWidth s) (skinInfillWidth s) (layerThickness s) v
    (halfPerimeterWidth s) (rotation s) (reverseRotation s).

Definition set_halfPerimeterWidth (v : option float) (s : SkinSkein) : SkinSkein :=
  mkSkinSkein
    (clipOverPerimeterWidth s) (distanceFeedRate s) (feedRateMinute s)
    (infillBoundaries s) (infillBoundary s) (layerIndex s) (lineIndex s)
    (lines s) (maximumZFeedRateMinute s) (oldFlowRate s) (oldLocation s)
    (perimeter s) (travelFeedRateMinute s) (repository s)
    (layersFromBottom s) (horizontalInfillDivisionsFloat s)
    (horizontalPerimeterDivisionsFloat s) (verticalDivisions s)
    (verticalDivisionsFloat s) (clipLength s) (skinInfillInset s)
    (boundaryLayers s) (layerIndexTop s) (infillPerimeterOverlap s)
    (infillWidth s) (skinInfillWidth s) (layerThickness s)
    (perimeterWidth s) v (rotation s) (reverseRotation s).

Definition set_rotation (v : option complex) (s : SkinSkein) : SkinSkein :=
  mkSkinSkein
    (clipOverPerimeterWidth s) (distanceFeedRate s) (feedRateMinute s)
    (infillBoundaries s) (infillBoundary s) (layerIndex s) (lineIndex s)
    (lines s) (maximumZFeedRateMinute s) (oldFlowRate s) (oldLocation s)
    (perimeter s) (travelFeedRateMinute s) (repository s)
    (layersFromBottom s) (horizontalInfillDivisionsFloat s)
    (horizontalPerimeterDivisionsFloat s) (verticalDivisions s)
    (verticalDivisionsFloat s) (clipLength s) (skinInfillInset s)
    (boundaryLayers s) (layerIndexTop s) (infillPerimeterOverlap s)
    (infillWidth s) (skinInfillWidth s) (layerThickness s)
    (perimeterWidth s) (halfPerimeterWidth s) v (reverseRotation s).

Definition set_reverseRotation (v : option complex) (s : SkinSkein) : SkinSkein :=
  mkSkinSkein
    (clipOverPerimeterWidth s) (distanceFeedRate s) (feedRateMinute s)
    (infillBoundaries s) (infillBoundary s) (layerIndex s) (lineIndex s)
    (lines s) (maximumZFeedRateMinute s) (oldFlowRate s) (oldLocation s)
    (perimeter s) (travelFeedRateMinute s) (repository s)
    (layersFromBottom s) (horizontalInfillDivisionsFloat s)
    (horizontalPerimeterDivisionsFloat s) (verticalDivisions s)
    (verticalDivisionsFloat s) (clipLength s) (skinInfillInset s)
    (boundaryLayers s) (layerIndexTop s) (infillPerimeterOverlap s)
    (infillWidth s) (skinInfillWidth s) (layerThickness s)
    (perimeterWidth s) (halfPerimeterWidth s) (rotation s) v.

(** [SkinSkein.__init__] *)
Definition SkinSkein_init : SkinSkein :=
  {| clipOverPerimeterWidth := 0%float;
     distanceFeedRate := [];
     feedRateMinute := 959%float;
     infillBoundaries := None;
     infillBoundary := None;
     layerIndex := -1;
     lineIndex := 0%nat;
     lines := [];
     maximumZFeedRateMinute := 60%float;
     oldFlowRate := None;
     oldLocation := None;
     perimeter := None;
     travelFeedRateMinute := 957%float;
     repository := SkinRepository.mk false 0 0 0 false 0;
     layersFromBottom := 0;
     horizontalInfillDivisionsFloat := 0%float;
     horizontalPerimeterDivisionsFloat := 0%float;
     verticalDivisions := 0;
     verticalDivisionsFloat := 0%float;
     clipLength := 0%float;
     skinInfillInset := 0%float;
     boundaryLayers := [];
     layerIndexTop := -1;
     infillPerimeterOverlap := None;
     infillWidth := None;
     skinInfillWidth := None;
     layerThickness := None;
     perimeterWidth := None;
     halfPerimeterWidth := None;
     rotation := None;
     reverseRotation := None |}.

(** One more call on [self.distanceFeedRate]. *)
Definition emit (c : DistanceFeedRateCall) (s : SkinSkein) : SkinSkein :=
  set_distanceFeedRate (distanceFeedRate s ++ [c]) s.

(** The list that [self.infillBoundary] names, read before the current set
    is replaced: from then on it is detached from [self.infillBoundaries]. *)
Definition detachInfillBoundary (s : SkinSkein) : option LoopAlias :=
  match infillBoundary s with
  | Some aliasLast =>
      Some (aliasDetached (last (match infillBoundaries s with
                                 | Some boundaries => boundaries
                                 | None => []
                                 end) []))
  | other => other
  end.

(** ** The functions of [skin.py] *)

(** [getIsMinimumSides(loops, sides=3)] *)
Fixpoint getIsMinimumSides (loops : list (list complex)) (sides : nat) : bool :=
  match loops with
  | [] => true
  | loop :: rest =>
      if (List.length loop <? sides)%nat then false else getIsMinimumSides rest sides
  end.

(** [SkinRepository.__init__]: the values the settings start with, the last
    argument of each setting, as the documentation of the module lists
    them.  The skin is off, the horizontal infill, horizontal perimeter and
    vertical division counts are 2, 1 and 2, the hop is off and the starting
    layer is 1. *)
Definition SkinRepository_init : SkinRepository :=
  SkinRepository.mk false 2 1 2 false 1.

(** [getNewRepository()] *)
Definition getNewRepository : SkinRepository := SkinRepository_init.

Section Skin.

Context `{F : Fabmetheus}.

(** [SkinSkein.addFlowRateLine] *)
Definition flowRateLine (flowRate : float) : string :=
  ("M108 S" ++ getFourSignificantFigures flowRate)%string.

Definition addFlowRateLine (flowRate : float) (s : SkinSkein) : SkinSkein :=
  emit (addLine (flowRateLine flowRate)) s.

(** [SkinSkein.addPerimeterLoop] *)
Definition addPerimeterLoop (thread : list complex) (z : float) (s : SkinSkein)
  : SkinSkein :=
  emit (addGcodeFromFeedRateThreadZ
          (feedRateMinute s) thread (travelFeedRateMinute s) z) s.

(** [SkinSkein.getClippedSimplifiedLoopPathByLoop] *)
Definition getClippedSimplifiedLoopPathByLoop (loop : list complex) (s : SkinSkein)
  : result (list complex) :=
  match loop with
  | [] => Ok []
  | first :: _ =>
      let loopPath := loop ++ [first] in
      halfPerimeterWidth_ <- attr AttributeError (halfPerimeterWidth s) ;;
      Ok (getClippedSimplifiedLoopPath (clipLength s) loopPath halfPerimeterWidth_)
  end.

(** The z of the pass of index [verticalDivisionIndex]:
    [bottomZ + self.layerThickness / self.verticalDivisionsFloat
     * float(verticalDivisionIndex)] *)
Definition divisionZ (bottomZ layerThickness_ : float) (verticalDivisionIndex : Z)
    (s : SkinSkein) : result float :=
  step <- pydiv layerThickness_ (verticalDivisionsFloat s) ;;
  index <- pyfloat verticalDivisionIndex ;;
  Ok (bottomZ + step * index)%float.

(** [self.oldLocation.z + self.layerThickness / self.verticalDivisionsFloat
     - self.layerThickness], with the location and thickness it has read *)
Definition getBottomZ (s : SkinSkein) : result (Vector3 * float * float) :=
  oldLocation_ <- attr AttributeError (oldLocation s) ;;
  layerThickness_ <- attr AttributeError (layerThickness s) ;;
  step <- pydiv layerThickness_ (verticalDivisionsFloat s) ;;
  Ok (oldLocation_, layerThickness_,
      (Vector3.z oldLocation_ + step - layerThickness_)%float).

(** The loop over [xrange(horizontalPerimeterDivisions)] of
    [addSkinnedPerimeter]: one clipped inset per division, the radius
    growing by [radiusAddition]. *)
Fixpoint insetPerimeters (divisions : nat) (perimeterThread : list complex)
    (radius radiusAddition : float) (s : SkinSkein) : result (list (list complex)) :=
  match divisions with
  | O => Ok []
  | S divisions' =>
      inset <- getClippedSimplifiedLoopPathByLoop
                 (getLargestInsetLoopFromLoop perimeterThread radius) s ;;
      rest <- insetPerimeters divisions' perimeterThread
                (radius + radiusAddition)%float radiusAddition s ;;
      Ok (inset :: rest)
  end.

(** The insets of [addSkinnedPerimeter]: [perimeterThread], the radii and
    the list [perimeters]. *)
Definition getInsetPerimeters (perimeter_ : list complex) (s : SkinSkein)
  : result (list (list complex)) :=
  let perimeterThread := removelast perimeter_ in
  perimeterWidth_ <- attr AttributeError (perimeterWidth s) ;;
  radiusAddition <- pydiv perimeterWidth_ (horizontalPerimeterDivisionsFloat s) ;;
  halfPerimeterWidth_ <- attr AttributeError (halfPerimeterWidth s) ;;
  let radius := (0.5 * radiusAddition - halfPerimeterWidth_)%float in
  insetPerimeters
    (Z.to_nat (SkinRepository.horizontalPerimeterDivisions (repository s)))
    perimeterThread radius radiusAddition s.

(** [SkinSkein.addSkinnedPerimeter] *)
Definition addSkinnedPerimeter (s : SkinSkein) : result SkinSkein :=
  match perimeter s with
  | None => Ok s
  | Some perimeter_ =>
      '(_, layerThickness_, bottomZ) <- getBottomZ s ;;
      perimeters <- getInsetPerimeters perimeter_ s ;;
      oldFlowRate_ <- attr TypeError (oldFlowRate s) ;;
      skinnedPerimeterFlowRate <- pydiv oldFlowRate_ (verticalDivisionsFloat s) ;;
      s1 <- (if getIsMinimumSides perimeters 3 then
               flowRate <- pydiv skinnedPerimeterFlowRate
                             (horizontalPerimeterDivisionsFloat s) ;;
               forEach
                 (fun verticalDivisionIndex s' =>
                    z <- divisionZ bottomZ layerThickness_ verticalDivisionIndex s' ;;
                    forEach (fun perimeter' s'' => Ok (addPerimeterLoop perimeter' z s''))
                      perimeters s')
                 (xrange (verticalDivisions s))
                 (addFlowRateLine flowRate s)
             else
               forEach
                 (fun verticalDivisionIndex s' =>
                    z <- divisionZ bottomZ layerThickness_ verticalDivisionIndex s' ;;
                    Ok (addPerimeterLoop perimeter_ z s'))
                 (xrange (verticalDivisions s))
                 (addFlowRateLine skinnedPerimeterFlowRate s)) ;;
      oldFlowRate' <- attr TypeError (oldFlowRate s1) ;;
      Ok (set_perimeter None (addFlowRateLine oldFlowRate' s1))
  end.

(** The first loop of [addSkinnedInfillBoundary]: every boundary rotated
    by [self.reverseRotation] and, when [offsetY != 0.0], moved down by
    [offsetY]. *)
Definition getRotatedLoops (infillBoundaries_ : list (list complex))
    (offsetY : float) (s : SkinSkein) : result (list (list complex)) :=
  mapM
    (fun infillBoundary_ =>
       reverseRotation_ <- attr AttributeError (reverseRotation s) ;;
       let infillBoundaryRotated :=
         getRotatedComplexes reverseRotation_ infillBoundary_ in
       Ok (if negb (PrimFloat.eqb offsetY 0%float) then
             map (fun infillPointRotated =>
                    Complex (real infillPointRotated)
                            (imag infillPointRotated - offsetY)%float)
                 infillBoundaryRotated
           else infillBoundaryRotated))
    infillBoundaries_.

(** The second loop: the endpoints of the segments of every row of the
    infill dictionary, moved back up by [offsetY]. *)
Definition getEndpoints (infillDictionary : list (Z * list float))
    (offsetY skinInfillWidth_ : float) : result (list Endpoint) :=
  rows <- mapM
            (fun '(infillDictionaryKey, xIntersections) =>
               key <- pyfloat infillDictionaryKey ;;
               Ok (flat_map
                     (fun segment =>
                        map (fun endpoint =>
                               endpointWithPoint
                                 (Complex (real (endpointPoint endpoint))
                                          (imag (endpointPoint endpoint) + offsetY)%float)
                                 endpoint)
                            segment)
                     (getSegmentsFromXIntersections
                        (sortFloats xIntersections) (key * skinInfillWidth_)%float)))
            infillDictionary ;;
  Ok (List.concat rows).

(** The body of the last loop, for one infill path. *)
Definition addInfillPath (upperZ z : float) (infillPath : list complex)
    (s : SkinSkein) : result SkinSkein :=
  rotation_ <- attr AttributeError (rotation s) ;;
  let infillRotated := getRotatedComplexes rotation_ infillPath in
  let hop := PrimFloat.ltb z upperZ
             && SkinRepository.hopWhenExtrudingInfill (repository s) in
  s1 <- (if hop then
           first <- firstItem infillRotated ;;
           Ok (emit (addGcodeMovementZWithFeedRate
                       (maximumZFeedRateMinute s) first upperZ) s)
         else Ok s) ;;
  let s2 := emit (addGcodeFromFeedRateThreadZ
                    (feedRateMinute s1) infillRotated (travelFeedRateMinute s1) z) s1 in
  lastPointRotated <- lastItem infillRotated ;;
  let s3 := set_oldLocation
              (Some (Vector3.mk (real lastPointRotated) (imag lastPointRotated) upperZ))
              s2 in
  Ok (if hop then
        emit (addGcodeMovementZWithFeedRate
                (maximumZFeedRateMinute s3) lastPointRotated upperZ) s3
      else s3).

(** The infill paths that [addSkinnedInfillBoundary] reconstructs. *)
Definition getInfillPaths (infillBoundaries_ : list (list complex))
    (offsetY : float) (s : SkinSkein) : result (list (list complex)) :=
  let aroundInset := (0.24321 * skinInfillInset s)%float in
  let arounds : list (list complex) := [] in
  let aroundWidth := (0.24321 * skinInfillInset s)%float in
  rotatedLoops <- getRotatedLoops infillBoundaries_ offsetY s ;;
  skinInfillWidth_ <- attr AttributeError (skinInfillWidth s) ;;
  let '(infillDictionary, pixelTable) :=
    getInfillDictionary aroundInset arounds aroundWidth (skinInfillInset s)
      skinInfillWidth_ emptyPixelTable rotatedLoops in
  endpoints <- getEndpoints infillDictionary offsetY skinInfillWidth_ ;;
  Ok (getPathsFromEndpoints endpoints (5.0 * skinInfillWidth_)%float
        pixelTable aroundWidth).

(** [SkinSkein.addSkinnedInfillBoundary] *)
Definition addSkinnedInfillBoundary (infillBoundaries_ : list (list complex))
    (offsetY upperZ z : float) (s : SkinSkein) : result SkinSkein :=
  infillPaths <- getInfillPaths infillBoundaries_ offsetY s ;;
  forEach (addInfillPath upperZ z) infillPaths s.

(** The body of the loop of [addSkinnedInfill]: the pass of one vertical
    division.  [self.infillBoundaries] and [self.oldLocation.z] are read
    anew at every pass. *)
Definition infillPass (bottomZ layerThickness_ offsetY : float)
    (verticalDivisionIndex : Z) (s : SkinSkein) : result SkinSkein :=
  z <- divisionZ bottomZ layerThickness_ verticalDivisionIndex s ;;
  infillBoundaries_ <- attr TypeError (infillBoundaries s) ;;
  oldLocation_ <- attr AttributeError (oldLocation s) ;;
  addSkinnedInfillBoundary infillBoundaries_
    (offsetY * float_of_bool (Z.even verticalDivisionIndex))%float
    (Vector3.z oldLocation_) z s.

(** [SkinSkein.addSkinnedInfill] *)
Definition addSkinnedInfill (s : SkinSkein) : result SkinSkein :=
  match infillBoundaries s with
  | None => Ok s
  | Some _ =>
      '(_, layerThickness_, bottomZ) <- getBottomZ s ;;
      skinInfillWidth_ <- attr AttributeError (skinInfillWidth s) ;;
      let offsetY := (0.5 * skinInfillWidth_)%float in
      oldFlowRate_ <- attr TypeError (oldFlowRate s) ;;
      perVertical <- pydiv oldFlowRate_ (verticalDivisionsFloat s) ;;
      flowRate <- pydiv perVertical (horizontalInfillDivisionsFloat s) ;;
      s1 <- forEach (infillPass bottomZ layerThickness_ offsetY)
              (xrange (verticalDivisions s))
              (addFlowRateLine flowRate s) ;;
      oldFlowRate' <- attr TypeError (oldFlowRate s1) ;;
      let s2 := addFlowRateLine oldFlowRate' s1 in
      Ok (set_infillBoundaries None (set_infillBoundary (detachInfillBoundary s2) s2))
  end.

(** One line of the first loop of [parseBoundaries].  The local variable
    [boundaryLoop] names a list that is also the last loop of a layer of
    [self.boundaryLayers]; it is kept as the index of that layer.  The local
    [boundaryLayer] is the last layer, absent before the first layer tag. *)
Definition appendBoundaryPoint (point : complex) (layer : LoopLayer) : LoopLayer :=
  mkLoopLayer (layerZ layer) (alterLast (fun loop => loop ++ [point]) (loops layer)).

Definition appendBoundaryLoop (layer : LoopLayer) : LoopLayer :=
  mkLoopLayer (layerZ layer) (loops layer ++ [[]]).

Definition parseBoundaryLine (line : string) (state : SkinSkein * option nat)
  : result (SkinSkein * option nat) :=
  let '(s, boundaryLoop) := state in
  let splitLine := getSplitLineBeforeBracketSemicolon line in
  let firstWord := getFirstWord splitLine in
  if (firstWord =? "(</boundaryPerimeter>)")%string then Ok (s, None)
  else if (firstWord =? "(<boundaryPoint>")%string then
    location <- getLocationFromSplitLine None splitLine ;;
    '(s1, layerOfLoop) <-
       match boundaryLoop with
       | Some layerOfLoop => Ok (s, layerOfLoop)
       | None =>
           match boundaryLayers s with
           | [] => Raise AttributeError
           | _ :: _ =>
               Ok (set_boundaryLayers (alterLast appendBoundaryLoop (boundaryLayers s)) s,
                   Nat.pred (List.length (boundaryLayers s)))
           end
       end ;;
    Ok (set_boundaryLayers
          (alterAt (appendBoundaryPoint (dropAxis location)) layerOfLoop
             (boundaryLayers s1)) s1,
        Some layerOfLoop)
  else if (firstWord =? "(<layer>")%string then
    word <- item splitLine 1 ;;
    height <- float_of_string word ;;
    Ok (set_layerIndexTop (layerIndexTop s + 1)
          (set_boundaryLayers (boundaryLayers s ++ [mkLoopLayer height []]) s),
        boundaryLoop)
  else Ok (s, boundaryLoop).

(** The second loop of [parseBoundaries]: the index of the first layer that
    has a loop. *)
Fixpoint firstLayerWithLoops (layers : list LoopLayer) (boundaryLayerIndex : Z)
  : option Z :=
  match layers with
  | [] => None
  | boundaryLayer :: rest =>
      if (0 <? List.length (loops boundaryLayer))%nat then Some boundaryLayerIndex
      else firstLayerWithLoops rest (boundaryLayerIndex + 1)
  end.

(** [SkinSkein.parseBoundaries] *)
Definition parseBoundaries (s : SkinSkein) : result SkinSkein :=
  let s0 := set_layerIndexTop (-1) (set_boundaryLayers [] s) in
  '(s1, _) <- forEach parseBoundaryLine (skipn (lineIndex s0) (lines s0)) (s0, None) ;;
  match firstLayerWithLoops (boundaryLayers s1) 0 with
  | Some boundaryLayerIndex =>
      Ok (set_layersFromBottom (layersFromBottom s1 + boundaryLayerIndex) s1)
  | None => Ok s1
  end.

(** [float(splitLine[1])] *)
Definition floatOfSecondWord (splitLine : list string) : result float :=
  word <- item splitLine 1 ;;
  float_of_string word.

(** The body of the loop of [parseInitialization] for one line.  The
    boolean tells that the function has returned. *)
Definition parseInitializationLine (line : string) (s : SkinSkein)
  : result (bool * SkinSkein) :=
  let splitLine := getSplitLineBeforeBracketSemicolon line in
  let firstWord := getFirstWord splitLine in
  let s := emit (parseSplitLine firstWord splitLine) s in
  if (firstWord =? "(<clipOverPerimeterWidth>")%string then
    value <- floatOfSecondWord splitLine ;;
    Ok (false, emit (addLine line) (set_clipOverPerimeterWidth value s))
  else if (firstWord =? "(</extruderInitialization>)")%string then
    Ok (true, emit (addTagBracketedProcedure "skin") s)
  else if (firstWord =? "(<infillPerimeterOverlap>")%string then
    value <- floatOfSecondWord splitLine ;;
    Ok (false, emit (addLine line) (set_infillPerimeterOverlap (Some value) s))
  else if (firstWord =? "(<infillWidth>")%string then
    value <- floatOfSecondWord splitLine ;;
    width <- pydiv value (horizontalInfillDivisionsFloat s) ;;
    Ok (false, emit (addLine line)
                 (set_skinInfillWidth (Some width) (set_infillWidth (Some value) s)))
  else if (firstWord =? "(<layerThickness>")%string then
    value <- floatOfSecondWord splitLine ;;
    Ok (false, emit (addLine line) (set_layerThickness (Some value) s))
  else if (firstWord =? "(<maximumZFeedRatePerSecond>")%string then
    value <- floatOfSecondWord splitLine ;;
    Ok (false, emit (addLine line) (set_maximumZFeedRateMinute (60.0 * value)%float s))
  else if (firstWord =? "(<operatingFlowRate>")%string then
    value <- floatOfSecondWord splitLine ;;
    Ok (false, emit (addLine line) (set_oldFlowRate (Some value) s))
  else if (firstWord =? "(<perimeterWidth>")%string then
    value <- floatOfSecondWord splitLine ;;
    Ok (false, emit (addLine line)
                 (set_halfPerimeterWidth (Some (0.5 * value)%float)
                    (set_perimeterWidth (Some value) s)))
  else if (firstWord =? "(<travelFeedRatePerSecond>")%string then
    value <- floatOfSecondWord splitLine ;;
    Ok (false, emit (addLine line) (set_travelFeedRateMinute (60.0 * value)%float s))
  else Ok (false, emit (addLine line) s).

(** [for self.lineIndex in xrange(len(self.lines))] of [parseInitialization],
    from the line of index [index]. *)
Fixpoint parseInitializationLines (index : nat) (rest : list string) (s : SkinSkein)
  : result SkinSkein :=
  match rest with
  | [] => Ok s
  | line :: rest' =>
      '(returned, s') <- parseInitializationLine line (set_lineIndex index s) ;;
      if returned : bool then Ok s'
      else parseInitializationLines (S index) rest' s'
  end.

(** [SkinSkein.parseInitialization] *)
Definition parseInitialization (s : SkinSkein) : result SkinSkein :=
  parseInitializationLines 0 (lines s) s.

(** The tests of [parseLine] at the start tags of an infill and of a
    perimeter. *)
Definition infillCondition (s : SkinSkein) : bool :=
  (layersFromBottom s <=? layerIndex s)%Z && (layerIndex s =? layerIndexTop s)%Z.

Definition perimeterCondition (s : SkinSkein) : bool :=
  (layersFromBottom s <=? layerIndex s)%Z.

(** [SkinSkein.parseLine] *)
Definition parseLine (line : string) (s : SkinSkein) : result SkinSkein :=
  let splitLine := getSplitLineBeforeBracketSemicolon line in
  match splitLine with
  | [] => Ok s
  | firstWord :: _ =>
      if (firstWord =? "G1")%string then
        feedRate <- getFeedRateMinute (feedRateMinute s) splitLine ;;
        location <- getLocationFromSplitLine (oldLocation s) splitLine ;;
        let s1 := set_oldLocation (Some location) (set_feedRateMinute feedRate s) in
        match infillBoundaries s1 with
        | Some _ => Ok s1
        | None =>
            match perimeter s1 with
            | Some perimeter_ =>
                Ok (set_perimeter (Some (perimeter_ ++ [dropAxis location])) s1)
            | None => Ok (emit (addLine line) s1)
            end
        end
      else if (firstWord =? "(<infill>)")%string then
        if infillCondition s
        then Ok (emit (addLine line)
                   (set_infillBoundaries (Some [])
                      (set_infillBoundary (detachInfillBoundary s) s)))
        else Ok (emit (addLine line) s)
      else if (firstWord =? "(</infill>)")%string then
        s1 <- addSkinnedInfill s ;;
        Ok (emit (addLine line) s1)
      else if (firstWord =? "(<infillBoundary>)")%string then
        match infillBoundaries s with
        | Some infillBoundaries_ =>
            Ok (emit (addLine line)
                  (set_infillBoundaries (Some (infillBoundaries_ ++ [[]]))
                     (set_infillBoundary (Some aliasLast) s)))
        | None => Ok (emit (addLine line) s)
        end
      else if (firstWord =? "(<infillPoint>")%string then
        match infillBoundaries s with
        | Some infillBoundaries_ =>
            location <- getLocationFromSplitLine None splitLine ;;
            match infillBoundary s with
            | None => Raise AttributeError
            | Some aliasLast =>
                Ok (emit (addLine line)
                      (set_infillBoundaries
                         (Some (alterLast (fun loop => loop ++ [dropAxis location])
                                  infillBoundaries_)) s))
            | Some (aliasDetached points) =>
                Ok (emit (addLine line)
                      (set_infillBoundary
                         (Some (aliasDetached (points ++ [dropAxis location]))) s))
            end
        | None => Ok (emit (addLine line) s)
        end
      else if (firstWord =? "(<layer>")%string then
        Ok (emit (addLine line) (set_layerIndex (layerIndex s + 1) s))
      else if (firstWord =? "M101")%string || (firstWord =? "M103")%string then
        match infillBoundaries s, perimeter s with
        | None, None => Ok (emit (addLine line) s)
        | _, _ => Ok s
        end
      else if (firstWord =? "M108")%string then
        word <- item splitLine 1 ;;
        flowRate <- getDoubleAfterFirstLetter word ;;
        Ok (emit (addLine line) (set_oldFlowRate (Some flowRate) s))
      else if (firstWord =? "(<perimeter>")%string then
        if perimeterCondition s
        then Ok (emit (addLine line) (set_perimeter (Some []) s))
        else Ok (emit (addLine line) s)
      else if (firstWord =? "(<rotation>")%string then
        rotation_ <- getRotationBySplitLine splitLine ;;
        Ok (emit (addLine line)
              (set_reverseRotation
                 (Some (Complex (real rotation_) (- imag rotation_)%float))
                 (set_rotation (Some rotation_) s)))
      else if (firstWord =? "(</perimeter>)")%string then
        s1 <- addSkinnedPerimeter s ;;
        Ok (emit (addLine line) s1)
      else Ok (emit (addLine line) s)
  end.

(** [for self.lineIndex in xrange(self.lineIndex, len(self.lines))] of
    [getCraftedGcode], from the line of index [index]. *)
Fixpoint parseLines (index : nat) (rest : list string) (s : SkinSkein)
  : result SkinSkein :=
  match rest with
  | [] => Ok s
  | line :: rest' =>
      s' <- parseLine line (set_lineIndex index s) ;;
      parseLines (S index) rest' s'
  end.

(** The first lines of [getCraftedGcode]: the text split into lines and the
    settings read into the attributes. *)
Definition configure (gcodeText : string) (repository_ : SkinRepository)
  : result SkinSkein :=
  let s := set_lines (getTextLines gcodeText) SkinSkein_init in
  let s := set_repository repository_ s in
  let s := set_layersFromBottom (SkinRepository.layersFrom repository_) s in
  infillDivisions <- pyfloat (SkinRepository.horizontalInfillDivisions repository_) ;;
  let s := set_horizontalInfillDivisionsFloat infillDivisions s in
  perimeterDivisions <-
    pyfloat (SkinRepository.horizontalPerimeterDivisions repository_) ;;
  let s := set_horizontalPerimeterDivisionsFloat perimeterDivisions s in
  let s := set_verticalDivisions
             (Z.max (SkinRepository.verticalDivisions repository_) 1) s in
  divisions <- pyfloat (verticalDivisions s) ;;
  Ok (set_verticalDivisionsFloat divisions s).

(** [getCraftedGcode] up to the call of [parseBoundaries]. *)
Definition initialize (gcodeText : string) (repository_ : SkinRepository)
  : result SkinSkein :=
  s <- configure gcodeText repository_ ;;
  s <- parseInitialization s ;;
  perimeterWidth_ <- attr AttributeError (perimeterWidth s) ;;
  let s := set_clipLength (0.5 * clipOverPerimeterWidth s * perimeterWidth_)%float s in
  infillWidth_ <- attr AttributeError (infillWidth s) ;;
  skinInfillWidth_ <- attr AttributeError (skinInfillWidth s) ;;
  infillPerimeterOverlap_ <- attr AttributeError (infillPerimeterOverlap s) ;;
  Ok (set_skinInfillInset
        (0.5 * (infillWidth_ + skinInfillWidth_)
         * (1.0 - infillPerimeterOverlap_))%float s).

(** The lines that the last loop of [getCraftedGcode] goes through. *)
Definition bodyLines (s : SkinSkein) : list string :=
  skipn (lineIndex s) (lines s).

(** [SkinSkein.getCraftedGcode], up to the state after the last line. *)
Definition craft (gcodeText : string) (repository_ : SkinRepository)
  : result SkinSkein :=
  s <- initialize gcodeText repository_ ;;
  s <- parseBoundaries s ;;
  parseLines (lineIndex s) (bodyLines s) s.

(** [SkinSkein.getCraftedGcode] *)
Definition getCraftedGcode (gcodeText : string) (repository_ : SkinRepository)
  : result string :=
  s <- craft gcodeText repository_ ;;
  Ok (getGcodeWithoutDuplication "M108" (getvalue (distanceFeedRate s))).

(** [if repository is None: repository = settings.getReadRepository(...)] *)
Definition repositoryOrRead (repository_ : option SkinRepository) : SkinRepository :=
  match repository_ with
  | None => getReadRepository
  | Some given => given
  end.

(** [getCraftedTextFromText(gcodeText, repository=None)] *)
Definition getCraftedTextFromText (gcodeText : string)
    (repository_ : option SkinRepository) : result string :=
  if isProcedureDoneOrFileIsEmpty gcodeText "skin" then Ok gcodeText
  else
    let repository' := repositoryOrRead repository_ in
    if negb (SkinRepository.activateSkin repository') then Ok gcodeText
    else getCraftedGcode gcodeText repository'.

(** [getCraftedText(fileName, gcodeText, repository=None)].  The function
    [archive.getTextIfEmpty], which reads the file when the text is empty, is
    given. *)
Definition getCraftedText (getTextIfEmpty : string -> string -> string)
    (fileName gcodeText : string) (repository_ : option SkinRepository)
  : result string :=
  getCraftedTextFromText (getTextIfEmpty fileName gcodeText) repository_.

End Skin.

(** ** A small instance of [Fabmetheus]

    Enough of the other modules to run the transform on small texts: the
    tag convention of the toolpath format, decimal numbers, and stand-ins
    for the geometry that take the inset and the infill paths as given. *)

Module Sample.

Definition isSpace (c : ascii) : bool :=
  (c =? " ")%char || (c =? "009")%char || (c =? "013")%char.

Definition snoc (word : string) (c : ascii) : string :=
  (word ++ String c EmptyString)%string.

(** [text.split()] *)
Fixpoint wordsFrom (current text : string) : list string :=
  match text with
  | EmptyString => if (current =? "")%string then [] else [current]
  | String c rest =>
      if isSpace c then
        if (current =? "")%string then wordsFrom "" rest
        else current :: wordsFrom "" rest
      else wordsFrom (snoc current c) rest
  end.

(** [text.split('\n')] *)
Fixpoint linesFrom (current text : string) : list string :=
  match text with
  | EmptyString => [current]
  | String c rest =>
      if (c =? "010")%char then current :: linesFrom "" rest
      else linesFrom (snoc current c) rest
  end.

(** [text[: text.find(c)]], the whole text when [c] is absent. *)
Fixpoint before (c : ascii) (text : string) : string :=
  match text with
  | EmptyString => EmptyString
  | String d rest => if (d =? c)%char then EmptyString else String d (before c rest)
  end.

(** The words before a semicolon and, unless the line starts with a
    bracket, before the first bracket. *)
Definition splitLineBeforeBracketSemicolon (line : string) : list string :=
  let line := before ";" line in
  match line with
  | String "(" _ => wordsFrom "" line
  | _ => wordsFrom "" (before "(" line)
  end.

Definition digitValue (c : ascii) : option Z :=
  let n := Z.of_nat (nat_of_ascii c) in
  if (48 <=? n) && (n <=? 57) then Some (n - 48) else None.

(** The digits of a decimal: the mantissa read so far, the number of digits
    after the point (absent before the point), and whether a digit was seen. *)
Fixpoint readDecimal (text : string) (mantissa : Z) (places : option Z) (seen : bool)
  : result (Z * Z) :=
  match text with
  | EmptyString =>
      if seen then Ok (mantissa, match places with Some p => p | None => 0 end)
      else Raise ValueError
  | String c rest =>
      if (c =? ".")%char then
        match places with
        | None => readDecimal rest mantissa (Some 0) seen
        | Some _ => Raise ValueError
        end
      else
        match digitValue c with
        | Some d =>
            readDecimal rest (10 * mantissa + d)
              (match places with Some p => Some (p + 1) | None => None end) true
        | None => Raise ValueError
        end
  end.

(** A stand-in for [float(word)] on the words of the sample texts only:
    an optional sign, digits and at most one point, as in [-0.25], read as
    the quotient of two integers.  It is not Python's [float]: exponents,
    [inf], [nan] and surrounding blanks are refused, and a decimal with more
    digits than a float holds is rounded twice.  The words of the sample
    texts are short decimals, which it reads as Python does. *)
Definition floatOfString (word : string) : result float :=
  let '(negative, digits) :=
    match word with
    | String "-" rest => (true, rest)
    | String "+" rest => (false, rest)
    | _ => (false, word)
    end in
  '(mantissa, places) <- readDecimal digits 0 None false ;;
  let value := (float_of_int mantissa / float_of_int (10 ^ places))%float in
  Ok (if negative then (- value)%float else value).

(** [gcodec.getDoubleFromCharacterSplitLineValue]: the number after the
    letter in the first word that starts with it, the given value when there
    is none. *)
Fixpoint doubleFromCharacter (letter : ascii) (splitLine : list string)
    (value : float) : result float :=
  match splitLine with
  | [] => Ok value
  | String c rest :: others =>
      if (c =? letter)%char then floatOfString rest
      else doubleFromCharacter letter others value
  | EmptyString :: others => doubleFromCharacter letter others value
  end.

Definition locationFromSplitLine (oldLocation_ : option Vector3)
    (splitLine : list string) : result Vector3 :=
  let old := match oldLocation_ with
             | Some location => location
             | None => Vector3.mk 0 0 0
             end in
  x <- doubleFromCharacter "X" splitLine (Vector3.x old) ;;
  y <- doubleFromCharacter "Y" splitLine (Vector3.y old) ;;
  z <- doubleFromCharacter "Z" splitLine (Vector3.z old) ;;
  Ok (Vector3.mk x y z).

Definition doubleAfterFirstLetter (word : string) : result float :=
  match word with
  | EmptyString => Raise ValueError
  | String _ rest => floatOfString rest
  end.

(** The rotation as two numbers after the tag: a simplification of the
    complex literal of the original. *)
Definition rotationBySplitLine (splitLine : list string) : result complex :=
  realWord <- item splitLine 1 ;;
  imagWord <- item splitLine 2 ;;
  re <- floatOfString realWord ;;
  im <- floatOfString imagWord ;;
  Ok (Complex re im).

Definition procedureTag (procedureName : string) : string :=
  ("(<procedureName> " ++ procedureName ++ " </procedureName>)")%string.

Definition procedureDone (gcodeText procedure : string) : bool :=
  existsb
    (fun line =>
       match wordsFrom "" line with
       | tag :: name :: _ => (tag =? "(<procedureName>")%string && (name =? procedure)%string
       | _ => false
       end)
    (linesFrom "" gcodeText).

(** A float as an integer number of thousandths, rounded half up; enough to
    print the coordinates of the examples. *)
Definition thousandths (f : float) : Z :=
  match Prim2SF f with
  | S754_finite negative m e =>
      let scaled :=
        if 0 <=? e then Zpos m * 2 ^ e * 1000
        else (Zpos m * 1000 * 2 + 2 ^ (- e)) / (2 * 2 ^ (- e)) in
      if negative then - scaled else scaled
  | _ => 0
  end.

Fixpoint digitsOfPositive (fuel : nat) (n : Z) (suffix : string) : string :=
  match fuel with
  | O => suffix
  | S fuel' =>
      let suffix' := String (ascii_of_nat (Z.to_nat (48 + n mod 10))) suffix in
      if n <? 10 then suffix' else digitsOfPositive fuel' (n / 10) suffix'
  end.

Definition showThousandths (f : float) : string :=
  let n := thousandths f in
  let a := Z.abs n in
  let whole := digitsOfPositive 400 (a / 1000) "" in
  let part := digitsOfPositive 4 (1000 + a mod 1000) "" in
  let sign := if n <? 0 then "-" else "" in
  let fraction := match part with String _ rest => rest | EmptyString => "" end in
  (sign ++ whole ++ "." ++ fraction)%string.

Definition newline : string := String "010" EmptyString.

Definition movementLine (feedRateMinute_ : float) (point : complex) (z : float)
  : string :=
  ("G1 X" ++ showThousandths (real point) ++ " Y" ++ showThousandths (imag point)
   ++ " Z" ++ showThousandths z ++ " F" ++ showThousandths feedRateMinute_
   ++ newline)%string.

(** What one call writes.  A thread is a travel to its first point and,
    when it has more points, the extrusion of the others between [M101] and
    [M103]. *)
Definition written (call : DistanceFeedRateCall) : string :=
  match call with
  | addLine line => (line ++ newline)%string
  | addTagBracketedProcedure name => (procedureTag name ++ newline)%string
  | parseSplitLine _ _ => ""
  | addGcodeMovementZWithFeedRate feedRateMinute_ point z =>
      movementLine feedRateMinute_ point z
  | addGcodeFromFeedRateThreadZ feedRateMinute_ thread travelFeedRateMinute_ z =>
      match thread with
      | [] => ""
      | [first] => movementLine travelFeedRateMinute_ first z
      | first :: others =>
          (movementLine travelFeedRateMinute_ first z ++ "M101" ++ newline
           ++ String.concat "" (map (fun point => movementLine feedRateMinute_ point z) others)
           ++ "M103" ++ newline)%string
      end
  end.

Definition outputValue (calls : list DistanceFeedRateCall) : string :=
  String.concat "" (map written calls).

(** A line whose first word is the duplicate word is dropped when it repeats
    the last such line written. *)
Fixpoint withoutDuplication (duplicateWord : string) (oldLine : option string)
    (textLines : list string) : string :=
  match textLines with
  | [] => ""
  | line :: rest =>
      if (getFirstWord (wordsFrom "" line) =? duplicateWord)%string then
        if match oldLine with
           | Some old => (old =? line)%string
           | None => false
           end
        then withoutDuplication duplicateWord oldLine rest
        else (line ++ newline ++ withoutDuplication duplicateWord (Some line) rest)%string
      else if (line =? "")%string then withoutDuplication duplicateWord oldLine rest
      else (line ++ newline ++ withoutDuplication duplicateWord oldLine rest)%string
  end.

Definition rotatedComplexes (planeAngle : complex) (points : list complex)
  : list complex :=
  map (fun point =>
         Complex (real planeAngle * real point - imag planeAngle * imag point)%float
                 (real planeAngle * imag point + imag planeAngle * real point)%float)
      points.

(** The instance, for a given inset function and given infill paths. *)
Definition fabmetheus
    (inset : list complex -> float -> list complex)
    (infillPaths : list (list complex)) : Fabmetheus :=
  {| getTextLines := linesFrom "";
     getSplitLineBeforeBracketSemicolon := splitLineBeforeBracketSemicolon;
     float_of_string := floatOfString;
     getLocationFromSplitLine := locationFromSplitLine;
     getFeedRateMinute := fun feedRateMinute_ splitLine =>
                            doubleFromCharacter "F" splitLine feedRateMinute_;
     getDoubleAfterFirstLetter := doubleAfterFirstLetter;
     getRotationBySplitLine := rotationBySplitLine;
     isProcedureDone := procedureDone;
     getvalue := outputValue;
     getGcodeWithoutDuplication := fun duplicateWord gcodeText =>
       withoutDuplication duplicateWord None (linesFrom "" gcodeText);
     getFourSignificantFigures := showThousandths;
     getRotatedComplexes := rotatedComplexes;
     getClippedSimplifiedLoopPath := fun _ loopPath _ => loopPath;
     getLargestInsetLoopFromLoop := inset;
     PixelTable := unit;
     emptyPixelTable := tt;
     getInfillDictionary := fun _ _ _ _ _ pixelTable _ => ([], pixelTable);
     sortFloats := fun xIntersections => xIntersections;
     Endpoint := complex;
     endpointPoint := fun endpoint => endpoint;
     endpointWithPoint := fun point _ => point;
     getSegmentsFromXIntersections := fun _ _ => [];
     getPathsFromEndpoints := fun _ _ _ _ => infillPaths;
     getReadRepository := SkinRepository.mk false 2 1 2 false 1 |}.

(** The inset that keeps the loop, and the one of a perimeter too narrow to
    inset. *)
Definition keepLoop (loop : list complex) (radius : float) : list complex := loop.
Definition noLoop (loop : list complex) (radius : float) : list complex := [].

(** Two instances: one whose insets keep the loop and whose infill is one
    diagonal path, one for a perimeter too narrow to inset. *)
Definition keeping : Fabmetheus :=
  fabmetheus keepLoop [[Complex 1 1; Complex 2 2]].

Definition narrow : Fabmetheus := fabmetheus noLoop [].

(** Small texts.  [header] gives the parameters and ends the initialization;
    the thickness is a parameter of the text. *)
Definition text (textLines : list string) : string := String.concat newline textLines.

Definition header (thickness : string) : list string :=
  [ "(<infillPerimeterOverlap> 0.25 </infillPerimeterOverlap>)";
    "(<infillWidth> 0.5 </infillWidth>)";
    ("(<layerThickness> " ++ thickness ++ " </layerThickness>)")%string;
    "(<operatingFlowRate> 200 </operatingFlowRate>)";
    "(<perimeterWidth> 0.5 </perimeterWidth>)";
    "(</extruderInitialization>)" ].

(** One layer with a triangle as boundary, and the same triangle as
    perimeter, up to its end tag. *)
Definition perimeterOpen (thickness : string) : list string :=
  header thickness
  ++ [ "(<layer> 1.0 )";
       "(<boundaryPerimeter>)";
       "(<boundaryPoint> X0.0 Y0.0 Z1.0 </boundaryPoint>)";
       "(<boundaryPoint> X4.0 Y0.0 Z1.0 </boundaryPoint>)";
       "(<boundaryPoint> X0.0 Y4.0 Z1.0 </boundaryPoint>)";
       "(</boundaryPerimeter>)";
       "(<perimeter> outer )";
       "G1 X0.0 Y0.0 Z1.0 F600";
       "M101";
       "G1 X4.0 Y0.0 Z1.0";
       "G1 X0.0 Y4.0 Z1.0";
       "G1 X0.0 Y0.0 Z1.0";
       "M103" ].

Definition perimeterClosed (thickness : string) : list string :=
  perimeterOpen thickness ++ [ "(</perimeter>)" ].

(** The same with an infill region, up to its end tag. *)
Definition infillOpen : list string :=
  perimeterClosed "0.5"
  ++ [ "(<rotation> 1.0 0.0 )";
       "(<infill>)";
       "(<infillBoundary>)";
       "(<infillPoint> X0.0 Y0.0 Z1.0 </infillPoint>)";
       "(<infillPoint> X4.0 Y0.0 Z1.0 </infillPoint>)";
       "(<infillPoint> X0.0 Y4.0 Z1.0 </infillPoint>)";
       "(</infillBoundary>)";
       "G1 X1.0 Y1.0 Z1.0" ].

Definition infillClosed : list string :=
  infillOpen ++ [ "(</infill>)"; "(</layer>)" ].

(** Settings: skin active, two vertical divisions, one horizontal
    perimeter division, two horizontal infill divisions, hops, from the
    first layer. *)
Definition settings : SkinRepository := SkinRepository.mk true 2 1 2 true 0.

(** The state after the last line of a text, the initial state when the
    transform raises. *)
Definition stateAfter (F : Fabmetheus) (textLines : list string)
    (repository_ : SkinRepository) : SkinSkein :=
  match craft (text textLines) repository_ with
  | Ok s => s
  | Raise _ => SkinSkein_init
  end.

(** The calls written between two states. *)
Definition writtenSince (s s' : SkinSkein) : list DistanceFeedRateCall :=
  skipn (List.length (distanceFeedRate s)) (distanceFeedRate s').

Definition triangle : list complex :=
  [Complex 0 0; Complex 4 0; Complex 0 4; Complex 0 0].

(** The states at the end tag of the perimeter: with insets that keep the
    loop, with a layer thickness of zero, and with no inset at all; and the
    state at the end tag of the infill. *)
Definition perimeterState : SkinSkein :=
  stateAfter keeping (perimeterOpen "0.5") settings.

Definition flatState : SkinSkein :=
  stateAfter keeping (perimeterOpen "0.0") settings.

Definition narrowState : SkinSkein :=
  stateAfter narrow (perimeterOpen "0.5") settings.

Definition infillState : SkinSkein :=
  stateAfter keeping infillOpen settings.

(** The output of the transform on the text with the perimeter and the
    infill, the empty text when the transform raises. *)
Definition crafted : string :=
  match @getCraftedTextFromText keeping (text infillClosed) (Some settings) with
  | Ok output => output
  | Raise _ => ""
  end.

(** The header alone, read by [configure]: the state in which
    [parseInitialization] starts. *)
Definition headerState : SkinSkein :=
  match @configure keeping (text (header "0.5")) settings with
  | Ok s => s
  | Raise _ => SkinSkein_init
  end.

(** Three layers, of which only the third has a boundary, each with a
    perimeter; the settings start the skin at the index 1. *)
Definition perimeterLines : list string :=
  [ "(<perimeter> outer )";
    "G1 X0.0 Y0.0 Z1.0 F600";
    "M101";
    "G1 X4.0 Y0.0 Z1.0";
    "G1 X0.0 Y4.0 Z1.0";
    "G1 X0.0 Y0.0 Z1.0";
    "M103";
    "(</perimeter>)" ].

Definition raft : list string :=
  header "0.5"
  ++ [ "(<layer> 0.5 )" ] ++ perimeterLines
  ++ [ "(<layer> 1.0 )" ] ++ perimeterLines
  ++ [ "(<layer> 1.5 )";
       "(<boundaryPerimeter>)";
       "(<boundaryPoint> X0.0 Y0.0 Z1.5 </boundaryPoint>)";
       "(<boundaryPoint> X4.0 Y0.0 Z1.5 </boundaryPoint>)";
       "(<boundaryPoint> X0.0 Y4.0 Z1.5 </boundaryPoint>)";
       "(</boundaryPerimeter>)" ] ++ perimeterLines
  ++ [ "(<layer> 2.0 )" ] ++ perimeterLines.

Definition fromSecond : SkinRepository := SkinRepository.mk true 2 1 2 true 1.

(** The state before the prescan, and the state after it. *)
Definition initialized (F : Fabmetheus) (textLines : list string)
    (repository_ : SkinRepository) : SkinSkein :=
  match initialize (text textLines) repository_ with
  | Ok s => s
  | Raise _ => SkinSkein_init
  end.

Definition prescanned (F : Fabmetheus) (textLines : list string)
    (repository_ : SkinRepository) : SkinSkein :=
  match parseBoundaries (initialized F textLines repository_) with
  | Ok s => s
  | Raise _ => SkinSkein_init
  end.

(** The state after the first lines of the body. *)
Definition bodyStateAt (F : Fabmetheus) (textLines : list string)
    (repository_ : SkinRepository) (count : nat) : SkinSkein :=
  let s0 := prescanned F textLines repository_ in
  match parseLines (lineIndex s0) (firstn count (bodyLines s0)) s0 with
  | Ok s => s
  | Raise _ => SkinSkein_init
  end.

(** An infill region whose first marker is a point, with no loop started. *)
Definition unbalanced : list string :=
  header "0.5"
  ++ [ "(<layer> 1.0 )";
       "(<infill>)";
       "(<infillPoint> X0.0 Y0.0 Z1.0 </infillPoint>)";
       "(</infill>)" ].

(** Settings with a horizontal perimeter division count of zero. *)
Definition noPerimeterDivision : SkinRepository :=
  SkinRepository.mk true 2 0 2 true 0.

(** A perimeter whose start tag is not followed by any move. *)
Definition unlocated : list string :=
  header "0.5" ++ [ "(<layer> 1.0 )"; "(<perimeter> outer )" ].

(** A boundary point that comes before any layer. *)
Definition unlayered : list string :=
  header "0.5" ++ [ "(<boundaryPoint> X0.0 Y0.0 Z1.0 </boundaryPoint>)" ].

(** The parameters with no end-of-initialization marker after them. *)
Definition unmarked : list string := firstn 5 (header "0.5").

(** Lines that [parseLine] has no case for. *)
Definition plain : list string :=
  [ "(<loop> outer )"; "M104 S200"; "(</boundaryPerimeter>)" ].

(** The settings of the examples, without the hop. *)
Definition noHop : SkinRepository := SkinRepository.mk true 2 1 2 false 0.



End Sample.

(** ** Vocabulary of the statements *)

(** The z of the vertical passes: [bottomZ + step * float(i)] for [i] in
    [xrange(divisions)]. *)
Definition divisionZs (bottomZ step : float) (divisions : Z) : list float :=
  map (fun index => (bottomZ + step * float_of_int index)%float) (xrange divisions).

(** The calls that replay every thread of a list at one height, and at every
    height of a list, heights first. *)
Definition loopsAt (feedRateMinute_ travelFeedRateMinute_ : float)
    (threads : list (list complex)) (z : float) : list DistanceFeedRateCall :=
  map (fun thread =>
         addGcodeFromFeedRateThreadZ feedRateMinute_ thread travelFeedRateMinute_ z)
      threads.

Definition passes (feedRateMinute_ travelFeedRateMinute_ : float)
    (threads : list (list complex)) (zs : list float) : list DistanceFeedRateCall :=
  flat_map (loopsAt feedRateMinute_ travelFeedRateMinute_ threads) zs.

(** The closed loops among some calls, with their heights. *)
Definition emittedLoop (call : DistanceFeedRateCall) : option (list complex * float) :=
  match call with
  | addGcodeFromFeedRateThreadZ _ thread _ z => Some (thread, z)
  | _ => None
  end.

Fixpoint emittedLoops (calls : list DistanceFeedRateCall) : list (list complex * float) :=
  match calls with
  | [] => []
  | call :: rest =>
      match emittedLoop call with
      | Some loop => loop :: emittedLoops rest
      | None => emittedLoops rest
      end
  end.

(** The flow rate lines among some calls. *)
Definition isFlowRateLine (call : DistanceFeedRateCall) : bool :=
  match call with
  | addLine line => String.prefix "M108" line
  | _ => false
  end.

(** The division attributes hold counts that are at least one (and that a
    float holds exactly). *)
Definition verticalConfigured (s : SkinSkein) : Prop :=
  1 <= verticalDivisions s < 2 ^ 53
  /\ verticalDivisionsFloat s = float_of_int (verticalDivisions s).

Definition perimeterConfigured (s : SkinSkein) : Prop :=
  1 <= SkinRepository.horizontalPerimeterDivisions (repository s) < 2 ^ 53
  /\ horizontalPerimeterDivisionsFloat s
     = float_of_int (SkinRepository.horizontalPerimeterDivisions (repository s)).

Definition infillConfigured (s : SkinSkein) : Prop :=
  1 <= SkinRepository.horizontalInfillDivisions (repository s) < 2 ^ 53
  /\ horizontalInfillDivisionsFloat s
     = float_of_int (SkinRepository.horizontalInfillDivisions (repository s)).

(** What a captured perimeter needs from the header and the body so far. *)
Definition perimeterCaptured (s : SkinSkein) (perimeter_ : list complex)
    (top layerThickness_ oldFlowRate_ : float) : Prop :=
  perimeter s = Some perimeter_
  /\ (exists location, oldLocation s = Some location /\ Vector3.z location = top)
  /\ layerThickness s = Some layerThickness_
  /\ oldFlowRate s = Some oldFlowRate_
  /\ perimeterWidth s <> None
  /\ halfPerimeterWidth s <> None.

(** A call that moves the head: a thread or a vertical move. *)
Definition isMotion (call : DistanceFeedRateCall) : bool :=
  match call with
  | addGcodeFromFeedRateThreadZ _ _ _ _ => true
  | addGcodeMovementZWithFeedRate _ _ _ => true
  | _ => false
  end.

(** A vertical move, if the call is one, is at the height [top]. *)
Definition isHopAt (top : float) (call : DistanceFeedRateCall) : Prop :=
  match call with
  | addGcodeMovementZWithFeedRate _ _ z => z = top
  | _ => True
  end.

(** The last closed loop among some calls. *)
Definition lastLoop (calls : list DistanceFeedRateCall) : option (list complex * float) :=
  last (map Some (emittedLoops calls)) None.

(** The tracked position after some calls of the infill generator: the end
    of the last emitted path at the height [top], the position before when
    no path was emitted. *)
Definition endsAt (top : float) (calls : list DistanceFeedRateCall)
    (before after : option Vector3) : Prop :=
  match lastLoop calls with
  | None => after = before
  | Some (thread, _) =>
      exists point,
        lastItem thread = Ok point
        /\ after = Some (Vector3.mk (real point) (imag point) top)
  end.

(** What the infill generator may change: it writes motion calls and moves
    the tracked position. *)
Definition infillWritten (top : float) (s s' : SkinSkein)
    (calls : list DistanceFeedRateCall) : Prop :=
  exists location,
    s' = set_oldLocation location
           (set_distanceFeedRate (distanceFeedRate s ++ calls) s)
    /\ Forall (fun call => isMotion call = true) calls
    /\ Forall (isHopAt top) calls
    /\ endsAt top calls (oldLocation s) location.

(** The tracked position is known and its height is [top]. *)
Definition topIs (top : float) (location : option Vector3) : Prop :=
  exists known, location = Some known /\ Vector3.z known = top.


(** The span of heights [top - thickness, top - thickness / V], as a test
    on one height. *)
Definition withinLowerSpan (top layerThickness_ divisions z : float) : bool :=
  PrimFloat.leb (top - layerThickness_) z
  && PrimFloat.leb z (top - layerThickness_ / divisions).

(** The leading tag of a line is a given word, as [parseLine] sees it. *)
Definition firstWordIs `{Fabmetheus} (word line : string) : bool :=
  match getSplitLineBeforeBracketSemicolon line with
  | [] => false
  | firstWord :: _ => (firstWord =? word)%string
  end.

(** The number of start-of-layer lines. *)
Definition countLayers `{Fabmetheus} (textLines : list string) : Z :=
  Z.of_nat (List.length (filter (firstWordIs "(<layer>") textLines)).

(** The lines forwarded to the output among some calls. *)
Fixpoint forwardedLines (calls : list DistanceFeedRateCall) : list string :=
  match calls with
  | [] => []
  | addLine line :: rest => line :: forwardedLines rest
  | _ :: rest => forwardedLines rest
  end.

(** No buffer is open below the starting layer. *)
Definition noEarlyCapture (s : SkinSkein) : Prop :=
  layerIndex s < layersFromBottom s ->
  perimeter s = None /\ infillBoundaries s = None.

(** The layers still to come bring the layer index to the top index, and an
    open infill set means that the test of the start tag holds. *)
Definition infillGate `{Fabmetheus} (s : SkinSkein) (rest : list string) : Prop :=
  layerIndex s + countLayers rest = layerIndexTop s
  /\ (infillBoundaries s <> None -> infillCondition s = true).

(** The line is the end-of-initialization marker, as [parseInitialization]
    sees it. *)
Definition isEndOfInitialization `{Fabmetheus} (line : string) : bool :=
  (getFirstWord (getSplitLineBeforeBracketSemicolon line)
   =? "(</extruderInitialization>)")%string.

(** The call that shows a line to the output object before the line is
    looked at, and the calls of [parseInitialization] for the lines that
    come before the marker. *)
Definition shown `{Fabmetheus} (line : string) : DistanceFeedRateCall :=
  parseSplitLine (getFirstWord (getSplitLineBeforeBracketSemicolon line))
    (getSplitLineBeforeBracketSemicolon line).

Definition headerCalls `{Fabmetheus} (textLines : list string)
  : list DistanceFeedRateCall :=
  flat_map (fun line => [shown line; addLine line]) textLines.

(** The attributes that hold the settings. *)
Definition configOf (s : SkinSkein)
  : SkinRepository * Z * float * float * float :=
  (repository s, verticalDivisions s, verticalDivisionsFloat s,
   horizontalPerimeterDivisionsFloat s, horizontalInfillDivisionsFloat s).

(** The radius of the inset of a division: the first radius, to which the
    addition has been added once per earlier division. *)
Definition insetRadius (radius radiusAddition : float) (division : nat) : float :=
  Nat.iter division (fun grown => (grown + radiusAddition)%float) radius.

(** The clipped closed path of an inset loop, for a half perimeter width
    that has been read; an empty inset stays empty. *)
Definition clippedLoopPath `{Fabmetheus} (s : SkinSkein) (halfPerimeterWidth_ : float)
    (loop : list complex) : list complex :=
  match loop with
  | [] => []
  | first :: _ =>
      getClippedSimplifiedLoopPath (clipLength s) (loop ++ [first]) halfPerimeterWidth_
  end.

(** The first words that [parseLine] has a case for. *)
Definition recognizedWords : list string :=
  [ "G1"; "(<infill>)"; "(</infill>)"; "(<infillBoundary>)"; "(<infillPoint>";
    "(<layer>"; "M101"; "M103"; "M108"; "(<perimeter>"; "(<rotation>";
    "(</perimeter>)" ].

(** A line without a word, and a line whose first word [parseLine] has no
    case for. *)
Definition isWordless `{Fabmetheus} (line : string) : bool :=
  match getSplitLineBeforeBracketSemicolon line with
  | [] => true
  | _ :: _ => false
  end.

Definition isPlainLine `{Fabmetheus} (line : string) : bool :=
  match getSplitLineBeforeBracketSemicolon line with
  | [] => false
  | firstWord :: _ => negb (existsb (String.eqb firstWord) recognizedWords)
  end.

(** The lines that have a word. *)
Definition wordedLines `{Fabmetheus} (textLines : list string) : list string :=
  filter (fun line => negb (isWordless line)) textLines.

(** A move or an extruder switch: the lines that a capture region keeps
    from the output. *)
Definition isCapturedMotion `{Fabmetheus} (line : string) : bool :=
  firstWordIs "G1" line || firstWordIs "M101" line || firstWordIs "M103" line.

(** The location that a tagged point line gives. *)
Definition pointOfLine `{Fabmetheus} (line : string) : result Vector3 :=
  getLocationFromSplitLine None (getSplitLineBeforeBracketSemicolon line).

(** The height that a start-of-layer line gives. *)
Definition heightOfLine `{Fabmetheus} (line : string) : result float :=
  word <- item (getSplitLineBeforeBracketSemicolon line) 1 ;;
  float_of_string word.

(** The lines before the first end-of-initialization marker, all the lines
    when there is none. *)
Fixpoint headerLines `{Fabmetheus} (textLines : list string) : list string :=
  match textLines with
  | [] => []
  | line :: rest =>
      if isEndOfInitialization line then [] else line :: headerLines rest
  end.

(** The leading tag of a line is a given word, as [parseInitialization]
    sees it. *)
Definition isParameterLine `{Fabmetheus} (tag line : string) : bool :=
  (getFirstWord (getSplitLineBeforeBracketSemicolon line) =? tag)%string.

(** The attributes that hold the parameters of the header and what
    [getCraftedGcode] derives from them. *)
Definition parametersOf (s : SkinSkein)
  : float * option float * option float * option float * option float
    * option float * option float * float * float * float * float :=
  (clipOverPerimeterWidth s, infillPerimeterOverlap s, infillWidth s,
   skinInfillWidth s, layerThickness s, perimeterWidth s, halfPerimeterWidth s,
   clipLength s, skinInfillInset s, maximumZFeedRateMinute s,
   travelFeedRateMinute s).

(** A call that the body may make: a forwarded or generated line, or a
    motion. *)
Definition isLineOrMotion (call : DistanceFeedRateCall) : bool :=
  match call with
  | addLine _ => true
  | addGcodeFromFeedRateThreadZ _ _ _ _ => true
  | addGcodeMovementZWithFeedRate _ _ _ => true
  | _ => false
  end.

(** A vertical move. *)
Definition isHop (call : DistanceFeedRateCall) : bool :=
  match call with
  | addGcodeMovementZWithFeedRate _ _ _ => true
  | _ => false
  end.

(** The call that writes the stage-completion tag. *)
Definition isProcedureTag (call : DistanceFeedRateCall) : bool :=
  match call with
  | addTagBracketedProcedure _ => true
  | _ => false
  end.

(** The parameters that [parseInitialization] derives agree with the ones
    they are derived from: the half perimeter width with the perimeter
    width, and the skin infill width with the infill width, which has been
    divided by a horizontal infill division count that is not zero. *)
Definition parametersDerived (s : SkinSkein) : Prop :=
  halfPerimeterWidth s
  = option_map (fun width => (0.5 * width)%float) (perimeterWidth s)
  /\ skinInfillWidth s
     = option_map (fun width => (width / horizontalInfillDivisionsFloat s)%float)
         (infillWidth s)
  /\ (infillWidth s <> None ->
      PrimFloat.eqb (horizontalInfillDivisionsFloat s) 0 = false).

(** Modelled from the spec: the stage-completion marker is the tag that the
    transform writes.  When the tag is among the calls on the output
    object, the marker test of [gcodec] finds it in the text that
    [getCraftedGcode] returns for these calls. *)
Definition tagDetected `{Fabmetheus} (calls : list DistanceFeedRateCall) : Prop :=
  In (addTagBracketedProcedure "skin") calls ->
  isProcedureDone (getGcodeWithoutDuplication "M108" (getvalue calls)) "skin" = true.


(** * Properties *)

(** ** Integers as floats *)

Lemma digits2_pos_lower (p : positive) :
  2 ^ (Zpos (digits2_pos p) - 1) <= Zpos p.
Proof.
  induction p as [p IH | p IH |]; cbn [digits2_pos].
  - rewrite Pos2Z.inj_succ.
    replace (Z.succ (Zpos (digits2_pos p)) - 1)
      with (Z.succ (Zpos (digits2_pos p) - 1)) by lia.
    rewrite Z.pow_succ_r by lia. lia.
  - rewrite Pos2Z.inj_succ.
    replace (Z.succ (Zpos (digits2_pos p)) - 1)
      with (Z.succ (Zpos (digits2_pos p) - 1)) by lia.
    rewrite Z.pow_succ_r by lia. lia.
  - cbn. lia.
Qed.

Lemma digits2_pos_iter_xO (k p : positive) :
  Zpos (digits2_pos (Pos.iter xO p k)) = Zpos (digits2_pos p) + Zpos k.
Proof.
  revert p. induction k as [|k IH] using Pos.peano_ind; intros p.
  - cbn. lia.
  - rewrite Pos.iter_succ. cbn [digits2_pos]. rewrite Pos2Z.inj_succ, IH. lia.
Qed.

Lemma digits2_pos_le_prec (p : positive) :
  Zpos p < 2 ^ 53 -> Zpos (digits2_pos p) <= 53.
Proof.
  intros Hp. pose proof (digits2_pos_lower p) as Hl.
  destruct (Z_le_gt_dec (Zpos (digits2_pos p)) 53) as [|Hgt]; [assumption|].
  exfalso.
  assert (2 ^ 53 <= 2 ^ (Zpos (digits2_pos p) - 1))
    by (apply Z.pow_le_mono_r; lia).
  lia.
Qed.

(** An integer below [2 ^ 53] is a binary64 number: rounding it gives a
    finite, valid float with a full mantissa. *)
Lemma binary_round_small (sx : bool) (p : positive) :
  Zpos p < 2 ^ 53 ->
  exists m e, binary_round prec emax sx p 0 = S754_finite sx m e
              /\ SpecFloat.valid_binary prec emax (S754_finite sx m e) = true
              /\ Zpos (digits2_pos m) = 53
              /\ -52 <= e.
Proof.
  intros Hp. pose proof (digits2_pos_le_prec p Hp) as Hd.
  pose proof (Pos2Z.is_pos (digits2_pos p)) as Hd0.
  unfold binary_round.
  assert (Hf : fexp prec emax (Zpos (digits2_pos p) + 0) = Zpos (digits2_pos p) - 53).
  { unfold fexp, emin, prec, emax. lia. }
  rewrite Hf.
  destruct (shl_align p 0 (Zpos (digits2_pos p) - 53)) as [mz ez] eqn:Hal.
  assert (Hmz : Zpos (digits2_pos mz) + ez = Zpos (digits2_pos p)
                /\ ez = Zpos (digits2_pos p) - 53).
  { unfold shl_align in Hal.
    replace (Zpos (digits2_pos p) - 53 - 0) with (Zpos (digits2_pos p) - 53) in Hal by lia.
    destruct (Zpos (digits2_pos p) - 53) as [|q|q] eqn:Hq.
    - injection Hal as <- <-. lia.
    - lia.
    - injection Hal as <- <-. rewrite digits2_pos_iter_xO. lia. }
  destruct Hmz as [Hsum Hez].
  assert (Hfe : fexp prec emax (Zpos (digits2_pos mz) + ez) - ez = 0).
  { rewrite Hsum. unfold fexp, emin, prec, emax. lia. }
  exists mz, ez.
  unfold binary_round_aux, shr_fexp. cbn [Zdigits2 shr_record_of_loc].
  rewrite Hfe. cbn [shr shr_m loc_of_shr_record round_nearest_even Zdigits2 shr_record_of_loc].
  rewrite Hfe. cbn [shr shr_m].
  assert (Hle : (ez <=? emax - prec) = true)
    by (apply Z.leb_le; unfold emax, prec; lia).
  rewrite Hle. split; [reflexivity|]. split; [|lia].
  cbn [SpecFloat.valid_binary]. unfold bounded, canonical_mantissa. rewrite Hle.
  rewrite andb_true_r. apply Z.eqb_eq. lia.
Qed.

Lemma float_of_int_nonzero (n : Z) :
  1 <= n < 2 ^ 53 -> PrimFloat.eqb (float_of_int n) 0 = false.
Proof.
  intros Hn. destruct n as [|p|p]; try lia.
  unfold float_of_int. cbn [binary_normalize].
  destruct (binary_round_small false p) as (m & e & Hr & Hv & _); [lia|].
  rewrite Hr, eqb_spec, Prim2SF_SF2Prim by exact Hv.
  reflexivity.
Qed.

(** A count that is at least one is at least one as a float. *)
Lemma float_of_int_ge_one (n : Z) :
  1 <= n < 2 ^ 53 -> PrimFloat.leb 1 (float_of_int n) = true.
Proof.
  intros Hn. destruct n as [|p|p]; try lia.
  unfold float_of_int. cbn [binary_normalize].
  destruct (binary_round_small false p) as (m & e & Hr & Hv & Hdigits & He); [lia|].
  rewrite Hr, leb_spec, Prim2SF_SF2Prim by exact Hv.
  replace (Prim2SF 1) with (S754_finite false 4503599627370496 (-52))
    by (vm_compute; reflexivity).
  unfold SFleb, SFcompare.
  destruct (Z.compare_spec (-52) e) as [Heq | Hlt | Hgt]; [|reflexivity|lia].
  pose proof (digits2_pos_lower m) as Hlow. rewrite Hdigits in Hlow.
  change (2 ^ (53 - 1)) with (Zpos 4503599627370496) in Hlow.
  rewrite Pos.compare_cont_spec. cbn [Pos.switch_Eq].
  destruct (Pos.compare_spec 4503599627370496 m) as [Hm | Hm | Hm];
    [reflexivity | reflexivity |].
  apply Pos2Z.pos_lt_pos in Hm. apply Z.lt_nge in Hm. contradiction.
Qed.

Lemma pyfloat_small (n : Z) :
  - 2 ^ 53 < n < 2 ^ 53 -> pyfloat n = Ok (float_of_int n).
Proof.
  intros Hn. unfold pyfloat.
  destruct n as [|p|p]; [reflexivity| |].
  - unfold float_of_int. cbn [binary_normalize].
    destruct (binary_round_small false p) as (m & e & Hr & Hv & _); [lia|].
    rewrite Hr, eqb_spec, abs_spec, Prim2SF_SF2Prim by exact Hv.
    reflexivity.
  - unfold float_of_int. cbn [binary_normalize].
    destruct (binary_round_small true p) as (m & e & Hr & Hv & _); [lia|].
    rewrite Hr, eqb_spec, abs_spec, Prim2SF_SF2Prim by exact Hv.
    reflexivity.
Qed.

Lemma pyfloat_Ok (n : Z) (f : float) : pyfloat n = Ok f -> f = float_of_int n.
Proof.
  unfold pyfloat. destruct (PrimFloat.eqb _ infinity); [discriminate|].
  intros [= <-]. reflexivity.
Qed.

Lemma pydiv_nonzero (a b : float) :
  PrimFloat.eqb b 0 = false -> pydiv a b = Ok (a / b)%float.
Proof. intros Hb. unfold pydiv. rewrite Hb. reflexivity. Qed.

(** ** Loops *)

Lemma xrange_bounds (n i : Z) : In i (xrange n) -> 0 <= i < n.
Proof.
  unfold xrange. rewrite in_map_iff. intros (k & <- & Hk).
  apply in_seq in Hk. lia.
Qed.

Lemma xrange_length (n : Z) : List.length (xrange n) = Z.to_nat n.
Proof. unfold xrange. rewrite length_map, length_seq. reflexivity. Qed.

(** ** The output object *)

Lemma set_distanceFeedRate_same (s : SkinSkein) :
  set_distanceFeedRate (distanceFeedRate s) s = s.
Proof. destruct s; reflexivity. Qed.

Lemma emittedLoops_app (a b : list DistanceFeedRateCall) :
  emittedLoops (a ++ b) = emittedLoops a ++ emittedLoops b.
Proof.
  induction a as [|c a IH]; cbn; [reflexivity|].
  destruct (emittedLoop c); cbn; rewrite IH; reflexivity.
Qed.

Lemma emittedLoops_loopsAt (feed travel z : float) (threads : list (list complex)) :
  emittedLoops (loopsAt feed travel threads z) = map (fun thread => (thread, z)) threads.
Proof.
  induction threads as [|thread threads IH]; cbn; [reflexivity|].
  unfold loopsAt in IH. rewrite IH. reflexivity.
Qed.

Lemma emittedLoops_passes (feed travel : float) (threads : list (list complex))
    (zs : list float) :
  emittedLoops (passes feed travel threads zs)
  = flat_map (fun z => map (fun thread => (thread, z)) threads) zs.
Proof.
  induction zs as [|z zs IH]; cbn; [reflexivity|].
  rewrite emittedLoops_app, emittedLoops_loopsAt. unfold passes in IH.
  rewrite IH. reflexivity.
Qed.

Lemma length_flat_map_const {A B : Type} (f : A -> list B) (n : nat) (xs : list A) :
  (forall a, List.length (f a) = n) ->
  List.length (flat_map f xs) = (List.length xs * n)%nat.
Proof.
  intros Hf. induction xs as [|a xs IH]; cbn; [reflexivity|].
  rewrite length_app, Hf, IH. reflexivity.
Qed.

Lemma divisionZs_length (bottomZ step : float) (divisions : Z) :
  List.length (divisionZs bottomZ step divisions) = Z.to_nat divisions.
Proof. unfold divisionZs. rewrite length_map. apply xrange_length. Qed.

Lemma getIsMinimumSides_false (loops_ : list (list complex)) (sides : nat) :
  getIsMinimumSides loops_ sides = false
  <-> exists loop, In loop loops_ /\ (List.length loop < sides)%nat.
Proof.
  induction loops_ as [|loop rest IH]; cbn [getIsMinimumSides In].
  - split; [discriminate | intros (l & [] & _)].
  - destruct (Nat.ltb_spec (List.length loop) sides) as [Hlt | Hge].
    + split; [intros _; exists loop; auto | reflexivity].
    + rewrite IH. split.
      * intros (l & Hin & Hl). exists l. auto.
      * intros (l & [<- | Hin] & Hl); [lia | exists l; auto].
Qed.

Lemma getIsMinimumSides_true (loops_ : list (list complex)) (sides : nat) :
  getIsMinimumSides loops_ sides = true
  <-> forall loop, In loop loops_ -> (sides <= List.length loop)%nat.
Proof.
  induction loops_ as [|loop rest IH]; cbn [getIsMinimumSides In].
  - split; [intros _ l [] | reflexivity].
  - destruct (Nat.ltb_spec (List.length loop) sides) as [Hlt | Hge].
    + split; [discriminate | intros Hall; specialize (Hall loop (or_introl eq_refl)); lia].
    + rewrite IH. split.
      * intros Hall l [<- | Hin]; auto.
      * intros Hall l Hin. apply Hall. auto.
Qed.

Section SkinFacts.

Context `{F : Fabmetheus}.

(** *** The perimeter generator *)

Lemma insetPerimeters_length (divisions : nat) (thread : list complex)
    (radius radiusAddition : float) (s : SkinSkein) (perimeters : list (list complex)) :
  insetPerimeters divisions thread radius radiusAddition s = Ok perimeters ->
  List.length perimeters = divisions.
Proof.
  revert radius perimeters.
  induction divisions as [|n IH]; intros radius perimeters; cbn.
  - intros [= <-]. reflexivity.
  - destruct (getClippedSimplifiedLoopPathByLoop _ s) as [inset|]; cbn; [|discriminate].
    destruct (insetPerimeters n thread _ radiusAddition s) as [rest|] eqn:Hrest;
      cbn; [|discriminate].
    intros [= <-]. cbn. f_equal. eapply IH. exact Hrest.
Qed.


(** The inner loop: every thread replayed at one height. *)
Lemma forEach_addPerimeterLoop (threads : list (list complex)) (z : float)
    (s : SkinSkein) :
  forEach (fun thread s' => Ok (addPerimeterLoop thread z s')) threads s
  = Ok (set_distanceFeedRate
          (distanceFeedRate s
           ++ loopsAt (feedRateMinute s) (travelFeedRateMinute s) threads z) s).
Proof.
  revert s. induction threads as [|thread threads IH]; intros s; cbn.
  - rewrite app_nil_r, set_distanceFeedRate_same. reflexivity.
  - rewrite IH. unfold addPerimeterLoop, emit. cbn.
    rewrite <- app_assoc. reflexivity.
Qed.

Lemma divisionZ_small (bottomZ layerThickness_ : float) (index : Z) (s : SkinSkein) :
  verticalConfigured s -> 0 <= index < verticalDivisions s ->
  divisionZ bottomZ layerThickness_ index s
  = Ok (bottomZ + layerThickness_ / verticalDivisionsFloat s * float_of_int index)%float.
Proof.
  intros [Hv Hvf] Hi. unfold divisionZ.
  rewrite pydiv_nonzero by (rewrite Hvf; apply float_of_int_nonzero; exact Hv).
  cbn. rewrite pyfloat_small by lia. reflexivity.
Qed.

(** The loop over the vertical divisions, for a body that only writes. *)
Lemma forEach_divisions (body : float -> SkinSkein -> result SkinSkein)
    (calls : float -> list DistanceFeedRateCall)
    (bottomZ layerThickness_ : float) (s : SkinSkein) :
  verticalConfigured s ->
  (forall z written,
      body z (set_distanceFeedRate written s)
      = Ok (set_distanceFeedRate (written ++ calls z) s)) ->
  forall indices written,
    (forall index, In index indices -> 0 <= index < verticalDivisions s) ->
    forEach (fun index s' =>
               z <- divisionZ bottomZ layerThickness_ index s' ;; body z s')
      indices (set_distanceFeedRate written s)
    = Ok (set_distanceFeedRate
            (written
             ++ flat_map calls
                  (map (fun index =>
                          (bottomZ + layerThickness_ / verticalDivisionsFloat s
                                     * float_of_int index)%float) indices)) s).
Proof.
  intros Hv Hbody indices.
  induction indices as [|index indices IH]; intros written Hin; cbn [forEach map flat_map].
  - rewrite app_nil_r. reflexivity.
  - rewrite divisionZ_small by (auto; apply Hin; left; reflexivity).
    cbn [bind]. rewrite Hbody. cbn [bind].
    rewrite IH by (intros i Hi; apply Hin; right; exact Hi).
    rewrite <- app_assoc. reflexivity.
Qed.

Lemma getBottomZ_captured (s : SkinSkein) (location : Vector3) (layerThickness_ : float) :
  verticalConfigured s ->
  oldLocation s = Some location -> layerThickness s = Some layerThickness_ ->
  getBottomZ s
  = Ok (location, layerThickness_,
        (Vector3.z location + layerThickness_ / verticalDivisionsFloat s
         - layerThickness_)%float).
Proof.
  intros [Hv Hvf] Hloc Ht. unfold getBottomZ. rewrite Hloc, Ht. cbn.
  rewrite pydiv_nonzero by (rewrite Hvf; apply float_of_int_nonzero; exact Hv).
  reflexivity.
Qed.


Lemma getInsetPerimeters_length (perimeter_ : list complex) (s : SkinSkein)
    (perimeters : list (list complex)) :
  getInsetPerimeters perimeter_ s = Ok perimeters ->
  List.length perimeters
  = Z.to_nat (SkinRepository.horizontalPerimeterDivisions (repository s)).
Proof.
  unfold getInsetPerimeters.
  destruct (perimeterWidth s); cbn; [|discriminate].
  destruct (pydiv _ _); cbn; [|discriminate].
  destruct (halfPerimeterWidth s); cbn; [|discriminate].
  apply insetPerimeters_length.
Qed.

(** What [addSkinnedPerimeter] does with a captured perimeter, in both
    branches: the scaled flow rate line, the passes, the old flow rate line,
    and the buffer cleared. *)
Lemma addSkinnedPerimeter_captured (s : SkinSkein) (perimeter_ : list complex)
    (top layerThickness_ oldFlowRate_ : float) (perimeters : list (list complex)) :
  verticalConfigured s -> perimeterConfigured s ->
  perimeterCaptured s perimeter_ top layerThickness_ oldFlowRate_ ->
  getInsetPerimeters perimeter_ s = Ok perimeters ->
  let step := (layerThickness_ / verticalDivisionsFloat s)%float in
  let zs := divisionZs (top + step - layerThickness_)%float step (verticalDivisions s) in
  let perVertical := (oldFlowRate_ / verticalDivisionsFloat s)%float in
  addSkinnedPerimeter s
  = Ok (set_perimeter None
          (set_distanceFeedRate
             (distanceFeedRate s
              ++ (if getIsMinimumSides perimeters 3 then
                    addLine (flowRateLine
                               (perVertical / horizontalPerimeterDivisionsFloat s))
                    :: passes (feedRateMinute s) (travelFeedRateMinute s) perimeters zs
                  else
                    addLine (flowRateLine perVertical)
                    :: passes (feedRateMinute s) (travelFeedRateMinute s) [perimeter_] zs)
              ++ [addLine (flowRateLine oldFlowRate_)]) s)).
Proof.
  intros Hv Hh (Hp & (location & Hloc & Hz) & Ht & Hr & Hw & Hhalf) Hinsets step zs perVertical.
  pose proof Hv as [Hv1 Hvf]. pose proof Hh as [Hh1 Hhf].
  unfold addSkinnedPerimeter. rewrite Hp.
  rewrite (getBottomZ_captured s location layerThickness_) by assumption.
  cbn [bind]. rewrite Hinsets. cbn [bind]. rewrite Hr. cbn [bind attr].
  rewrite pydiv_nonzero by (rewrite Hvf; apply float_of_int_nonzero; exact Hv1).
  cbn [bind].
  destruct (getIsMinimumSides perimeters 3).
  - rewrite pydiv_nonzero by (rewrite Hhf; apply float_of_int_nonzero; exact Hh1).
    cbn [bind]. unfold addFlowRateLine at 1, emit.
    rewrite (forEach_divisions
               (fun z s' => forEach (fun thread s'' => Ok (addPerimeterLoop thread z s''))
                              perimeters s')
               (loopsAt (feedRateMinute s) (travelFeedRateMinute s) perimeters));
      [ | exact Hv | intros z written; rewrite forEach_addPerimeterLoop; reflexivity
        | intros index Hin; apply xrange_bounds; exact Hin ].
    cbn [bind]. cbn [oldFlowRate set_distanceFeedRate]. rewrite Hr. cbn [attr bind].
    unfold addFlowRateLine, emit, zs, divisionZs, passes, step, perVertical.
    rewrite Hz. cbn. rewrite <- !app_assoc. reflexivity.
  - unfold addFlowRateLine at 1, emit.
    rewrite (forEach_divisions
               (fun z s' => Ok (addPerimeterLoop perimeter_ z s'))
               (loopsAt (feedRateMinute s) (travelFeedRateMinute s) [perimeter_]));
      [ | exact Hv | intros z written; reflexivity
        | intros index Hin; apply xrange_bounds; exact Hin ].
    cbn [bind]. cbn [oldFlowRate set_distanceFeedRate]. rewrite Hr. cbn [attr bind].
    unfold addFlowRateLine, emit, zs, divisionZs, passes, step, perVertical.
    rewrite Hz. cbn. rewrite <- !app_assoc. reflexivity.
Qed.

(** *** The infill generator *)

Lemma lastLoop_app (a b : list DistanceFeedRateCall) :
  lastLoop (a ++ b)
  = match lastLoop b with
    | Some loop => Some loop
    | None => lastLoop a
    end.
Proof.
  unfold lastLoop. rewrite emittedLoops_app, map_app.
  generalize (map Some (emittedLoops a)) as la.
  induction (emittedLoops b) as [|loop rest IH] using rev_ind; intros la; cbn.
  - rewrite app_nil_r. reflexivity.
  - rewrite map_app. cbn. rewrite app_assoc, !last_last. reflexivity.
Qed.

Lemma set_oldLocation_same (s : SkinSkein) :
  set_oldLocation (oldLocation s) s = s.
Proof. destruct s; reflexivity. Qed.

Lemma infillWritten_refl (top : float) (s : SkinSkein) : infillWritten top s s [].
Proof.
  exists (oldLocation s). rewrite app_nil_r, set_distanceFeedRate_same, set_oldLocation_same.
  repeat split; constructor.
Qed.

Lemma infillWritten_trans (top : float) (s s1 s2 : SkinSkein)
    (c1 c2 : list DistanceFeedRateCall) :
  infillWritten top s s1 c1 -> infillWritten top s1 s2 c2 ->
  infillWritten top s s2 (c1 ++ c2).
Proof.
  intros (l1 & -> & Hm1 & Hh1 & He1) (l2 & -> & Hm2 & Hh2 & He2).
  exists l2. cbn in *. split; [rewrite app_assoc; reflexivity|].
  split; [apply Forall_app; auto|]. split; [apply Forall_app; auto|].
  unfold endsAt in *. rewrite lastLoop_app.
  destruct (lastLoop c2) as [[thread z]|]; [exact He2|].
  subst l2. exact He1.
Qed.

(** One path: an optional hop, the path, the position moved to its end at
    the upper height, an optional hop. *)
Lemma addInfillPath_written (upperZ z : float) (infillPath : list complex)
    (s s' : SkinSkein) :
  addInfillPath upperZ z infillPath s = Ok s' ->
  exists calls,
    infillWritten upperZ s s' calls
    /\ (exists thread, emittedLoops calls = [(thread, z)])
    /\ (PrimFloat.ltb z upperZ && SkinRepository.hopWhenExtrudingInfill (repository s)
        = false -> List.length calls = 1%nat).
Proof.
  unfold addInfillPath.
  destruct (rotation s) as [rotation_|]; cbn [attr bind]; [|discriminate].
  set (infillRotated := getRotatedComplexes rotation_ infillPath).
  destruct (PrimFloat.ltb z upperZ
            && SkinRepository.hopWhenExtrudingInfill (repository s)) eqn:Hhop.
  - destruct (firstItem infillRotated) as [first|]; cbn [bind]; [|discriminate].
    destruct (lastItem infillRotated) as [lastPoint|] eqn:Hlast; cbn [bind]; [|discriminate].
    intros [= <-].
    exists [addGcodeMovementZWithFeedRate (maximumZFeedRateMinute s) first upperZ;
            addGcodeFromFeedRateThreadZ (feedRateMinute s) infillRotated
              (travelFeedRateMinute s) z;
            addGcodeMovementZWithFeedRate (maximumZFeedRateMinute s) lastPoint upperZ].
    split; [|split; [eexists; reflexivity | discriminate]].
    exists (Some (Vector3.mk (real lastPoint) (imag lastPoint) upperZ)).
    split; [unfold emit; cbn; rewrite <- !app_assoc; reflexivity|].
    split; [repeat constructor|]. split; [repeat constructor|].
    unfold endsAt, lastLoop. cbn. eauto.
  - cbn [bind].
    destruct (lastItem infillRotated) as [lastPoint|] eqn:Hlast; cbn [bind]; [|discriminate].
    intros [= <-].
    exists [addGcodeFromFeedRateThreadZ (feedRateMinute s) infillRotated
              (travelFeedRateMinute s) z].
    split; [|split; [eexists; reflexivity | reflexivity]].
    exists (Some (Vector3.mk (real lastPoint) (imag lastPoint) upperZ)).
    split; [unfold emit; cbn; reflexivity|].
    split; [repeat constructor|]. split; [repeat constructor|].
    unfold endsAt, lastLoop. cbn. eauto.
Qed.

(** All the paths of one pass: one emitted loop per path, all at [z]. *)
Lemma forEach_addInfillPath_written (upperZ z : float)
    (infillPaths : list (list complex)) (s s' : SkinSkein) :
  forEach (addInfillPath upperZ z) infillPaths s = Ok s' ->
  exists calls,
    infillWritten upperZ s s' calls
    /\ List.length (emittedLoops calls) = List.length infillPaths
    /\ Forall (fun loop => snd loop = z) (emittedLoops calls).
Proof.
  revert s. induction infillPaths as [|infillPath rest IH]; intros s; cbn [forEach].
  - intros [= <-]. exists []. split; [apply infillWritten_refl|]. split; [reflexivity|constructor].
  - destruct (addInfillPath upperZ z infillPath s) as [s1|] eqn:Hone; cbn [bind]; [|discriminate].
    intros Hrest.
    destruct (addInfillPath_written _ _ _ _ _ Hone) as (c1 & Hw1 & (thread & Hl1) & _).
    destruct (IH _ Hrest) as (c2 & Hw2 & Hl2 & Hz2).
    exists (c1 ++ c2). split; [eapply infillWritten_trans; eassumption|].
    rewrite emittedLoops_app, Hl1. cbn. split; [f_equal; exact Hl2|].
    constructor; [reflexivity | exact Hz2].
Qed.

Lemma addSkinnedInfillBoundary_written (infillBoundaries_ : list (list complex))
    (offsetY upperZ z : float) (s s' : SkinSkein) :
  addSkinnedInfillBoundary infillBoundaries_ offsetY upperZ z s = Ok s' ->
  exists infillPaths calls,
    getInfillPaths infillBoundaries_ offsetY s = Ok infillPaths
    /\ infillWritten upperZ s s' calls
    /\ List.length (emittedLoops calls) = List.length infillPaths
    /\ Forall (fun loop => snd loop = z) (emittedLoops calls).
Proof.
  unfold addSkinnedInfillBoundary.
  destruct (getInfillPaths infillBoundaries_ offsetY s) as [infillPaths|];
    cbn [bind]; [|discriminate].
  intros Hpaths. destruct (forEach_addInfillPath_written _ _ _ _ _ Hpaths) as (calls & H).
  exists infillPaths, calls. split; [reflexivity | exact H].
Qed.

Lemma endsAt_topIs (top : float) (calls : list DistanceFeedRateCall)
    (before after : option Vector3) :
  topIs top before -> endsAt top calls before after -> topIs top after.
Proof.
  unfold endsAt. intros Hbefore.
  destruct (lastLoop calls) as [[thread z]|].
  - intros (point & _ & ->). eexists. split; reflexivity.
  - intros ->. exact Hbefore.
Qed.

Lemma infillWritten_topIs (top : float) (s s' : SkinSkein)
    (calls : list DistanceFeedRateCall) :
  topIs top (oldLocation s) -> infillWritten top s s' calls ->
  topIs top (oldLocation s').
Proof.
  intros Htop (location & -> & _ & _ & Hends). cbn.
  eapply endsAt_topIs; eassumption.
Qed.

Lemma pydiv_Ok (a b c : float) : pydiv a b = Ok c -> c = (a / b)%float.
Proof. unfold pydiv. destruct (PrimFloat.eqb b 0); [discriminate | intros [= <-]; reflexivity]. Qed.

Lemma forEach_infillPass_written (bottomZ layerThickness_ offsetY top : float)
    (indices : list Z) (s s' : SkinSkein) :
  topIs top (oldLocation s) ->
  forEach (infillPass bottomZ layerThickness_ offsetY) indices s = Ok s' ->
  exists calls, infillWritten top s s' calls.
Proof.
  revert s. induction indices as [|index indices IH]; intros s Htop; cbn [forEach].
  - intros [= <-]. exists []. apply infillWritten_refl.
  - destruct (infillPass bottomZ layerThickness_ offsetY index s) as [s1|] eqn:Hpass;
      cbn [bind]; [|discriminate].
    intros Hrest. unfold infillPass in Hpass.
    destruct (divisionZ bottomZ layerThickness_ index s) as [z|]; cbn [bind] in Hpass;
      [|discriminate].
    destruct (infillBoundaries s) as [boundaries|]; cbn [attr bind] in Hpass; [|discriminate].
    destruct Htop as (known & Hknown & Hz). rewrite Hknown in Hpass. cbn [attr bind] in Hpass.
    rewrite Hz in Hpass.
    destruct (addSkinnedInfillBoundary_written _ _ _ _ _ _ Hpass)
      as (paths & c1 & _ & Hw1 & _).
    assert (Htop1 : topIs top (oldLocation s1)).
    { eapply infillWritten_topIs; [|exact Hw1]. exists known. auto. }
    destruct (IH s1 Htop1 Hrest) as (c2 & Hw2).
    exists (c1 ++ c2). eapply infillWritten_trans; eassumption.
Qed.

(** What [addSkinnedInfill] has done when it returns with a captured set:
    the scaled flow rate line, motion calls, the old flow rate line, and the
    set cleared. *)
Lemma addSkinnedInfill_written (s s' : SkinSkein) (infillBoundaries_ : list (list complex))
    (top : float) :
  infillBoundaries s = Some infillBoundaries_ ->
  topIs top (oldLocation s) ->
  addSkinnedInfill s = Ok s' ->
  exists oldFlowRate_ block location,
    oldFlowRate s = Some oldFlowRate_
    /\ s' = set_infillBoundaries None
              (set_infillBoundary (detachInfillBoundary s)
                 (set_oldLocation location
                    (set_distanceFeedRate
                       (distanceFeedRate s
                        ++ addLine (flowRateLine
                                      (oldFlowRate_ / verticalDivisionsFloat s
                                       / horizontalInfillDivisionsFloat s))
                           :: block ++ [addLine (flowRateLine oldFlowRate_)]) s)))
    /\ Forall (fun call => isMotion call = true) block
    /\ Forall (isHopAt top) block
    /\ endsAt top block (oldLocation s) location.
Proof.
  intros Hset Htop. unfold addSkinnedInfill. rewrite Hset.
  destruct (getBottomZ s) as [[[known layerThickness_] bottomZ]|]; cbn [bind]; [|discriminate].
  destruct (skinInfillWidth s) as [width|]; cbn [attr bind]; [|discriminate].
  destruct (oldFlowRate s) as [oldFlowRate_|] eqn:Hrate; cbn [attr bind]; [|discriminate].
  destruct (pydiv oldFlowRate_ (verticalDivisionsFloat s)) as [perVertical|] eqn:Hv;
    cbn [bind]; [|discriminate].
  destruct (pydiv perVertical (horizontalInfillDivisionsFloat s)) as [flowRate|] eqn:Hh;
    cbn [bind]; [|discriminate].
  apply pydiv_Ok in Hv, Hh. subst perVertical flowRate.
  destruct (forEach (infillPass bottomZ layerThickness_ (0.5 * width)%float) _ _)
    as [s1|] eqn:Hloop; cbn [bind]; [|discriminate].
  apply (forEach_infillPass_written _ _ _ top) in Hloop; [|exact Htop].
  destruct Hloop as (block & location & -> & Hmotion & Hhop & Hends).
  cbn [oldFlowRate set_oldLocation set_distanceFeedRate addFlowRateLine emit].
  rewrite Hrate. cbn [attr bind]. intros [= <-].
  exists oldFlowRate_, block, location. split; [reflexivity|].
  split; [|auto].
  unfold detachInfillBoundary, addFlowRateLine, emit. cbn.
  rewrite <- !app_assoc. reflexivity.
Qed.








Lemma emittedLoops_bracketed (first last_ : string) (block : list DistanceFeedRateCall) :
  emittedLoops (addLine first :: block ++ [addLine last_]) = emittedLoops block.
Proof. cbn. rewrite emittedLoops_app. cbn. apply app_nil_r. Qed.

Lemma isFlowRateLine_flowRateLine (flowRate : float) :
  isFlowRateLine (addLine (flowRateLine flowRate)) = true.
Proof. reflexivity. Qed.



Lemma passes_single (feed travel : float) (thread : list complex) (zs : list float) :
  passes feed travel [thread] zs
  = map (fun z => addGcodeFromFeedRateThreadZ feed thread travel z) zs.
Proof.
  unfold passes. induction zs as [|z rest IH]; cbn; [reflexivity | rewrite IH; reflexivity].
Qed.

Lemma emittedLoops_single (feed travel : float) (thread : list complex) (zs : list float) :
  emittedLoops (map (fun z => addGcodeFromFeedRateThreadZ feed thread travel z) zs)
  = map (fun z => (thread, z)) zs.
Proof.
  induction zs as [|z rest IH]; cbn; [reflexivity | rewrite IH; reflexivity].
Qed.

(** ** The claims about the perimeter generator *)

(** C2 (amended).  In the non-degenerate case (every computed inset has at
    least 3 points), for a vertical division count [V] and a horizontal
    perimeter division count [H], both at least 1, one captured perimeter
    yields exactly [V * H] emitted loops: the pass of index [i], for [i]
    from [0] to [V - 1], replays each of the [H] insets at the height
    [bottomZ + (thickness / V) * i], where
    [bottomZ = top + thickness / V - thickness] and [top] is the z of the
    tracked position, each operation rounded as a Python float.  Nothing
    more is stated of the heights: they need not be distinct, and the last
    one need not be the layer top. *)
Theorem addSkinnedPerimeter_division_count
    (s : SkinSkein) (perimeter_ : list complex) (top layerThickness_ oldFlowRate_ : float)
    (perimeters : list (list complex)) :
  verticalConfigured s -> perimeterConfigured s ->
  perimeterCaptured s perimeter_ top layerThickness_ oldFlowRate_ ->
  getInsetPerimeters perimeter_ s = Ok perimeters ->
  getIsMinimumSides perimeters 3 = true ->
  let V := verticalDivisions s in
  let H := SkinRepository.horizontalPerimeterDivisions (repository s) in
  let step := (layerThickness_ / verticalDivisionsFloat s)%float in
  let zs := divisionZs (top + step - layerThickness_)%float step V in
  exists s' calls,
    addSkinnedPerimeter s = Ok s'
    /\ distanceFeedRate s' = distanceFeedRate s ++ calls
    /\ emittedLoops calls
       = flat_map (fun z => map (fun inset => (inset, z)) perimeters) zs
    /\ Z.of_nat (List.length (emittedLoops calls)) = V * H
    /\ Z.of_nat (List.length zs) = V
    /\ Z.of_nat (List.length perimeters) = H.
Proof.
  intros Hv Hh Hcap Hinsets Hmin V H step zs.
  pose proof (addSkinnedPerimeter_captured s perimeter_ top layerThickness_ oldFlowRate_
                perimeters Hv Hh Hcap Hinsets) as Hrun.
  cbv zeta in Hrun. rewrite Hmin in Hrun. cbv iota in Hrun.
  rewrite <- app_comm_cons in Hrun. fold step zs in Hrun.
  eexists. eexists. split; [exact Hrun|]. split; [reflexivity|].
  rewrite emittedLoops_bracketed, emittedLoops_passes.
  pose proof (getInsetPerimeters_length _ _ _ Hinsets) as Hlen. fold H in Hlen.
  destruct Hv as [Hv1 _]. destruct Hh as [Hh1 _]. fold V in Hv1. fold H in Hh1.
  assert (Hzs : List.length zs = Z.to_nat V) by apply divisionZs_length.
  split; [reflexivity|]. split; [|split]; [| lia | lia].
  rewrite (length_flat_map_const _ (List.length perimeters))
    by (intros z; apply length_map).
  rewrite divisionZs_length, Hlen. fold V. lia.
Qed.

(** C3.  When one of the computed insets has fewer than 3 points, the
    perimeter generator emits exactly [V] loops, one per vertical division,
    each the captured loop itself and not an inset, and the flow rate of the
    block is the old flow rate divided by [V] only: the line written before
    the loops is ['M108 S'] followed by the four significant figures of that
    quotient, and the line written after them is ['M108 S'] followed by
    those of the old flow rate. *)
Theorem addSkinnedPerimeter_fallback
    (s : SkinSkein) (perimeter_ : list complex) (top layerThickness_ oldFlowRate_ : float)
    (perimeters : list (list complex)) :
  verticalConfigured s -> perimeterConfigured s ->
  perimeterCaptured s perimeter_ top layerThickness_ oldFlowRate_ ->
  getInsetPerimeters perimeter_ s = Ok perimeters ->
  (exists inset, In inset perimeters /\ (List.length inset < 3)%nat) ->
  let V := verticalDivisions s in
  let step := (layerThickness_ / verticalDivisionsFloat s)%float in
  let zs := divisionZs (top + step - layerThickness_)%float step V in
  exists s' block,
    addSkinnedPerimeter s = Ok s'
    /\ distanceFeedRate s'
       = distanceFeedRate s
         ++ addLine ("M108 S" ++ getFourSignificantFigures
                                   (oldFlowRate_ / verticalDivisionsFloat s))%string
            :: block
         ++ [addLine ("M108 S" ++ getFourSignificantFigures oldFlowRate_)%string]
    /\ block
       = map (fun z => addGcodeFromFeedRateThreadZ
                         (feedRateMinute s) perimeter_ (travelFeedRateMinute s) z) zs
    /\ emittedLoops block = map (fun z => (perimeter_, z)) zs
    /\ Z.of_nat (List.length (emittedLoops block)) = V.
Proof.
  intros Hv Hh Hcap Hinsets Hdegenerate V step zs.
  apply getIsMinimumSides_false in Hdegenerate.
  pose proof (addSkinnedPerimeter_captured s perimeter_ top layerThickness_ oldFlowRate_
                perimeters Hv Hh Hcap Hinsets) as Hrun.
  cbv zeta in Hrun. rewrite Hdegenerate in Hrun. cbv iota in Hrun.
  rewrite <- app_comm_cons in Hrun. fold step zs in Hrun.
  rewrite passes_single in Hrun.
  eexists. eexists. split; [exact Hrun|]. split; [reflexivity|].
  split; [reflexivity|].
  rewrite emittedLoops_single. split; [reflexivity|].
  rewrite length_map, divisionZs_length.
  destruct Hv as [Hv1 _]. fold V in Hv1. fold V. lia.
Qed.

(** ** The claims about the flow rate and the tracked position *)

Lemma addSkinnedInfill_located (s s' : SkinSkein) (infillBoundaries_ : list (list complex)) :
  infillBoundaries s = Some infillBoundaries_ ->
  addSkinnedInfill s = Ok s' ->
  exists known, oldLocation s = Some known.
Proof.
  intros Hset. unfold addSkinnedInfill, getBottomZ. rewrite Hset.
  destruct (oldLocation s) as [known|]; [eauto | discriminate].
Qed.


Lemma endsAt_bracketed (top : float) (first last_ : string)
    (block : list DistanceFeedRateCall) (before after : option Vector3) :
  endsAt top block before after ->
  endsAt top (addLine first :: block ++ [addLine last_]) before after.
Proof.
  unfold endsAt, lastLoop. rewrite emittedLoops_bracketed. auto.
Qed.

(** C10.  Whenever the infill generator emits at least one path, it
    overwrites the tracked position with the x and y of the end of the last
    emitted path at the height the position had before, the upper z of the
    layer, and not at the z of the pass.  So every pass of one infill, the
    hops, and whatever reads the position next see the layer top. *)
Theorem addSkinnedInfill_position :
  (forall (infillBoundaries_ : list (list complex)) (offsetY upperZ z : float)
          (s s' : SkinSkein),
      addSkinnedInfillBoundary infillBoundaries_ offsetY upperZ z s = Ok s' ->
      exists infillPaths calls,
        getInfillPaths infillBoundaries_ offsetY s = Ok infillPaths
        /\ distanceFeedRate s' = distanceFeedRate s ++ calls
        /\ List.length (emittedLoops calls) = List.length infillPaths
        /\ (infillPaths <> [] ->
            exists thread point,
              lastLoop calls = Some (thread, z)
              /\ lastItem thread = Ok point
              /\ oldLocation s'
                 = Some (Vector3.mk (real point) (imag point) upperZ))
        /\ (infillPaths = [] -> oldLocation s' = oldLocation s))
  /\ (forall (infillBoundaries_ : list (list complex)) (top : float) (s s' : SkinSkein),
         infillBoundaries s = Some infillBoundaries_ ->
         topIs top (oldLocation s) ->
         addSkinnedInfill s = Ok s' ->
         exists calls,
           distanceFeedRate s' = distanceFeedRate s ++ calls
           /\ endsAt top calls (oldLocation s) (oldLocation s')
           /\ Forall (isHopAt top) calls
           /\ topIs top (oldLocation s')).
Proof.
  split.
  - intros infillBoundaries_ offsetY upperZ z s s' Hrun.
    destruct (addSkinnedInfillBoundary_written _ _ _ _ _ _ Hrun)
      as (infillPaths & calls & Hpaths & (location & -> & _ & _ & Hends) & Hlen & Hz).
    exists infillPaths, calls. split; [exact Hpaths|]. split; [reflexivity|].
    split; [exact Hlen|]. cbn [oldLocation set_oldLocation].
    unfold endsAt, lastLoop in *.
    destruct (emittedLoops calls) as [|loop loops_] eqn:Hloops using rev_ind.
    + cbn in Hends. split.
      * intros Hne. destruct infillPaths; [contradiction | discriminate].
      * intros _. exact Hends.
    + clear IHloops_. rewrite map_app in Hends |- *. cbn [map] in Hends |- *.
      rewrite last_last in Hends |- *.
      destruct loop as [thread zLoop].
      apply Forall_app in Hz. destruct Hz as [_ Hz].
      apply Forall_inv in Hz. cbn in Hz. subst zLoop.
      destruct Hends as (point & Hlast & ->). split.
      * intros _. exists thread, point. auto.
      * intros ->. rewrite length_app in Hlen. cbn in Hlen. lia.
  - intros infillBoundaries_ top s s' Hset Htop Hrun.
    destruct (addSkinnedInfill_written s s' infillBoundaries_ top Hset Htop Hrun)
      as (oldFlowRate_ & block & location & Hrate & -> & Hmotion & Hhop & Hends).
    eexists. split; [reflexivity|]. cbn [oldLocation set_infillBoundaries
      set_infillBoundary set_oldLocation].
    split; [apply endsAt_bracketed; exact Hends|].
    split.
    + constructor; [exact I|]. apply Forall_app. split; [exact Hhop|].
      constructor; [exact I | constructor].
    + eapply endsAt_topIs; eassumption.
Qed.

(** ** What the functions leave alone *)

Lemma forEach_writes {A : Type} (body : A -> SkinSkein -> result SkinSkein) :
  (forall a s s', body a s = Ok s' ->
     exists calls, s' = set_distanceFeedRate (distanceFeedRate s ++ calls) s) ->
  forall xs s s', forEach body xs s = Ok s' ->
    exists calls, s' = set_distanceFeedRate (distanceFeedRate s ++ calls) s.
Proof.
  intros Hbody xs. induction xs as [|a xs IH]; intros s s'; cbn [forEach].
  - intros [= <-]. exists []. rewrite app_nil_r, set_distanceFeedRate_same. reflexivity.
  - destruct (body a s) as [s1|] eqn:Hone; cbn [bind]; [|discriminate].
    intros Hrest. destruct (Hbody _ _ _ Hone) as (c1 & ->).
    destruct (IH _ _ Hrest) as (c2 & ->).
    exists (c1 ++ c2). cbn. rewrite app_assoc. reflexivity.
Qed.

Lemma set_perimeter_None_same (s : SkinSkein) :
  perimeter s = None -> set_perimeter None s = s.
Proof. destruct s; cbn. intros ->. reflexivity. Qed.

(** [addSkinnedPerimeter] only writes and clears the buffer. *)
Lemma addSkinnedPerimeter_frame (s s' : SkinSkein) :
  addSkinnedPerimeter s = Ok s' ->
  exists calls,
    s' = set_perimeter None (set_distanceFeedRate (distanceFeedRate s ++ calls) s).
Proof.
  unfold addSkinnedPerimeter.
  destruct (perimeter s) as [perimeter_|] eqn:Hp.
  - destruct (getBottomZ s) as [[[known layerThickness_] bottomZ]|]; cbn [bind]; [|discriminate].
    destruct (getInsetPerimeters perimeter_ s) as [perimeters|]; cbn [bind]; [|discriminate].
    destruct (oldFlowRate s) as [oldFlowRate_|] eqn:Hrate; cbn [attr bind]; [|discriminate].
    destruct (pydiv oldFlowRate_ _) as [perVertical|]; cbn [bind]; [|discriminate].
    assert (Hloops : forall z (s1 s2 : SkinSkein) (threads : list (list complex)),
               forEach (fun thread s'' => Ok (addPerimeterLoop thread z s'')) threads s1 = Ok s2 ->
               exists calls, s2 = set_distanceFeedRate (distanceFeedRate s1 ++ calls) s1).
    { intros z s1 s2 threads Hrun. rewrite forEach_addPerimeterLoop in Hrun.
      injection Hrun as <-. eauto. }
    match goal with
    | |- bind ?loop _ = _ -> _ => destruct loop as [s1|] eqn:Hloop
    end; cbn [bind]; [|discriminate].
    assert (Hs1 : exists calls, s1 = set_distanceFeedRate (distanceFeedRate s ++ calls) s).
    { destruct (getIsMinimumSides perimeters 3).
      - destruct (pydiv perVertical _) as [flowRate|]; cbn [bind] in Hloop; [|discriminate].
        apply forEach_writes in Hloop.
        + destruct Hloop as (calls & ->). unfold addFlowRateLine, emit.
          cbn [distanceFeedRate set_distanceFeedRate].
          rewrite <- app_assoc. eexists. reflexivity.
        + intros index s2 s3.
          destruct (divisionZ bottomZ layerThickness_ index s2) as [z|]; cbn [bind];
            [apply Hloops | discriminate].
      - apply forEach_writes in Hloop.
        + destruct Hloop as (calls & ->). unfold addFlowRateLine, emit.
          cbn [distanceFeedRate set_distanceFeedRate].
          rewrite <- app_assoc. eexists. reflexivity.
        + intros index s2 s3.
          destruct (divisionZ bottomZ layerThickness_ index s2) as [z|]; cbn [bind];
            [|discriminate].
          intros [= <-]. unfold addPerimeterLoop, emit. eauto. }
    destruct Hs1 as (calls & ->). cbn [oldFlowRate set_distanceFeedRate].
    rewrite Hrate. cbn [attr bind]. intros [= <-].
    unfold addFlowRateLine, emit. cbn [distanceFeedRate set_distanceFeedRate].
    rewrite <- app_assoc.
    exists (calls ++ [addLine (flowRateLine oldFlowRate_)]). reflexivity.
  - intros [= <-]. exists [].
    rewrite app_nil_r, set_distanceFeedRate_same, set_perimeter_None_same by exact Hp.
    reflexivity.
Qed.

(** [addSkinnedInfill] only writes, moves the tracked position and clears
    the set. *)
Lemma addSkinnedInfill_frame (s s' : SkinSkein) :
  addSkinnedInfill s = Ok s' ->
  exists calls location alias_,
    s' = set_infillBoundaries None
           (set_infillBoundary alias_
              (set_oldLocation location
                 (set_distanceFeedRate (distanceFeedRate s ++ calls) s))).
Proof.
  destruct (infillBoundaries s) as [infillBoundaries_|] eqn:Hset.
  - intros Hrun.
    destruct (addSkinnedInfill_located s s' _ Hset Hrun) as (known & Hknown).
    destruct (addSkinnedInfill_written s s' infillBoundaries_ (Vector3.z known) Hset
                (ex_intro _ known (conj Hknown eq_refl)) Hrun)
      as (oldFlowRate_ & block & location & _ & -> & _).
    eauto.
  - unfold addSkinnedInfill. rewrite Hset. intros [= <-].
    exists [], (oldLocation s), (infillBoundary s).
    destruct s; cbn in *. rewrite Hset, app_nil_r. reflexivity.
Qed.

(** ** One line of the body *)

(** Case analysis on the first word of a line, along the tests of
    [parseLine]. *)
Ltac firstWordCases firstWord :=
  repeat match goal with
         | |- context [String.eqb firstWord ?word] =>
             destruct (String.eqb_spec firstWord word) as [->|?]
         end.

Ltac keptOrOpened :=
  first [ left; reflexivity
        | right; left; discriminate
        | right; right; split; first [reflexivity | assumption] ].

(** What one line of the body does to the layer counters and to the two
    capture buffers: the offset and the top index stay, the layer index
    grows by one at a layer tag, and a buffer is opened only by its start
    tag under its test. *)
Lemma parseLine_effect (line : string) (s s' : SkinSkein) :
  parseLine line s = Ok s' ->
  layersFromBottom s' = layersFromBottom s
  /\ layerIndexTop s' = layerIndexTop s
  /\ layerIndex s'
     = (if firstWordIs "(<layer>" line then layerIndex s + 1 else layerIndex s)
  /\ (infillBoundaries s' = None \/ infillBoundaries s <> None
      \/ (firstWordIs "(<infill>)" line = true /\ infillCondition s = true))
  /\ (perimeter s' = None \/ perimeter s <> None
      \/ (firstWordIs "(<perimeter>" line = true /\ perimeterCondition s = true)).
Proof.
  unfold parseLine, firstWordIs.
  destruct (getSplitLineBeforeBracketSemicolon line) as [|firstWord others] eqn:Hsplit.
  { intros [= <-].
    destruct (infillBoundaries s), (perimeter s); repeat split; keptOrOpened. }
  destruct (infillBoundaries s) as [boundaries|] eqn:Hset;
    destruct (perimeter s) as [perimeter_|] eqn:Hp;
    firstWordCases firstWord; cbn [String.eqb Ascii.eqb Bool.eqb orb andb];
    repeat match goal with
           | |- bind ?r _ = Ok _ -> _ =>
               let H := fresh "H" in
               destruct r eqn:H; cbn [bind attr]; [|discriminate]
           | |- context [infillBoundaries (set_oldLocation _ _)] =>
               cbn [infillBoundaries perimeter set_oldLocation set_feedRateMinute];
               rewrite ?Hset, ?Hp
           | |- match ?r with _ => _ end = Ok _ -> _ =>
               destruct r eqn:?; cbn [bind attr]
           | |- (if ?c then _ else _) = Ok _ -> _ =>
               destruct c eqn:?; cbn [bind attr]
           end;
    try discriminate;
    intros [= <-];
    try match goal with
        | H : addSkinnedInfill _ = Ok _ |- _ =>
            apply addSkinnedInfill_frame in H;
            destruct H as (calls & location & alias_ & ->)
        | H : addSkinnedPerimeter _ = Ok _ |- _ =>
            apply addSkinnedPerimeter_frame in H;
            destruct H as (calls & ->)
        end;
    cbn; rewrite ?Hset, ?Hp; repeat split; keptOrOpened.
Qed.

Lemma firstWordIs_split (word line : string) :
  firstWordIs word line = true ->
  exists others, getSplitLineBeforeBracketSemicolon line = word :: others.
Proof.
  unfold firstWordIs.
  destruct (getSplitLineBeforeBracketSemicolon line) as [|firstWord others]; [discriminate|].
  intros Heq. apply String.eqb_eq in Heq. subst. eauto.
Qed.

Lemma firstWordIs_unique (word word' line : string) :
  firstWordIs word line = true -> firstWordIs word' line = true -> word = word'.
Proof.
  intros H1 H2. apply firstWordIs_split in H1, H2.
  destruct H1 as (o1 & H1), H2 as (o2 & H2). congruence.
Qed.

(** The end tags and the loop tags of the capture regions, met while their
    buffer is absent, only forward the line. *)
Lemma parseLine_perimeter_end_absent (line : string) (s : SkinSkein) :
  firstWordIs "(</perimeter>)" line = true -> perimeter s = None ->
  parseLine line s = Ok (emit (addLine line) s).
Proof.
  intros Hword Hp. apply firstWordIs_split in Hword. destruct Hword as (others & Hsplit).
  unfold parseLine, addSkinnedPerimeter. rewrite Hsplit, Hp. reflexivity.
Qed.

Lemma parseLine_infill_end_absent (line : string) (s : SkinSkein) :
  firstWordIs "(</infill>)" line = true -> infillBoundaries s = None ->
  parseLine line s = Ok (emit (addLine line) s).
Proof.
  intros Hword Hset. apply firstWordIs_split in Hword. destruct Hword as (others & Hsplit).
  unfold parseLine, addSkinnedInfill. rewrite Hsplit, Hset. reflexivity.
Qed.

Lemma parseLine_infill_loop_absent (line : string) (s : SkinSkein) :
  firstWordIs "(<infillBoundary>)" line = true -> infillBoundaries s = None ->
  parseLine line s = Ok (emit (addLine line) s).
Proof.
  intros Hword Hset. apply firstWordIs_split in Hword. destruct Hword as (others & Hsplit).
  unfold parseLine. rewrite Hsplit, Hset. reflexivity.
Qed.

Lemma parseLine_infill_point_absent (line : string) (s : SkinSkein) :
  firstWordIs "(<infillPoint>" line = true -> infillBoundaries s = None ->
  parseLine line s = Ok (emit (addLine line) s).
Proof.
  intros Hword Hset. apply firstWordIs_split in Hword. destruct Hword as (others & Hsplit).
  unfold parseLine. rewrite Hsplit, Hset. reflexivity.
Qed.

(** The start tag of an infill: the set is opened under the test, and the
    line is forwarded. *)
Lemma parseLine_infill_start (line : string) (s : SkinSkein) :
  firstWordIs "(<infill>)" line = true ->
  parseLine line s
  = Ok (if infillCondition s
        then emit (addLine line)
               (set_infillBoundaries (Some [])
                  (set_infillBoundary (detachInfillBoundary s) s))
        else emit (addLine line) s).
Proof.
  intros Hword. apply firstWordIs_split in Hword. destruct Hword as (others & Hsplit).
  unfold parseLine. rewrite Hsplit. cbn [String.eqb Ascii.eqb Bool.eqb].
  destruct (infillCondition s); reflexivity.
Qed.

(** ** The body *)

Lemma parseLines_app (before after : list string) (index : nat) (s : SkinSkein) :
  parseLines index (before ++ after) s
  = (sk <- parseLines index before s ;;
     parseLines (index + List.length before) after sk).
Proof.
  revert index s. induction before as [|line before IH]; intros index s; cbn [parseLines app].
  - cbn. rewrite Nat.add_0_r. reflexivity.
  - destruct (parseLine line (set_lineIndex index s)) as [s1|]; cbn [bind]; [|reflexivity].
    rewrite IH. cbn [List.length]. rewrite Nat.add_succ_r. reflexivity.
Qed.

(** A property of the state and of the lines still to come that every line
    keeps is kept by a run of lines. *)
Lemma parseLines_invariant (P : SkinSkein -> list string -> Prop) :
  (forall line rest index s s',
      parseLine line (set_lineIndex index s) = Ok s' ->
      P s (line :: rest) -> P s' rest) ->
  forall before after index s sk,
    parseLines index before s = Ok sk -> P s (before ++ after) -> P sk after.
Proof.
  intros Hstep before. induction before as [|line before IH];
    intros after index s sk; cbn [parseLines app].
  - intros [= <-]. auto.
  - destruct (parseLine line (set_lineIndex index s)) as [s1|] eqn:Hone; cbn [bind];
      [|discriminate].
    intros Hrest HP. eapply IH; [exact Hrest|]. eapply Hstep; eassumption.
Qed.

Lemma countLayers_cons (line : string) (rest : list string) :
  countLayers (line :: rest)
  = (if firstWordIs "(<layer>" line then 1 else 0) + countLayers rest.
Proof.
  unfold countLayers. cbn [filter].
  destruct (firstWordIs "(<layer>" line); cbn [List.length]; lia.
Qed.

Lemma countLayers_nonneg (rest : list string) : 0 <= countLayers rest.
Proof. unfold countLayers. lia. Qed.

Lemma noEarlyCapture_step (line : string) (index : nat) (s s' : SkinSkein) :
  parseLine line (set_lineIndex index s) = Ok s' ->
  noEarlyCapture s -> noEarlyCapture s'.
Proof.
  intros Hrun Hinv. apply parseLine_effect in Hrun.
  cbn [layersFromBottom layerIndexTop layerIndex infillBoundaries perimeter set_lineIndex]
    in Hrun.
  destruct Hrun as (Hlfb & _ & Hindex & Hset & Hp).
  unfold noEarlyCapture, infillCondition, perimeterCondition in *.
  cbn [layersFromBottom layerIndexTop layerIndex set_lineIndex] in *.
  rewrite Hlfb, Hindex. intros Hbelow.
  assert (Hbefore : layerIndex s < layersFromBottom s)
    by (destruct (firstWordIs "(<layer>" line); lia).
  destruct (Hinv Hbefore) as [Hp0 Hset0]. split.
  - destruct Hp as [Hnone | [Hsome | [_ Hcond]]]; [exact Hnone | contradiction | lia].
  - destruct Hset as [Hnone | [Hsome | [_ Hcond]]]; [exact Hnone | contradiction | lia].
Qed.

Lemma infillGate_step (line : string) (rest : list string) (index : nat)
    (s s' : SkinSkein) :
  parseLine line (set_lineIndex index s) = Ok s' ->
  infillGate s (line :: rest) -> infillGate s' rest.
Proof.
  intros Hrun [Hcount Hopen]. apply parseLine_effect in Hrun.
  unfold infillCondition in *.
  cbn [layersFromBottom layerIndexTop layerIndex infillBoundaries perimeter set_lineIndex]
    in Hrun.
  destruct Hrun as (Hlfb & Htop & Hindex & Hset & _).
  rewrite countLayers_cons in Hcount. pose proof (countLayers_nonneg rest) as Hrest.
  unfold infillGate, infillCondition. rewrite Hlfb, Htop, Hindex. split.
  - destruct (firstWordIs "(<layer>" line); lia.
  - intros Hsome'.
    assert (Hcond : (layersFromBottom s <=? layerIndex s)
                    && (layerIndex s =? layerIndexTop s) = true).
    { destruct Hset as [Hnone | [Hsome | [_ Hcond]]];
        [contradiction | exact (Hopen Hsome) | exact Hcond]. }
    destruct (firstWordIs "(<layer>" line); [|exact Hcond]. lia.
Qed.

(** ** The prescan *)

Lemma prescanned_intro (s s' : SkinSkein) (top : Z) :
  s' = set_layerIndexTop top (set_boundaryLayers (boundaryLayers s') s) ->
  exists layers, s' = set_layerIndexTop top (set_boundaryLayers layers s).
Proof. eauto. Qed.

Lemma parseBoundaryLine_effect (line : string) (s s' : SkinSkein)
    (boundaryLoop boundaryLoop' : option nat) :
  parseBoundaryLine line (s, boundaryLoop) = Ok (s', boundaryLoop') ->
  exists layers,
    s' = set_layerIndexTop
           (layerIndexTop s + (if firstWordIs "(<layer>" line then 1 else 0))
           (set_boundaryLayers layers s).
Proof.
  unfold parseBoundaryLine, firstWordIs, getFirstWord.
  destruct (getSplitLineBeforeBracketSemicolon line) as [|firstWord others] eqn:Hsplit.
  { cbn [String.eqb]. intros [= <- <-]. apply prescanned_intro.
    rewrite Z.add_0_r. destruct s; reflexivity. }
  firstWordCases firstWord; cbn [String.eqb Ascii.eqb Bool.eqb].
  - intros [= <- <-]. apply prescanned_intro.
    rewrite Z.add_0_r. destruct s; reflexivity.
  - destruct (getLocationFromSplitLine None _) as [location|]; cbn [bind]; [|discriminate].
    destruct boundaryLoop as [layerOfLoop|].
    + cbn [bind]. intros [= <- <-]. apply prescanned_intro.
      rewrite Z.add_0_r. destruct s; reflexivity.
    + destruct (boundaryLayers s) as [|layer layers] eqn:Hlayers; [discriminate|].
      cbn [bind]. intros [= <- <-]. apply prescanned_intro.
      rewrite Z.add_0_r. destruct s; reflexivity.
  - destruct (item (_ :: others) 1) as [word|]; cbn [bind]; [|discriminate].
    destruct (float_of_string word) as [height|]; cbn [bind]; [|discriminate].
    intros [= <- <-]. apply prescanned_intro. destruct s; reflexivity.
  - intros [= <- <-]. apply prescanned_intro.
    rewrite Z.add_0_r. destruct s; reflexivity.
Qed.

Lemma forEach_parseBoundaryLine_effect (textLines : list string) (s s' : SkinSkein)
    (boundaryLoop boundaryLoop' : option nat) :
  forEach parseBoundaryLine textLines (s, boundaryLoop) = Ok (s', boundaryLoop') ->
  exists layers,
    s' = set_layerIndexTop (layerIndexTop s + countLayers textLines)
           (set_boundaryLayers layers s).
Proof.
  revert s boundaryLoop.
  induction textLines as [|line rest IH]; intros s boundaryLoop; cbn [forEach].
  - intros [= <- <-]. exists (boundaryLayers s). unfold countLayers. cbn.
    rewrite Z.add_0_r. destruct s; reflexivity.
  - destruct (parseBoundaryLine line (s, boundaryLoop)) as [[s1 loop1]|] eqn:Hone;
      cbn [bind]; [|discriminate].
    intros Hrest. apply parseBoundaryLine_effect in Hone. destruct Hone as (l1 & ->).
    apply IH in Hrest. destruct Hrest as (l2 & ->).
    exists l2. rewrite countLayers_cons.
    cbn [layerIndexTop set_layerIndexTop set_boundaryLayers].
    rewrite Z.add_assoc. reflexivity.
Qed.

Lemma firstLayerWithLoops_found (layers : list LoopLayer) (start : Z)
    (index : nat) (layer : LoopLayer) :
  nth_error layers index = Some layer -> loops layer <> [] ->
  (forall earlier layer',
      (earlier < index)%nat -> nth_error layers earlier = Some layer' ->
      loops layer' = []) ->
  firstLayerWithLoops layers start = Some (start + Z.of_nat index).
Proof.
  revert start index.
  induction layers as [|first layers IH]; intros start index Hnth Hloops Hearlier.
  - destruct index; discriminate.
  - cbn [firstLayerWithLoops]. destruct index as [|index].
    + injection Hnth as ->. destruct (loops layer); [contradiction|].
      cbn. f_equal. lia.
    + rewrite (Hearlier 0%nat first) by (cbn; (lia || reflexivity)).
      cbn [List.length Nat.ltb Nat.leb].
      rewrite (IH (start + 1) index); [f_equal; lia | exact Hnth | exact Hloops |].
      intros earlier layer' Hlt Hn. apply (Hearlier (S earlier) layer'); [lia | exact Hn].
Qed.

Lemma firstLayerWithLoops_none (layers : list LoopLayer) (start : Z) :
  (forall layer, In layer layers -> loops layer = []) ->
  firstLayerWithLoops layers start = None.
Proof.
  revert start. induction layers as [|first layers IH]; intros start Hall; [reflexivity|].
  cbn [firstLayerWithLoops]. rewrite (Hall first) by (left; reflexivity).
  cbn [List.length Nat.ltb Nat.leb]. apply IH. intros layer Hin. apply Hall. right. exact Hin.
Qed.

(** What the prescan changes: the boundary layers, the top index, which
    becomes the number of layer tags of the body minus one, and the offset,
    to which the index of the first layer with loops is added. *)
Lemma parseBoundaries_effect (s s0 : SkinSkein) :
  parseBoundaries s = Ok s0 ->
  exists layers,
    s0 = set_layersFromBottom
           (layersFromBottom s
            + match firstLayerWithLoops layers 0 with
              | Some boundaryLayerIndex => boundaryLayerIndex
              | None => 0
              end)
           (set_layerIndexTop (-1 + countLayers (bodyLines s))
              (set_boundaryLayers layers s)).
Proof.
  unfold parseBoundaries, bodyLines.
  cbn [lineIndex lines set_layerIndexTop set_boundaryLayers].
  destruct (forEach parseBoundaryLine _ _) as [[s1 boundaryLoop]|] eqn:Hloop;
    cbn [bind]; [|discriminate].
  apply forEach_parseBoundaryLine_effect in Hloop. destruct Hloop as (layers & ->).
  cbn [boundaryLayers layerIndexTop layersFromBottom set_layerIndexTop set_boundaryLayers].
  destruct (firstLayerWithLoops layers 0) as [boundaryLayerIndex|] eqn:Hfirst;
    intros [= <-]; exists layers; rewrite Hfirst.
  - reflexivity.
  - rewrite Z.add_0_r. destruct s; reflexivity.
Qed.

(** ** The claims about the layers and the capture regions *)

Lemma parseLines_noEarlyCapture (s0 : SkinSkein) (before : list string) (index : nat)
    (sk : SkinSkein) :
  noEarlyCapture s0 ->
  parseLines index before s0 = Ok sk ->
  noEarlyCapture sk /\ layersFromBottom sk = layersFromBottom s0.
Proof.
  intros Hinit Hrun.
  apply (parseLines_invariant
           (fun s _ => noEarlyCapture s /\ layersFromBottom s = layersFromBottom s0)
           ltac:(intros line rest i s s' Hone [Hinv Hlfb];
                 split; [eapply noEarlyCapture_step; eassumption|];
                 apply parseLine_effect in Hone; destruct Hone as (Hl & _);
                 cbn [layersFromBottom set_lineIndex] in Hl; congruence)
           before [] index s0 sk Hrun).
  split; [exact Hinit | reflexivity].
Qed.

(** C5.  The prescan adds to the starting-layer offset the index of the
    first boundary layer, in ascending order, that has a loop, and leaves
    the offset as it is when no layer has one.  From then on, no perimeter
    and no infill is captured while the layer index is below the offset: in
    particular, when the layers 0 and 1 have no loop, the layer 2 has one
    and the configured starting index is 1, nothing is captured before the
    layer of index 3. *)
Theorem starting_layer_offset (s s0 : SkinSkein) :
  parseBoundaries s = Ok s0 ->
  (forall index layer,
      nth_error (boundaryLayers s0) index = Some layer -> loops layer <> [] ->
      (forall earlier layer',
          (earlier < index)%nat ->
          nth_error (boundaryLayers s0) earlier = Some layer' -> loops layer' = []) ->
      layersFromBottom s0 = layersFromBottom s + Z.of_nat index)
  /\ ((forall layer, In layer (boundaryLayers s0) -> loops layer = []) ->
      layersFromBottom s0 = layersFromBottom s)
  /\ (perimeter s = None -> infillBoundaries s = None ->
      forall textLines index sk,
        parseLines index textLines s0 = Ok sk ->
        layerIndex sk < layersFromBottom s0 ->
        perimeter sk = None /\ infillBoundaries sk = None)
  /\ (forall layer0 layer1 layer2 others,
         boundaryLayers s0 = layer0 :: layer1 :: layer2 :: others ->
         loops layer0 = [] -> loops layer1 = [] -> loops layer2 <> [] ->
         layersFromBottom s = 1 ->
         perimeter s = None -> infillBoundaries s = None ->
         layersFromBottom s0 = 3
         /\ forall textLines index sk,
              parseLines index textLines s0 = Ok sk ->
              layerIndex sk < 3 ->
              perimeter sk = None /\ infillBoundaries sk = None).
Proof.
  intros Hscan. apply parseBoundaries_effect in Hscan. destruct Hscan as (layers & ->).
  cbn [boundaryLayers layersFromBottom set_layersFromBottom set_layerIndexTop
       set_boundaryLayers].
  assert (Hfound : forall index layer,
             nth_error layers index = Some layer -> loops layer <> [] ->
             (forall earlier layer',
                 (earlier < index)%nat ->
                 nth_error layers earlier = Some layer' -> loops layer' = []) ->
             layersFromBottom s
             + match firstLayerWithLoops layers 0 with
               | Some boundaryLayerIndex => boundaryLayerIndex
               | None => 0
               end
             = layersFromBottom s + Z.of_nat index).
  { intros index layer Hnth Hloops Hearlier.
    rewrite (firstLayerWithLoops_found layers 0 index layer Hnth Hloops Hearlier).
    reflexivity. }
  assert (Hgate : perimeter s = None -> infillBoundaries s = None ->
                  forall textLines index sk,
                    parseLines index textLines
                      (set_layersFromBottom
                         (layersFromBottom s
                          + match firstLayerWithLoops layers 0 with
                            | Some boundaryLayerIndex => boundaryLayerIndex
                            | None => 0
                            end)
                         (set_layerIndexTop (-1 + countLayers (bodyLines s))
                            (set_boundaryLayers layers s))) = Ok sk ->
                    layerIndex sk
                    < layersFromBottom s
                      + match firstLayerWithLoops layers 0 with
                        | Some boundaryLayerIndex => boundaryLayerIndex
                        | None => 0
                        end ->
                    perimeter sk = None /\ infillBoundaries sk = None).
  { intros Hp Hset textLines index sk Hrun Hbelow.
    apply parseLines_noEarlyCapture in Hrun.
    - destruct Hrun as [Hinv Hlfb]. apply Hinv. rewrite Hlfb. exact Hbelow.
    - intros _. split; assumption. }
  split; [exact Hfound|]. split; [|split; [exact Hgate|]].
  - intros Hnone. rewrite firstLayerWithLoops_none by exact Hnone. lia.
  - intros layer0 layer1 layer2 others -> H0 H1 H2 Hstart Hp Hset.
    assert (Hthree : layersFromBottom s
                     + match firstLayerWithLoops (layer0 :: layer1 :: layer2 :: others) 0 with
                       | Some boundaryLayerIndex => boundaryLayerIndex
                       | None => 0
                       end = 3).
    { rewrite (Hfound 2%nat layer2 eq_refl H2); [lia|].
      intros earlier layer' Hlt Hnth.
      destruct earlier as [|[|earlier]]; [| |lia]; injection Hnth as <-; assumption. }
    split; [exact Hthree|].
    intros textLines index sk Hrun Hbelow.
    apply (Hgate Hp Hset textLines index sk Hrun). rewrite Hthree. exact Hbelow.
Qed.

Lemma parseLines_inactive (between : list string) (index : nat) (s sm : SkinSkein) :
  Forall (fun line => firstWordIs "(<infill>)" line = false) between ->
  infillBoundaries s = None ->
  parseLines index between s = Ok sm ->
  infillBoundaries sm = None.
Proof.
  intros Hnone Hset Hrun.
  apply (parseLines_invariant
           (fun s rest =>
              Forall (fun line => firstWordIs "(<infill>)" line = false) rest
              /\ infillBoundaries s = None)
           ltac:(intros line rest i t t' Hone [Hall Hinactive];
                 inversion Hall as [|? ? Hline Hrest]; subst;
                 split; [exact Hrest|];
                 apply parseLine_effect in Hone;
                 destruct Hone as (_ & _ & _ & [Hn | [Hs | [Hstart _]]] & _);
                 [ exact Hn
                 | cbn [infillBoundaries set_lineIndex] in Hs; contradiction
                 | congruence ])
           between [] index s sm Hrun).
  rewrite app_nil_r. split; assumption.
Qed.

(** C6.  In the body, a start-of-infill tag opens an empty set of infill
    boundaries only when the layer index is at or after the starting offset
    and is the top index recorded by the prescan.  At every other
    start-of-infill tag the capture stays inactive, and the end-of-infill
    tag that follows generates nothing: it only forwards its line. *)
Theorem infill_capture_gate (s s0 : SkinSkein) :
  layerIndex s = -1 -> infillBoundaries s = None ->
  parseBoundaries s = Ok s0 ->
  forall before line after sk index,
    bodyLines s0 = before ++ line :: after ->
    firstWordIs "(<infill>)" line = true ->
    parseLines (lineIndex s0) before s0 = Ok sk ->
    exists sk',
      parseLine line (set_lineIndex index sk) = Ok sk'
      /\ infillCondition sk
         = (layersFromBottom s0 <=? layerIndex sk) && (layerIndex sk =? layerIndexTop s0)
      /\ (infillCondition sk = true -> infillBoundaries sk' = Some [])
      /\ (infillCondition sk = false ->
          infillBoundaries sk' = None
          /\ forall between endLine sm index' index'',
               Forall (fun l => firstWordIs "(<infill>)" l = false) between ->
               firstWordIs "(</infill>)" endLine = true ->
               parseLines index' between sk' = Ok sm ->
               parseLine endLine (set_lineIndex index'' sm)
               = Ok (emit (addLine endLine) (set_lineIndex index'' sm))).
Proof.
  intros Hindex Hset Hscan before line after sk index Hbody Hstart Hrun.
  assert (Hgate : infillGate sk (line :: after)
                  /\ layersFromBottom sk = layersFromBottom s0
                  /\ layerIndexTop sk = layerIndexTop s0).
  { apply (parseLines_invariant
             (fun t rest => infillGate t rest
                            /\ layersFromBottom t = layersFromBottom s0
                            /\ layerIndexTop t = layerIndexTop s0)
             ltac:(intros l rest i t t' Hone (Hinv & Hlfb & Htop);
                   split; [eapply infillGate_step; eassumption|];
                   apply parseLine_effect in Hone; destruct Hone as (Hl & Ht & _);
                   cbn [layersFromBottom layerIndexTop set_lineIndex] in Hl, Ht;
                   split; congruence)
             before (line :: after) (lineIndex s0) s0 sk Hrun).
    rewrite <- Hbody. split; [|split; reflexivity].
    pose proof (parseBoundaries_effect s s0 Hscan) as (layers & ->).
    unfold infillGate, bodyLines.
    cbn [layerIndex layerIndexTop infillBoundaries lineIndex lines
         set_layersFromBottom set_layerIndexTop set_boundaryLayers].
    split; [unfold bodyLines; lia | intros Hsome; contradiction]. }
  destruct Hgate as ([_ Hopen] & Hlfb & Htop).
  assert (Hword : firstWordIs "(<infill>)"%string line = true) by exact Hstart.
  rewrite (parseLine_infill_start line (set_lineIndex index sk) Hword).
  eexists. split; [reflexivity|].
  split; [unfold infillCondition; rewrite Hlfb, Htop; reflexivity|].
  change (infillCondition (set_lineIndex index sk)) with (infillCondition sk).
  destruct (infillCondition sk) eqn:Hcond.
  - split; [intros _; reflexivity | discriminate].
  - assert (Hinactive : infillBoundaries sk = None).
    { destruct (infillBoundaries sk) eqn:Hsk; [|reflexivity].
      assert (Hne : Some l <> None) by discriminate. specialize (Hopen Hne). discriminate. }
    split; [discriminate|]. intros _. split; [exact Hinactive|].
    intros between endLine sm index' index'' Hnone Hend Hbetween.
    apply parseLine_infill_end_absent; [exact Hend|].
    cbn [infillBoundaries set_lineIndex].
    eapply parseLines_inactive; [exact Hnone | | exact Hbetween].
    exact Hinactive.
Qed.

(** C8 (amended).  A marker of a capture region that arrives while the
    buffer of its region is absent is a silent no-op: an end-of-perimeter
    tag with no perimeter buffer, and an end-of-infill, an infill-loop or an
    infill-point tag with no set of infill boundaries, raise nothing, leave
    the state as it is and only forward their line; the two generators do
    nothing on an absent buffer. *)
Theorem absent_buffer_noop (s : SkinSkein) :
  (perimeter s = None ->
   addSkinnedPerimeter s = Ok s
   /\ forall line, firstWordIs "(</perimeter>)" line = true ->
                   parseLine line s = Ok (emit (addLine line) s))
  /\ (infillBoundaries s = None ->
      addSkinnedInfill s = Ok s
      /\ forall line,
           firstWordIs "(</infill>)" line = true
           \/ firstWordIs "(<infillBoundary>)" line = true
           \/ firstWordIs "(<infillPoint>" line = true ->
           parseLine line s = Ok (emit (addLine line) s)).
Proof.
  split.
  - intros Hp. split; [unfold addSkinnedPerimeter; rewrite Hp; reflexivity|].
    intros line Hword. apply parseLine_perimeter_end_absent; assumption.
  - intros Hset. split; [unfold addSkinnedInfill; rewrite Hset; reflexivity|].
    intros line [Hword | [Hword | Hword]].
    + apply parseLine_infill_end_absent; assumption.
    + apply parseLine_infill_loop_absent; assumption.
    + apply parseLine_infill_point_absent; assumption.
Qed.

(** ** The parameter parser *)

Lemma forwardedLines_app (a b : list DistanceFeedRateCall) :
  forwardedLines (a ++ b) = forwardedLines a ++ forwardedLines b.
Proof.
  induction a as [|call a IH]; cbn; [reflexivity|].
  destruct call; cbn; rewrite IH; reflexivity.
Qed.

Lemma forwardedLines_headerCalls (textLines : list string) :
  forwardedLines (headerCalls textLines) = textLines.
Proof.
  induction textLines as [|line rest IH]; cbn; [reflexivity|].
  unfold headerCalls in IH. rewrite IH. reflexivity.
Qed.

(** One line of the header: the marker emits the tag of the procedure and
    returns; any other line is forwarded, after at most one parameter has
    been stored. *)
Lemma parseInitializationLine_effect (line : string) (s s1 : SkinSkein) (returned : bool) :
  parseInitializationLine line s = Ok (returned, s1) ->
  returned = isEndOfInitialization line
  /\ distanceFeedRate s1
     = distanceFeedRate s
       ++ [shown line;
           if isEndOfInitialization line then addTagBracketedProcedure "skin"
           else addLine line]
  /\ lineIndex s1 = lineIndex s
  /\ configOf s1 = configOf s.
Proof.
  unfold parseInitializationLine, isEndOfInitialization, shown.
  set (splitLine := getSplitLineBeforeBracketSemicolon line).
  set (firstWord := getFirstWord splitLine).
  clearbody firstWord.
  firstWordCases firstWord; cbn [String.eqb Ascii.eqb Bool.eqb];
    repeat match goal with
           | |- bind ?r _ = Ok _ -> _ =>
               let H := fresh "H" in
               destruct r eqn:H; cbn [bind attr]; [|discriminate]
           end;
    intros [= <- <-]; unfold emit; cbn; rewrite <- ?app_assoc;
    repeat split; try reflexivity;
    match goal with
    | |- context [String.eqb firstWord ?w] =>
        destruct (String.eqb_spec firstWord w); [contradiction | reflexivity]
    end.
Qed.

Lemma parseInitializationLines_marker (before : list string) (marker : string)
    (after : list string) (index : nat) (s s' : SkinSkein) :
  Forall (fun line => isEndOfInitialization line = false) before ->
  isEndOfInitialization marker = true ->
  parseInitializationLines index (before ++ marker :: after) s = Ok s' ->
  lineIndex s' = (index + List.length before)%nat
  /\ distanceFeedRate s'
     = distanceFeedRate s ++ headerCalls before
       ++ [shown marker; addTagBracketedProcedure "skin"]
  /\ configOf s' = configOf s.
Proof.
  revert index s. induction before as [|line before IH]; intros index s Hbefore Hmarker;
    cbn [app parseInitializationLines].
  - destruct (parseInitializationLine marker (set_lineIndex index s))
      as [[returned s1]|] eqn:Hone; cbn [bind]; [|discriminate].
    apply parseInitializationLine_effect in Hone.
    destruct Hone as (-> & Hcalls & Hindex & Hconfig). rewrite Hmarker in *.
    intros [= <-]. cbn [lineIndex set_lineIndex distanceFeedRate] in *.
    rewrite Hindex, Hcalls, Nat.add_0_r. auto.
  - inversion Hbefore as [|? ? Hline Hrest]; subst.
    destruct (parseInitializationLine line (set_lineIndex index s))
      as [[returned s1]|] eqn:Hone; cbn [bind]; [|discriminate].
    apply parseInitializationLine_effect in Hone.
    destruct Hone as (-> & Hcalls & Hindex & Hconfig). rewrite Hline in *.
    intros Hrun. destruct (IH (S index) s1 Hrest Hmarker Hrun) as (Hi & Hc & Hg).
    cbn [lineIndex set_lineIndex distanceFeedRate] in *.
    rewrite Hi, Hc, Hcalls, Hg, Hconfig. cbn [List.length headerCalls flat_map].
    rewrite <- !app_assoc. repeat split; first [lia | reflexivity].
Qed.

Lemma parseInitializationLines_unmarked (textLines : list string) (index : nat)
    (s s' : SkinSkein) :
  Forall (fun line => isEndOfInitialization line = false) textLines ->
  parseInitializationLines index textLines s = Ok s' ->
  distanceFeedRate s' = distanceFeedRate s ++ headerCalls textLines
  /\ (textLines <> [] -> lineIndex s' = (index + List.length textLines - 1)%nat)
  /\ (textLines = [] -> s' = s)
  /\ configOf s' = configOf s.
Proof.
  revert index s. induction textLines as [|line rest IH]; intros index s Hall;
    cbn [parseInitializationLines].
  - intros [= <-]. rewrite app_nil_r. repeat split; first [contradiction | reflexivity].
  - inversion Hall as [|? ? Hline Hrest]; subst.
    destruct (parseInitializationLine line (set_lineIndex index s))
      as [[returned s1]|] eqn:Hone; cbn [bind]; [|discriminate].
    apply parseInitializationLine_effect in Hone.
    destruct Hone as (-> & Hcalls & Hindex & Hconfig). rewrite Hline in *.
    intros Hrun. destruct (IH (S index) s1 Hrest Hrun) as (Hc & Hi & Hsame & Hg).
    cbn [lineIndex set_lineIndex distanceFeedRate] in *.
    rewrite Hc, Hcalls, Hg, Hconfig. cbn [headerCalls flat_map List.length].
    rewrite <- !app_assoc. repeat split; try discriminate.
    intros _. destruct rest as [|next rest].
    + rewrite (Hsame eq_refl), Hindex. cbn. lia.
    + rewrite Hi by discriminate. cbn [List.length]. lia.
Qed.

(** The scan returns when every line before the marker can be stored. *)
Lemma parseInitializationLines_total (before : list string) (marker : string)
    (after : list string) (index : nat) (s : SkinSkein) :
  (forall line t, In line before -> configOf t = configOf s ->
                  exists r, parseInitializationLine line t = Ok r) ->
  Forall (fun line => isEndOfInitialization line = false) before ->
  isEndOfInitialization marker = true ->
  exists s', parseInitializationLines index (before ++ marker :: after) s = Ok s'.
Proof.
  revert index s. induction before as [|line before IH];
    intros index s Hparse Hbefore Hmarker; cbn [app parseInitializationLines].
  - unfold parseInitializationLine. unfold isEndOfInitialization in Hmarker.
    apply String.eqb_eq in Hmarker. rewrite Hmarker. cbn. eauto.
  - inversion Hbefore as [|? ? Hline Hrest]; subst.
    destruct (Hparse line (set_lineIndex index s) (or_introl eq_refl) eq_refl)
      as [[returned s1] Hone].
    rewrite Hone. cbn [bind].
    apply parseInitializationLine_effect in Hone.
    destruct Hone as (-> & _ & _ & Hconfig). rewrite Hline.
    apply IH; [|exact Hrest | exact Hmarker].
    intros other t Hin Ht. apply Hparse; [right; exact Hin|].
    rewrite Ht, Hconfig. reflexivity.
Qed.

(** C7 (amended).  The parameter parser forwards every line that comes
    before the end-of-initialization marker, recognized or not, unchanged
    and in order.  At the marker it emits the stage-completion tag instead
    of the line and returns with the scan position at the marker, whose
    line the body pass then handles.  Without a marker every line is
    forwarded and no tag is emitted. *)
Theorem parseInitialization_scan (s : SkinSkein) :
  (forall before marker after,
      lines s = before ++ marker :: after ->
      Forall (fun line => isEndOfInitialization line = false) before ->
      isEndOfInitialization marker = true ->
      ((forall line t, In line before -> configOf t = configOf s ->
                       exists r, parseInitializationLine line t = Ok r) ->
       exists s', parseInitialization s = Ok s')
      /\ forall s',
           parseInitialization s = Ok s' ->
           lineIndex s' = List.length before
           /\ nth_error (lines s) (lineIndex s') = Some marker
           /\ distanceFeedRate s'
              = distanceFeedRate s ++ headerCalls before
                ++ [shown marker; addTagBracketedProcedure "skin"]
           /\ forwardedLines (headerCalls before
                              ++ [shown marker; addTagBracketedProcedure "skin"])
              = before)
  /\ (Forall (fun line => isEndOfInitialization line = false) (lines s) ->
      forall s',
        parseInitialization s = Ok s' ->
        distanceFeedRate s' = distanceFeedRate s ++ headerCalls (lines s)
        /\ forwardedLines (headerCalls (lines s)) = lines s).
Proof.
  split.
  - intros before marker after Hlines Hbefore Hmarker. split.
    + intros Hparse. unfold parseInitialization. rewrite Hlines.
      apply parseInitializationLines_total; assumption.
    + intros s' Hrun. unfold parseInitialization in Hrun. rewrite Hlines in Hrun.
      destruct (parseInitializationLines_marker _ _ _ _ _ _ Hbefore Hmarker Hrun)
        as (Hindex & Hcalls & _).
      cbn in Hindex. rewrite Hindex, Hlines. split; [reflexivity|].
      split; [rewrite nth_error_app2, Nat.sub_diag by lia; reflexivity|].
      split; [exact Hcalls|].
      rewrite forwardedLines_app, forwardedLines_headerCalls. cbn. apply app_nil_r.
  - intros Hall s' Hrun. unfold parseInitialization in Hrun.
    destruct (parseInitializationLines_unmarked _ _ _ _ Hall Hrun) as (Hcalls & _).
    split; [exact Hcalls | apply forwardedLines_headerCalls].
Qed.

(** ** The settings *)

(** No line of the body changes the attributes that hold the settings. *)
Lemma parseLine_config (line : string) (s s' : SkinSkein) :
  parseLine line s = Ok s' -> configOf s' = configOf s.
Proof.
  unfold parseLine.
  destruct (getSplitLineBeforeBracketSemicolon line) as [|firstWord others] eqn:Hsplit.
  { intros [= <-]. reflexivity. }
  firstWordCases firstWord; cbn [String.eqb Ascii.eqb Bool.eqb orb andb];
    repeat match goal with
           | |- bind ?r _ = Ok _ -> _ =>
               let H := fresh "H" in
               destruct r eqn:H; cbn [bind attr]; [|discriminate]
           | |- match ?r with _ => _ end = Ok _ -> _ =>
               destruct r eqn:?; cbn [bind attr]
           | |- (if ?c then _ else _) = Ok _ -> _ =>
               destruct c eqn:?; cbn [bind attr]
           end;
    try discriminate;
    intros [= <-];
    try match goal with
        | H : addSkinnedInfill _ = Ok _ |- _ =>
            apply addSkinnedInfill_frame in H;
            destruct H as (calls & location & alias_ & ->)
        | H : addSkinnedPerimeter _ = Ok _ |- _ =>
            apply addSkinnedPerimeter_frame in H;
            destruct H as (calls & ->)
        end;
    reflexivity.
Qed.

Lemma parseLines_config (textLines : list string) (index : nat) (s s' : SkinSkein) :
  parseLines index textLines s = Ok s' -> configOf s' = configOf s.
Proof.
  intros Hrun.
  apply (parseLines_invariant (fun t _ => configOf t = configOf s)
           ltac:(intros line rest i t t' Hone Ht;
                 apply parseLine_config in Hone; exact (eq_trans Hone Ht))
           textLines [] index s s' Hrun).
  reflexivity.
Qed.

Lemma configure_effect (gcodeText : string) (repository_ : SkinRepository)
    (s : SkinSkein) :
  configure gcodeText repository_ = Ok s ->
  configOf s
  = (repository_,
     Z.max (SkinRepository.verticalDivisions repository_) 1,
     float_of_int (Z.max (SkinRepository.verticalDivisions repository_) 1),
     float_of_int (SkinRepository.horizontalPerimeterDivisions repository_),
     float_of_int (SkinRepository.horizontalInfillDivisions repository_))
  /\ layersFromBottom s = SkinRepository.layersFrom repository_
  /\ lines s = getTextLines gcodeText
  /\ layerIndex s = -1
  /\ perimeter s = None
  /\ infillBoundaries s = None.
Proof.
  unfold configure.
  destruct (pyfloat (SkinRepository.horizontalInfillDivisions repository_))
    as [infillDivisions|] eqn:Hi; cbn [bind]; [|discriminate].
  destruct (pyfloat (SkinRepository.horizontalPerimeterDivisions repository_))
    as [perimeterDivisions|] eqn:Hp; cbn [bind]; [|discriminate].
  cbn [verticalDivisions set_verticalDivisions].
  destruct (pyfloat (Z.max (SkinRepository.verticalDivisions repository_) 1))
    as [divisions|] eqn:Hv; cbn [bind]; [|discriminate].
  apply pyfloat_Ok in Hi, Hp, Hv. subst. intros [= <-].
  repeat split.
Qed.

Lemma parseInitializationLines_config (textLines : list string) (index : nat)
    (s s' : SkinSkein) :
  parseInitializationLines index textLines s = Ok s' ->
  configOf s' = configOf s
  /\ layersFromBottom s' = layersFromBottom s
  /\ lines s' = lines s
  /\ layerIndex s' = layerIndex s
  /\ perimeter s' = perimeter s
  /\ infillBoundaries s' = infillBoundaries s.
Proof.
  revert index s. induction textLines as [|line rest IH]; intros index s;
    cbn [parseInitializationLines].
  - intros [= <-]. repeat split.
  - destruct (parseInitializationLine line (set_lineIndex index s))
      as [[returned s1]|] eqn:Hone; cbn [bind]; [|discriminate].
    assert (Hs1 : configOf s1 = configOf s
                  /\ layersFromBottom s1 = layersFromBottom s
                  /\ lines s1 = lines s
                  /\ layerIndex s1 = layerIndex s
                  /\ perimeter s1 = perimeter s
                  /\ infillBoundaries s1 = infillBoundaries s).
    { clear IH. revert Hone. unfold parseInitializationLine.
      set (firstWord := getFirstWord (getSplitLineBeforeBracketSemicolon line)).
      clearbody firstWord.
      firstWordCases firstWord; cbn [String.eqb Ascii.eqb Bool.eqb];
        repeat match goal with
               | |- bind ?r _ = Ok _ -> _ =>
                   let H := fresh "H" in
                   destruct r eqn:H; cbn [bind attr]; [|discriminate]
               end;
        intros [= <- <-]; repeat split. }
    destruct returned.
    + intros [= <-]. exact Hs1.
    + intros Hrest. apply IH in Hrest.
      destruct Hs1 as (H1 & H2 & H3 & H4 & H5 & H6).
      destruct Hrest as (R1 & R2 & R3 & R4 & R5 & R6).
      repeat split; congruence.
Qed.

(** Every state of the transform, from the header to the last line of the
    body, holds the settings as [configure] has read them. *)
Lemma initialize_effect (gcodeText : string) (repository_ : SkinRepository)
    (s1 : SkinSkein) :
  initialize gcodeText repository_ = Ok s1 ->
  configOf s1
  = (repository_,
     Z.max (SkinRepository.verticalDivisions repository_) 1,
     float_of_int (Z.max (SkinRepository.verticalDivisions repository_) 1),
     float_of_int (SkinRepository.horizontalPerimeterDivisions repository_),
     float_of_int (SkinRepository.horizontalInfillDivisions repository_))
  /\ layersFromBottom s1 = SkinRepository.layersFrom repository_
  /\ lines s1 = getTextLines gcodeText
  /\ layerIndex s1 = -1
  /\ perimeter s1 = None
  /\ infillBoundaries s1 = None.
Proof.
  unfold initialize. intros Hinit.
  destruct (configure gcodeText repository_) as [c|] eqn:Hc; cbn [bind] in Hinit;
    [|discriminate].
  apply configure_effect in Hc. destruct Hc as (C1 & C2 & C3 & C4 & C5 & C6).
  destruct (parseInitialization c) as [h|] eqn:Hh; cbn [bind] in Hinit; [|discriminate].
  apply parseInitializationLines_config in Hh.
  destruct Hh as (H1 & H2 & H3 & H4 & H5 & H6).
  repeat match type of Hinit with
         | bind (attr _ ?field) _ = Ok _ =>
             destruct field; cbn [attr bind] in Hinit; [|discriminate]
         end.
  injection Hinit as <-.
  cbn [layersFromBottom lines layerIndex perimeter infillBoundaries
       set_skinInfillInset set_clipLength].
  repeat split; try congruence.
  exact (eq_trans H1 C1).
Qed.

Lemma craft_config (gcodeText : string) (repository_ : SkinRepository)
    (s1 s0 : SkinSkein) :
  initialize gcodeText repository_ = Ok s1 ->
  parseBoundaries s1 = Ok s0 ->
  forall textLines index sk,
    parseLines index textLines s0 = Ok sk ->
    configOf sk
    = (repository_,
       Z.max (SkinRepository.verticalDivisions repository_) 1,
       float_of_int (Z.max (SkinRepository.verticalDivisions repository_) 1),
       float_of_int (SkinRepository.horizontalPerimeterDivisions repository_),
       float_of_int (SkinRepository.horizontalInfillDivisions repository_)).
Proof.
  intros Hinit Hscan textLines index sk Hrun.
  apply initialize_effect in Hinit. destruct Hinit as (Hconfig & _).
  apply parseBoundaries_effect in Hscan. destruct Hscan as (layers & ->).
  apply parseLines_config in Hrun. rewrite Hrun. exact Hconfig.
Qed.

(** With division counts that are at least one, every state of the body is
    configured as the generators need. *)
Lemma craft_configured (gcodeText : string) (repository_ : SkinRepository)
    (s1 s0 : SkinSkein) (textLines : list string) (index : nat) (sk : SkinSkein) :
  initialize gcodeText repository_ = Ok s1 ->
  parseBoundaries s1 = Ok s0 ->
  parseLines index textLines s0 = Ok sk ->
  SkinRepository.verticalDivisions repository_ < 2 ^ 53 ->
  verticalConfigured sk
  /\ (1 <= SkinRepository.horizontalPerimeterDivisions repository_ < 2 ^ 53 ->
      perimeterConfigured sk)
  /\ (1 <= SkinRepository.horizontalInfillDivisions repository_ < 2 ^ 53 ->
      infillConfigured sk).
Proof.
  intros Hinit Hscan Hrun Hv.
  pose proof (craft_config _ _ _ _ Hinit Hscan _ _ _ Hrun) as Hconfig.
  unfold configOf in Hconfig. injection Hconfig as Hr Hvd Hvf Hpf Hif.
  unfold verticalConfigured, perimeterConfigured, infillConfigured.
  rewrite Hr, Hvd, Hvf, Hpf, Hif. repeat split; auto; lia.
Qed.

(** C9 (amended).  The vertical division count that the transform uses is
    the configured count clamped to at least 1, whatever the configuration
    supplies; it is at least 1 as the integer the loops run over and as the
    float the generators divide by.  The two horizontal counts are used as
    the configuration supplies them, converted to floats, without clamping.
    This holds in every state of the transform. *)
Theorem division_counts (gcodeText : string) (repository_ : SkinRepository) :
  let vertical := Z.max (SkinRepository.verticalDivisions repository_) 1 in
  (forall s,
      configure gcodeText repository_ = Ok s ->
      verticalDivisions s = vertical
      /\ 1 <= verticalDivisions s
      /\ verticalDivisionsFloat s = float_of_int vertical
      /\ (vertical < 2 ^ 53 -> PrimFloat.leb 1 (verticalDivisionsFloat s) = true)
      /\ horizontalPerimeterDivisionsFloat s
         = float_of_int (SkinRepository.horizontalPerimeterDivisions repository_)
      /\ horizontalInfillDivisionsFloat s
         = float_of_int (SkinRepository.horizontalInfillDivisions repository_))
  /\ (forall s1 s0 textLines index sk,
         initialize gcodeText repository_ = Ok s1 ->
         parseBoundaries s1 = Ok s0 ->
         parseLines index textLines s0 = Ok sk ->
         1 <= verticalDivisions sk
         /\ configOf sk
            = (repository_, vertical, float_of_int vertical,
               float_of_int (SkinRepository.horizontalPerimeterDivisions repository_),
               float_of_int (SkinRepository.horizontalInfillDivisions repository_)))
  /\ (SkinRepository.verticalDivisions repository_ < 2 ^ 53 ->
      - 2 ^ 53 < SkinRepository.horizontalPerimeterDivisions repository_ < 2 ^ 53 ->
      - 2 ^ 53 < SkinRepository.horizontalInfillDivisions repository_ < 2 ^ 53 ->
      exists s, configure gcodeText repository_ = Ok s).
Proof.
  intros vertical. split; [|split].
  - intros s Hc. apply configure_effect in Hc. destruct Hc as (Hconfig & _).
    unfold configOf in Hconfig. injection Hconfig as Hr Hvd Hvf Hpf Hif.
    fold vertical in Hvd, Hvf. rewrite Hvd, Hvf.
    repeat split; auto; [unfold vertical; lia|].
    intros Hsmall. apply float_of_int_ge_one. unfold vertical in *. lia.
  - intros s1 s0 textLines index sk Hinit Hscan Hrun.
    pose proof (craft_config _ _ _ _ Hinit Hscan _ _ _ Hrun) as Hconfig.
    split; [|exact Hconfig].
    unfold configOf in Hconfig. injection Hconfig as Hr Hvd Hvf Hpf Hif.
    rewrite Hvd. lia.
  - intros Hv Hp Hi. unfold configure.
    rewrite (pyfloat_small _ Hi). cbn [bind].
    rewrite (pyfloat_small _ Hp). cbn [bind].
    cbn [verticalDivisions set_verticalDivisions].
    rewrite pyfloat_small by lia. cbn [bind]. eauto.
Qed.

(** ** The calls are only added to *)

Lemma parseLine_writes (line : string) (s s' : SkinSkein) :
  parseLine line s = Ok s' ->
  exists calls, distanceFeedRate s' = distanceFeedRate s ++ calls.
Proof.
  unfold parseLine.
  destruct (getSplitLineBeforeBracketSemicolon line) as [|firstWord others] eqn:Hsplit.
  { intros [= <-]. exists []. rewrite app_nil_r. reflexivity. }
  firstWordCases firstWord; cbn [String.eqb Ascii.eqb Bool.eqb orb andb];
    repeat match goal with
           | |- bind ?r _ = Ok _ -> _ =>
               let H := fresh "H" in
               destruct r eqn:H; cbn [bind attr]; [|discriminate]
           | |- match ?r with _ => _ end = Ok _ -> _ =>
               destruct r eqn:?; cbn [bind attr]
           | |- (if ?c then _ else _) = Ok _ -> _ =>
               destruct c eqn:?; cbn [bind attr]
           end;
    try discriminate;
    intros [= <-];
    try match goal with
        | H : addSkinnedInfill _ = Ok _ |- _ =>
            apply addSkinnedInfill_frame in H;
            destruct H as (calls & location & alias_ & ->)
        | H : addSkinnedPerimeter _ = Ok _ |- _ =>
            apply addSkinnedPerimeter_frame in H;
            destruct H as (calls & ->)
        end;
    unfold emit; cbn;
    first [ exists []; rewrite app_nil_r; reflexivity
          | rewrite <- ?app_assoc; eexists; reflexivity ].
Qed.

Lemma parseLines_writes (textLines : list string) (index : nat) (s s' : SkinSkein) :
  parseLines index textLines s = Ok s' ->
  exists calls, distanceFeedRate s' = distanceFeedRate s ++ calls.
Proof.
  revert index s. induction textLines as [|line rest IH]; intros index s; cbn [parseLines].
  - intros [= <-]. exists []. rewrite app_nil_r. reflexivity.
  - destruct (parseLine line (set_lineIndex index s)) as [s1|] eqn:Hone; cbn [bind];
      [|discriminate].
    intros Hrest. apply parseLine_writes in Hone. destruct Hone as (c1 & H1).
    apply IH in Hrest. destruct Hrest as (c2 & H2).
    exists (c1 ++ c2). rewrite H2, H1, app_assoc. reflexivity.
Qed.

Lemma first_marker (textLines : list string) :
  existsb isEndOfInitialization textLines = true ->
  exists before marker after,
    textLines = before ++ marker :: after
    /\ Forall (fun line => isEndOfInitialization line = false) before
    /\ isEndOfInitialization marker = true.
Proof.
  induction textLines as [|line rest IH]; cbn [existsb]; [discriminate|].
  destruct (isEndOfInitialization line) eqn:Hline.
  - intros _. exists [], line, rest. repeat split; [constructor | exact Hline].
  - cbn [orb]. intros Hrest. destruct (IH Hrest) as (before & marker & after & -> & Hb & Hm).
    exists (line :: before), marker, after. repeat split; [constructor; assumption | exact Hm].
Qed.

Lemma initialize_emits_procedure_tag (gcodeText : string)
    (repository_ : SkinRepository) (s1 : SkinSkein) :
  existsb isEndOfInitialization (getTextLines gcodeText) = true ->
  initialize gcodeText repository_ = Ok s1 ->
  In (addTagBracketedProcedure "skin") (distanceFeedRate s1).
Proof.
  intros Hmarker. unfold initialize.
  destruct (configure gcodeText repository_) as [c|] eqn:Hc; cbn [bind]; [|discriminate].
  apply configure_effect in Hc. destruct Hc as (_ & _ & Hlines & _).
  destruct (parseInitialization c) as [h|] eqn:Hh; cbn [bind]; [|discriminate].
  rewrite <- Hlines in Hmarker.
  destruct (first_marker _ Hmarker) as (before & marker & after & Hsplit & Hb & Hm).
  unfold parseInitialization in Hh. rewrite Hsplit in Hh.
  apply parseInitializationLines_marker in Hh; [|assumption|assumption].
  destruct Hh as (_ & Hcalls & _).
  repeat match goal with
         | |- bind (attr _ ?field) _ = Ok _ -> _ =>
             destruct field; cbn [attr bind]; [|discriminate]
         end.
  intros [= <-].
  cbn [distanceFeedRate set_skinInfillInset set_clipLength].
  rewrite Hcalls. rewrite !in_app_iff. right. right. right. left. reflexivity.
Qed.

(** When the text has an end-of-initialization marker and the transform
    runs to the end, the stage-completion tag is among the calls on the
    output object. *)
Lemma craft_emits_procedure_tag (gcodeText : string) (repository_ : SkinRepository)
    (s : SkinSkein) :
  existsb isEndOfInitialization (getTextLines gcodeText) = true ->
  craft gcodeText repository_ = Ok s ->
  In (addTagBracketedProcedure "skin") (distanceFeedRate s).
Proof.
  intros Hmarker. unfold craft.
  destruct (initialize gcodeText repository_) as [s1|] eqn:Hinit; cbn [bind];
    [|discriminate].
  apply initialize_emits_procedure_tag in Hinit; [|exact Hmarker].
  destruct (parseBoundaries s1) as [s0|] eqn:Hscan; cbn [bind]; [|discriminate].
  apply parseBoundaries_effect in Hscan. destruct Hscan as (layers & ->).
  intros Hrun. apply parseLines_writes in Hrun. destruct Hrun as (calls & ->).
  cbn [distanceFeedRate set_layersFromBottom set_layerIndexTop set_boundaryLayers].
  apply in_or_app. left. exact Hinit.
Qed.

(** ** The whole transform *)

(** C1.  The transform returns its input unchanged whenever the
    stage-completion marker is already present in it, or the input is
    empty, or the activate-skin setting is false.  So, for a text with an
    end-of-initialization marker, the output [once] of the transform is
    either the input itself, returned unchanged, or a text that holds the
    stage-completion marker, and applying the transform to [once] gives
    [once] again.  What is assumed of [gcodec] is that the marker test finds
    the tag that this run of the transform has written. *)
Theorem getCraftedTextFromText_short_circuit
    (gcodeText : string) (repository_ : option SkinRepository) :
  (isProcedureDone gcodeText "skin" = true
   \/ gcodeText = ""
   \/ SkinRepository.activateSkin (repositoryOrRead repository_) = false ->
   getCraftedTextFromText gcodeText repository_ = Ok gcodeText)
  /\ (forall once,
         getCraftedTextFromText gcodeText repository_ = Ok once ->
         existsb isEndOfInitialization (getTextLines gcodeText) = true ->
         (forall s, craft gcodeText (repositoryOrRead repository_) = Ok s ->
                    tagDetected (distanceFeedRate s)) ->
         (once = gcodeText \/ isProcedureDone once "skin" = true)
         /\ getCraftedTextFromText once repository_ = Ok once).
Proof.
  assert (Hshort : forall input,
             isProcedureDone input "skin" = true
             \/ input = ""
             \/ SkinRepository.activateSkin (repositoryOrRead repository_) = false ->
             getCraftedTextFromText input repository_ = Ok input).
  { intros input Hcase. unfold getCraftedTextFromText, isProcedureDoneOrFileIsEmpty.
    destruct Hcase as [Hdone | [-> | Hoff]].
    - rewrite Hdone, orb_true_r. reflexivity.
    - reflexivity.
    - destruct ((input =? "")%string || isProcedureDone input "skin"); [reflexivity|].
      rewrite Hoff. reflexivity. }
  split; [apply Hshort|].
  intros once Hrun Hmarker Hdetected.
  unfold getCraftedTextFromText in Hrun.
  destruct (isProcedureDoneOrFileIsEmpty gcodeText "skin") eqn:Hdone.
  { injection Hrun as <-. split; [left; reflexivity|].
    unfold getCraftedTextFromText. rewrite Hdone. reflexivity. }
  cbv zeta in Hrun.
  destruct (SkinRepository.activateSkin (repositoryOrRead repository_)) eqn:Hactive.
  - cbn [negb] in Hrun. unfold getCraftedGcode in Hrun.
    destruct (craft gcodeText (repositoryOrRead repository_)) as [s|] eqn:Hcraft;
      cbn [bind] in Hrun; [|discriminate].
    injection Hrun as <-.
    pose proof (Hdetected s eq_refl
                  (craft_emits_procedure_tag _ _ _ Hmarker Hcraft)) as Hfound.
    split; [right; exact Hfound|]. apply Hshort. left. exact Hfound.
  - cbn [negb] in Hrun. injection Hrun as <-. split; [left; reflexivity|].
    apply Hshort. right. right. reflexivity.
Qed.

(** * Further properties of the functions *)

(** ** The loops and the insets *)

(** X1.  [getIsMinimumSides] holds exactly when every loop has at least
    [sides] points, and fails exactly when some loop has fewer; the test of
    two lists of loops together is the conjunction of their tests, so an
    empty list of loops passes. *)
Theorem getIsMinimumSides_all (loops_ : list (list complex)) (sides : nat) :
  (getIsMinimumSides loops_ sides = true
   <-> forall loop, In loop loops_ -> (sides <= List.length loop)%nat)
  /\ (getIsMinimumSides loops_ sides = false
      <-> exists loop, In loop loops_ /\ (List.length loop < sides)%nat)
  /\ (forall others,
         getIsMinimumSides (loops_ ++ others) sides
         = getIsMinimumSides loops_ sides && getIsMinimumSides others sides)
  /\ getIsMinimumSides [] sides = true.
Proof.
  split; [apply getIsMinimumSides_true|]. split; [apply getIsMinimumSides_false|].
  split; [|reflexivity].
  intros others. induction loops_ as [|loop rest IH]; cbn [getIsMinimumSides app];
    [reflexivity|].
  destruct (List.length loop <? sides)%nat; [reflexivity | exact IH].
Qed.

Lemma insetRadius_succ (radius radiusAddition : float) (division : nat) :
  insetRadius radius radiusAddition (S division)
  = insetRadius (radius + radiusAddition)%float radiusAddition division.
Proof.
  induction division as [|division IH]; [reflexivity|].
  change (insetRadius radius radiusAddition (S (S division)))
    with (insetRadius radius radiusAddition (S division) + radiusAddition)%float.
  rewrite IH. reflexivity.
Qed.

Lemma getClippedSimplifiedLoopPathByLoop_read (loop : list complex) (s : SkinSkein)
    (halfPerimeterWidth_ : float) :
  halfPerimeterWidth s = Some halfPerimeterWidth_ ->
  getClippedSimplifiedLoopPathByLoop loop s
  = Ok (clippedLoopPath s halfPerimeterWidth_ loop).
Proof.
  intros Hhalf. unfold getClippedSimplifiedLoopPathByLoop, clippedLoopPath.
  destruct loop; [reflexivity|]. rewrite Hhalf. reflexivity.
Qed.

Lemma insetPerimeters_radii (divisions : nat) (thread : list complex)
    (radius radiusAddition : float) (s : SkinSkein) (halfPerimeterWidth_ : float) :
  halfPerimeterWidth s = Some halfPerimeterWidth_ ->
  insetPerimeters divisions thread radius radiusAddition s
  = Ok (map (fun division =>
               clippedLoopPath s halfPerimeterWidth_
                 (getLargestInsetLoopFromLoop thread
                    (insetRadius radius radiusAddition division)))
          (seq 0 divisions)).
Proof.
  intros Hhalf. revert radius.
  induction divisions as [|n IH]; intros radius; [reflexivity|].
  cbn [insetPerimeters].
  rewrite (getClippedSimplifiedLoopPathByLoop_read _ _ _ Hhalf). cbn [bind].
  rewrite IH. cbn [bind seq map]. rewrite <- seq_shift, map_map.
  f_equal. f_equal. apply map_ext. intros division.
  rewrite insetRadius_succ. reflexivity.
Qed.

(** X2.  The insets that the perimeter generator computes from a captured
    perimeter: one per horizontal perimeter division, each the clipped
    closed path of the largest inset of the perimeter without its last
    point; the radius of the first is half the radius addition minus half
    the perimeter width, and each next radius is the one before plus the
    addition, the perimeter width divided by the division count.  An inset
    that comes back empty stays an empty path. *)
Theorem getInsetPerimeters_radii (perimeter_ : list complex) (s : SkinSkein)
    (perimeters : list (list complex)) :
  getInsetPerimeters perimeter_ s = Ok perimeters ->
  exists perimeterWidth_ halfPerimeterWidth_,
    perimeterWidth s = Some perimeterWidth_
    /\ halfPerimeterWidth s = Some halfPerimeterWidth_
    /\ PrimFloat.eqb (horizontalPerimeterDivisionsFloat s) 0 = false
    /\ perimeters
       = map (fun division =>
                clippedLoopPath s halfPerimeterWidth_
                  (getLargestInsetLoopFromLoop (removelast perimeter_)
                     (insetRadius
                        (0.5 * (perimeterWidth_ / horizontalPerimeterDivisionsFloat s)
                         - halfPerimeterWidth_)%float
                        (perimeterWidth_ / horizontalPerimeterDivisionsFloat s)%float
                        division)))
           (seq 0 (Z.to_nat (SkinRepository.horizontalPerimeterDivisions (repository s))))
    /\ List.length perimeters
       = Z.to_nat (SkinRepository.horizontalPerimeterDivisions (repository s)).
Proof.
  intros Hrun. pose proof (getInsetPerimeters_length _ _ _ Hrun) as Hlength.
  revert Hrun. unfold getInsetPerimeters, pydiv.
  destruct (perimeterWidth s) as [perimeterWidth_|]; cbn [attr bind]; [|discriminate].
  destruct (PrimFloat.eqb (horizontalPerimeterDivisionsFloat s) 0) eqn:Hzero;
    cbn [bind]; [discriminate|].
  destruct (halfPerimeterWidth s) as [halfPerimeterWidth_|] eqn:Hhalf; cbn [attr bind];
    [|discriminate].
  rewrite (insetPerimeters_radii _ _ _ _ _ _ Hhalf). intros [= <-].
  exists perimeterWidth_, halfPerimeterWidth_. repeat split; auto.
Qed.

(** ** The generators *)

(** X3.  The perimeter generator, whenever it returns, has only added calls
    to the output and cleared the perimeter buffer: the tracked position,
    the tracked flow rate and feed rate, the infill buffers, the layer
    counters, the parameters and the settings are as they were. *)
Theorem addSkinnedPerimeter_leaves (s s' : SkinSkein) :
  addSkinnedPerimeter s = Ok s' ->
  (exists calls,
      s' = set_perimeter None (set_distanceFeedRate (distanceFeedRate s ++ calls) s))
  /\ perimeter s' = None
  /\ oldLocation s' = oldLocation s
  /\ oldFlowRate s' = oldFlowRate s
  /\ feedRateMinute s' = feedRateMinute s
  /\ infillBoundaries s' = infillBoundaries s
  /\ infillBoundary s' = infillBoundary s
  /\ layerIndex s' = layerIndex s
  /\ parametersOf s' = parametersOf s
  /\ configOf s' = configOf s.
Proof.
  intros Hrun. apply addSkinnedPerimeter_frame in Hrun. destruct Hrun as (calls & ->).
  split; [exists calls; reflexivity|]. repeat split.
Qed.


(** X5.  What the perimeter generator needs when a perimeter has been
    captured.  It raises [AttributeError] when no position has been tracked
    (no move came before the end tag) or no layer thickness has been read,
    and [ZeroDivisionError] when the horizontal perimeter division count is
    zero; and whenever it returns, the position, the thickness, the two
    widths and the flow rate were there and both division floats were not
    zero. *)
Theorem addSkinnedPerimeter_raises (s : SkinSkein) (perimeter_ : list complex) :
  perimeter s = Some perimeter_ ->
  (oldLocation s = None -> addSkinnedPerimeter s = Raise AttributeError)
  /\ (layerThickness s = None -> addSkinnedPerimeter s = Raise AttributeError)
  /\ (oldLocation s <> None -> layerThickness s <> None ->
      PrimFloat.eqb (verticalDivisionsFloat s) 0 = false ->
      perimeterWidth s <> None ->
      PrimFloat.eqb (horizontalPerimeterDivisionsFloat s) 0 = true ->
      addSkinnedPerimeter s = Raise ZeroDivisionError)
  /\ (forall s',
         addSkinnedPerimeter s = Ok s' ->
         oldLocation s <> None /\ layerThickness s <> None
         /\ perimeterWidth s <> None /\ halfPerimeterWidth s <> None
         /\ oldFlowRate s <> None
         /\ PrimFloat.eqb (verticalDivisionsFloat s) 0 = false
         /\ PrimFloat.eqb (horizontalPerimeterDivisionsFloat s) 0 = false).
Proof.
  intros Hp. unfold addSkinnedPerimeter, getBottomZ, getInsetPerimeters, pydiv.
  rewrite Hp. split; [|split; [|split]].
  - intros ->. reflexivity.
  - intros ->. destruct (oldLocation s); reflexivity.
  - intros Hlocation Hthickness Hvertical Hwidth Hhorizontal.
    destruct (oldLocation s); [|contradiction].
    destruct (layerThickness s); [|contradiction].
    destruct (perimeterWidth s); [|contradiction].
    cbn [attr bind]. rewrite Hvertical. cbn [bind]. rewrite Hhorizontal. reflexivity.
  - intros s'.
    destruct (oldLocation s); cbn [attr bind]; [|discriminate].
    destruct (layerThickness s); cbn [attr bind]; [|discriminate].
    destruct (PrimFloat.eqb (verticalDivisionsFloat s) 0); cbn [bind]; [discriminate|].
    destruct (perimeterWidth s); cbn [attr bind]; [|discriminate].
    destruct (PrimFloat.eqb (horizontalPerimeterDivisionsFloat s) 0); cbn [bind];
      [discriminate|].
    destruct (halfPerimeterWidth s); cbn [attr bind]; [|discriminate].
    destruct (insetPerimeters _ _ _ _ _); cbn [bind]; [|discriminate].
    destruct (oldFlowRate s); cbn [attr bind]; [|discriminate].
    intros _. repeat split; discriminate.
Qed.

(** X6.  What the infill generator needs when a set of infill boundaries
    has been captured.  It raises [AttributeError] when no position has been
    tracked or no layer thickness has been read, and [TypeError] when no
    flow rate has been tracked, the flow rate being divided before anything
    is written; and whenever it returns, the position, the thickness, the
    skin infill width and the flow rate were there and both division floats
    were not zero. *)
Theorem addSkinnedInfill_raises (s : SkinSkein)
    (infillBoundaries_ : list (list complex)) :
  infillBoundaries s = Some infillBoundaries_ ->
  (oldLocation s = None -> addSkinnedInfill s = Raise AttributeError)
  /\ (layerThickness s = None -> addSkinnedInfill s = Raise AttributeError)
  /\ (oldLocation s <> None -> layerThickness s <> None ->
      PrimFloat.eqb (verticalDivisionsFloat s) 0 = false ->
      skinInfillWidth s <> None ->
      oldFlowRate s = None ->
      addSkinnedInfill s = Raise TypeError)
  /\ (forall s',
         addSkinnedInfill s = Ok s' ->
         oldLocation s <> None /\ layerThickness s <> None
         /\ skinInfillWidth s <> None /\ oldFlowRate s <> None
         /\ PrimFloat.eqb (verticalDivisionsFloat s) 0 = false
         /\ PrimFloat.eqb (horizontalInfillDivisionsFloat s) 0 = false).
Proof.
  intros Hset. unfold addSkinnedInfill, getBottomZ, pydiv.
  rewrite Hset. split; [|split; [|split]].
  - intros ->. reflexivity.
  - intros ->. destruct (oldLocation s); reflexivity.
  - intros Hlocation Hthickness Hvertical Hwidth Hrate.
    destruct (oldLocation s); [|contradiction].
    destruct (layerThickness s); [|contradiction].
    destruct (skinInfillWidth s); [|contradiction].
    cbn [attr bind]. rewrite Hvertical, Hrate. reflexivity.
  - intros s'.
    destruct (oldLocation s); cbn [attr bind]; [|discriminate].
    destruct (layerThickness s); cbn [attr bind]; [|discriminate].
    destruct (PrimFloat.eqb (verticalDivisionsFloat s) 0); cbn [bind]; [discriminate|].
    destruct (skinInfillWidth s); cbn [attr bind]; [|discriminate].
    destruct (oldFlowRate s); cbn [attr bind]; [|discriminate].
    destruct (PrimFloat.eqb (horizontalInfillDivisionsFloat s) 0); cbn [bind];
      [discriminate|].
    intros _. repeat split; discriminate.
Qed.

(** ** The lines of the body *)

Lemma parseLine_plain (line : string) (s : SkinSkein) :
  isPlainLine line = true -> parseLine line s = Ok (emit (addLine line) s).
Proof.
  unfold isPlainLine, parseLine.
  destruct (getSplitLineBeforeBracketSemicolon line) as [|firstWord others];
    [discriminate|].
  cbn [existsb recognizedWords]. rewrite negb_true_iff. intros Hnone.
  repeat (apply orb_false_iff in Hnone;
          let Hword := fresh "Hword" in destruct Hnone as [Hword Hnone];
          rewrite Hword).
  reflexivity.
Qed.

(** X7.  A run of lines whose first word [parseLine] has no case for is
    forwarded to the output line by line, unchanged and in order, whatever
    the state is, also while a perimeter or an infill is being captured; the
    run never raises, and it changes nothing else than the output and the
    line index. *)
Theorem parseLines_plain (textLines : list string) (index : nat) (s : SkinSkein) :
  Forall (fun line => isPlainLine line = true) textLines ->
  exists s',
    parseLines index textLines s = Ok s'
    /\ distanceFeedRate s' = distanceFeedRate s ++ map addLine textLines
    /\ s' = set_lineIndex (lineIndex s')
              (set_distanceFeedRate (distanceFeedRate s') s).
Proof.
  intros Hall. revert index s.
  induction Hall as [|line rest Hline Hrest IH]; intros index s; cbn [parseLines map].
  - exists s. split; [reflexivity|]. rewrite app_nil_r. split; [reflexivity|].
    destruct s; reflexivity.
  - rewrite (parseLine_plain _ _ Hline). cbn [bind].
    destruct (IH (S index) (emit (addLine line) (set_lineIndex index s)))
      as (s' & Hrun & Hcalls & Hsame).
    exists s'. split; [exact Hrun|]. split.
    + rewrite Hcalls. unfold emit. cbn. rewrite <- app_assoc. reflexivity.
    + etransitivity; [exact Hsame|]. destruct s; reflexivity.
Qed.

(** X8.  What one line of the body may change in the tracked values, and
    to what.  The tracked flow rate changes only at an [M108] line, which
    sets it to [getDoubleAfterFirstLetter] of the second word of the line;
    the tracked feed rate only at a move, which sets it to
    [getFeedRateMinute] of the old feed rate and the line; the tracked
    position only at a move, which sets it to [getLocationFromSplitLine] of
    the old position and the line, and at the end tag of an infill; the
    rotation and the reverse rotation only at a rotation tag, which sets the
    rotation to [getRotationBySplitLine] of the line and the reverse
    rotation to its conjugate. *)
Theorem parseLine_tracking (line : string) (s s' : SkinSkein) :
  parseLine line s = Ok s' ->
  (firstWordIs "M108" line = false -> oldFlowRate s' = oldFlowRate s)
  /\ (firstWordIs "M108" line = true ->
      exists word flowRate,
        item (getSplitLineBeforeBracketSemicolon line) 1 = Ok word
        /\ getDoubleAfterFirstLetter word = Ok flowRate
        /\ oldFlowRate s' = Some flowRate)
  /\ (firstWordIs "G1" line = false -> feedRateMinute s' = feedRateMinute s)
  /\ (firstWordIs "G1" line = true ->
      exists feedRate location,
        getFeedRateMinute (feedRateMinute s) (getSplitLineBeforeBracketSemicolon line)
        = Ok feedRate
        /\ getLocationFromSplitLine (oldLocation s)
             (getSplitLineBeforeBracketSemicolon line) = Ok location
        /\ feedRateMinute s' = feedRate
        /\ oldLocation s' = Some location)
  /\ (firstWordIs "G1" line = false -> firstWordIs "(</infill>)" line = false ->
      oldLocation s' = oldLocation s)
  /\ (firstWordIs "(<rotation>" line = false ->
      rotation s' = rotation s /\ reverseRotation s' = reverseRotation s)
  /\ (firstWordIs "(<rotation>" line = true ->
      exists rotation_,
        getRotationBySplitLine (getSplitLineBeforeBracketSemicolon line) = Ok rotation_
        /\ rotation s' = Some rotation_
        /\ reverseRotation s'
           = Some (Complex (real rotation_) (- imag rotation_)%float)).
Proof.
  unfold parseLine, firstWordIs.
  destruct (getSplitLineBeforeBracketSemicolon line) as [|firstWord others] eqn:Hsplit.
  { intros [= <-]. repeat split; intros; congruence. }
  firstWordCases firstWord; cbn [String.eqb Ascii.eqb Bool.eqb orb andb];
    repeat match goal with
           | |- bind ?r _ = Ok _ -> _ =>
               let H := fresh "H" in
               destruct r eqn:H; cbn [bind attr]; [|discriminate]
           | |- match ?r with _ => _ end = Ok _ -> _ =>
               destruct r eqn:?; cbn [bind attr]
           | |- (if ?c then _ else _) = Ok _ -> _ =>
               destruct c eqn:?; cbn [bind attr]
           end;
    try discriminate;
    intros [= <-];
    try match goal with
        | H : addSkinnedInfill _ = Ok _ |- _ =>
            apply addSkinnedInfill_frame in H;
            destruct H as (calls & location & alias_ & ->)
        | H : addSkinnedPerimeter _ = Ok _ |- _ =>
            apply addSkinnedPerimeter_frame in H;
            destruct H as (calls & ->)
        end;
    cbn [oldFlowRate feedRateMinute oldLocation rotation reverseRotation
         emit set_distanceFeedRate set_oldFlowRate set_feedRateMinute set_oldLocation
         set_rotation set_reverseRotation set_perimeter set_infillBoundaries
         set_infillBoundary set_layerIndex];
    repeat split; intros; try congruence; eauto 10.
Qed.

Lemma parseLine_uncaptured (line : string) (s s' : SkinSkein) :
  perimeter s = None -> infillBoundaries s = None ->
  parseLine line s = Ok s' ->
  distanceFeedRate s'
  = distanceFeedRate s ++ (if isWordless line then [] else [addLine line]).
Proof.
  intros Hp Hset.
  assert (Hinfill : addSkinnedInfill s = Ok s)
    by (unfold addSkinnedInfill; rewrite Hset; reflexivity).
  assert (Hperimeter : addSkinnedPerimeter s = Ok s)
    by (unfold addSkinnedPerimeter; rewrite Hp; reflexivity).
  unfold parseLine, isWordless.
  destruct (getSplitLineBeforeBracketSemicolon line) as [|firstWord others] eqn:Hsplit.
  { intros [= <-]. rewrite app_nil_r. reflexivity. }
  rewrite Hinfill, Hperimeter, Hset, Hp.
  firstWordCases firstWord; cbn [String.eqb Ascii.eqb Bool.eqb orb andb bind];
    repeat match goal with
           | |- bind ?r _ = Ok _ -> _ =>
               let H := fresh "H" in
               destruct r eqn:H; cbn [bind attr]; [|discriminate]
           | |- context [infillBoundaries (set_oldLocation _ _)] =>
               cbn [infillBoundaries perimeter set_oldLocation set_feedRateMinute];
               rewrite ?Hset, ?Hp
           | |- (if ?c then _ else _) = Ok _ -> _ =>
               destruct c eqn:?; cbn [bind attr]
           end;
    intros [= <-]; reflexivity.
Qed.

(** X9.  While no buffer is open and the layers of a run of lines stay
    below the starting layer, the body is the identity on the lines that
    have a word: each is forwarded unchanged and in order and nothing is
    generated, the start and end tags of the perimeters and infills
    included; a line without a word is dropped.  The layer index grows by
    the number of layer tags and no buffer is opened. *)
Theorem parseLines_below_offset (textLines : list string) (index : nat)
    (s s' : SkinSkein) :
  perimeter s = None -> infillBoundaries s = None ->
  layerIndex s + countLayers textLines < layersFromBottom s ->
  parseLines index textLines s = Ok s' ->
  distanceFeedRate s' = distanceFeedRate s ++ map addLine (wordedLines textLines)
  /\ perimeter s' = None
  /\ infillBoundaries s' = None
  /\ layerIndex s' = layerIndex s + countLayers textLines.
Proof.
  revert index s.
  induction textLines as [|line rest IH]; intros index s Hp Hset Hbelow; cbn [parseLines].
  - intros [= <-]. cbn. rewrite app_nil_r. unfold countLayers. cbn.
    repeat split; auto; lia.
  - destruct (parseLine line (set_lineIndex index s)) as [s1|] eqn:Hone; cbn [bind];
      [|discriminate].
    intros Hrest.
    pose proof (parseLine_uncaptured line (set_lineIndex index s) s1 Hp Hset Hone)
      as Hcalls.
    apply parseLine_effect in Hone.
    unfold infillCondition, perimeterCondition in Hone.
    cbn [layersFromBottom layerIndexTop layerIndex infillBoundaries perimeter
         distanceFeedRate set_lineIndex] in Hone, Hcalls.
    destruct Hone as (Hlfb & _ & Hindex & Hset1 & Hp1).
    rewrite countLayers_cons in Hbelow |- *.
    pose proof (countLayers_nonneg rest) as Hnonneg.
    assert (Hbefore : layerIndex s < layersFromBottom s)
      by (destruct (firstWordIs "(<layer>" line); lia).
    assert (Hp' : perimeter s1 = None).
    { destruct Hp1 as [Hnone | [Hsome | [_ Hcond]]];
        [exact Hnone | contradiction | lia]. }
    assert (Hset' : infillBoundaries s1 = None).
    { destruct Hset1 as [Hnone | [Hsome | [_ Hcond]]];
        [exact Hnone | contradiction | lia]. }
    destruct (IH (S index) s1 Hp' Hset') as (Hout & Hp'' & Hset'' & Hindex'');
      [rewrite Hlfb, Hindex; destruct (firstWordIs "(<layer>" line); lia | exact Hrest |].
    split; [|split; [exact Hp'' | split; [exact Hset''|]]].
    + rewrite Hout, Hcalls. unfold wordedLines. cbn [filter].
      destruct (isWordless line); cbn [negb map]; rewrite <- app_assoc; reflexivity.
    + rewrite Hindex'', Hindex. destruct (firstWordIs "(<layer>" line); lia.
Qed.

Lemma parseLine_captured_motion (line : string) (s s' : SkinSkein)
    (perimeter_ : list complex) :
  perimeter s = Some perimeter_ -> infillBoundaries s = None ->
  isCapturedMotion line = true ->
  parseLine line s = Ok s' ->
  distanceFeedRate s' = distanceFeedRate s
  /\ infillBoundaries s' = None
  /\ (if firstWordIs "G1" line
      then exists location,
             oldLocation s' = Some location
             /\ perimeter s' = Some (perimeter_ ++ [dropAxis location])
      else oldLocation s' = oldLocation s /\ perimeter s' = Some perimeter_).
Proof.
  intros Hp Hset. unfold isCapturedMotion, firstWordIs, parseLine.
  destruct (getSplitLineBeforeBracketSemicolon line) as [|firstWord others];
    [discriminate|].
  firstWordCases firstWord; cbn [String.eqb Ascii.eqb Bool.eqb orb andb];
    try discriminate; intros _;
    repeat match goal with
           | |- bind ?r _ = Ok _ -> _ =>
               let H := fresh "H" in
               destruct r eqn:H; cbn [bind attr]; [|discriminate]
           end;
    cbn [infillBoundaries perimeter set_oldLocation set_feedRateMinute];
    rewrite ?Hset, ?Hp; intros [= <-]; cbn; rewrite ?Hset, ?Hp; eauto.
Qed.

(** X10.  While a perimeter is being captured, the moves and the extruder
    switches are kept from the output: a run of such lines writes nothing,
    and every move appends one point to the buffer, the x and y of the
    position it moves to, so that the last point captured is the tracked
    position. *)
Theorem parseLines_perimeter_capture (textLines : list string) (index : nat)
    (s s' : SkinSkein) (perimeter_ : list complex) :
  perimeter s = Some perimeter_ -> infillBoundaries s = None ->
  Forall (fun line => isCapturedMotion line = true) textLines ->
  parseLines index textLines s = Ok s' ->
  distanceFeedRate s' = distanceFeedRate s
  /\ infillBoundaries s' = None
  /\ exists points,
       perimeter s' = Some (perimeter_ ++ points)
       /\ List.length points = List.length (filter (firstWordIs "G1") textLines)
       /\ match points with
          | [] => oldLocation s' = oldLocation s
          | _ :: _ =>
              exists location,
                oldLocation s' = Some location
                /\ last points (Complex 0 0) = dropAxis location
          end.
Proof.
  intros Hp Hset Hall. revert index s perimeter_ Hp Hset.
  induction Hall as [|line rest Hline Hrest IH]; intros index s perimeter_ Hp Hset;
    cbn [parseLines].
  - intros [= <-]. split; [reflexivity|]. split; [exact Hset|].
    exists []. rewrite app_nil_r. auto.
  - destruct (parseLine line (set_lineIndex index s)) as [s1|] eqn:Hone; cbn [bind];
      [|discriminate].
    intros Hrun.
    apply (parseLine_captured_motion line (set_lineIndex index s) s1 perimeter_ Hp Hset Hline)
      in Hone.
    cbn [distanceFeedRate oldLocation set_lineIndex] in Hone.
    destruct Hone as (Hcalls & Hset1 & Hcase). cbn [filter].
    destruct (firstWordIs "G1" line).
    + destruct Hcase as (location & Hlocation & Hp1).
      destruct (IH _ _ _ Hp1 Hset1 Hrun)
        as (Hcalls' & Hset' & points & Hp' & Hlength & Hlast).
      split; [congruence|]. split; [exact Hset'|].
      exists (dropAxis location :: points).
      split; [rewrite Hp', <- app_assoc; reflexivity|].
      split; [cbn [List.length]; f_equal; exact Hlength|].
      destruct points as [|point points].
      * exists location. split; [congruence | reflexivity].
      * exact Hlast.
    + destruct Hcase as (Hlocation & Hp1).
      destruct (IH _ _ _ Hp1 Hset1 Hrun)
        as (Hcalls' & Hset' & points & Hp' & Hlength & Hlast).
      split; [congruence|]. split; [exact Hset'|].
      exists points. split; [exact Hp'|]. split; [exact Hlength|].
      destruct points; [congruence | exact Hlast].
Qed.

Lemma parseLine_infill_motion (line : string) (s s' : SkinSkein)
    (boundaries : list (list complex)) :
  infillBoundaries s = Some boundaries ->
  isCapturedMotion line = true ->
  parseLine line s = Ok s' ->
  distanceFeedRate s' = distanceFeedRate s
  /\ infillBoundaries s' = Some boundaries
  /\ infillBoundary s' = infillBoundary s
  /\ perimeter s' = perimeter s.
Proof.
  intros Hset. unfold isCapturedMotion, firstWordIs, parseLine.
  destruct (getSplitLineBeforeBracketSemicolon line) as [|firstWord others];
    [discriminate|].
  firstWordCases firstWord; cbn [String.eqb Ascii.eqb Bool.eqb orb andb];
    try discriminate; intros _;
    repeat match goal with
           | |- bind ?r _ = Ok _ -> _ =>
               let H := fresh "H" in
               destruct r eqn:H; cbn [bind attr]; [|discriminate]
           end;
    cbn [infillBoundaries perimeter set_oldLocation set_feedRateMinute];
    rewrite ?Hset; intros [= <-]; cbn; rewrite ?Hset; auto.
Qed.

(** X11.  While an infill is being captured, the moves and the extruder
    switches of the original infill are dropped: a run of such lines writes
    nothing and adds nothing to the set of infill boundaries, and it leaves
    the perimeter buffer as it is. *)
Theorem parseLines_infill_motion (textLines : list string) (index : nat)
    (s s' : SkinSkein) (boundaries : list (list complex)) :
  infillBoundaries s = Some boundaries ->
  Forall (fun line => isCapturedMotion line = true) textLines ->
  parseLines index textLines s = Ok s' ->
  distanceFeedRate s' = distanceFeedRate s
  /\ infillBoundaries s' = Some boundaries
  /\ infillBoundary s' = infillBoundary s
  /\ perimeter s' = perimeter s.
Proof.
  intros Hset Hall. revert index s Hset.
  induction Hall as [|line rest Hline Hrest IH]; intros index s Hset; cbn [parseLines].
  - intros [= <-]. auto.
  - destruct (parseLine line (set_lineIndex index s)) as [s1|] eqn:Hone; cbn [bind];
      [|discriminate].
    intros Hrun.
    apply (parseLine_infill_motion line (set_lineIndex index s) s1 boundaries Hset Hline)
      in Hone.
    cbn [distanceFeedRate infillBoundary perimeter set_lineIndex] in Hone.
    destruct Hone as (Hcalls & Hset1 & Halias & Hp).
    destruct (IH _ _ Hset1 Hrun) as (Hcalls' & Hset' & Halias' & Hp').
    repeat split; congruence.
Qed.

Lemma alterLast_snoc {A : Type} (f : A -> A) (l : list A) (a : A) :
  alterLast f (l ++ [a]) = l ++ [f a].
Proof.
  induction l as [|b l IH]; [reflexivity|]. cbn [app].
  destruct (l ++ [a]) as [|c rest] eqn:Hl; [destruct l; discriminate|].
  change (alterLast f (b :: c :: rest)) with (b :: alterLast f (c :: rest)).
  rewrite IH. reflexivity.
Qed.

Lemma parseLine_infill_loop (line : string) (s : SkinSkein)
    (boundaries : list (list complex)) :
  infillBoundaries s = Some boundaries ->
  firstWordIs "(<infillBoundary>)" line = true ->
  parseLine line s
  = Ok (emit (addLine line)
          (set_infillBoundaries (Some (boundaries ++ [[]]))
             (set_infillBoundary (Some aliasLast) s))).
Proof.
  intros Hset Hword. apply firstWordIs_split in Hword. destruct Hword as (others & Hsplit).
  unfold parseLine. rewrite Hsplit, Hset. reflexivity.
Qed.

Lemma parseLine_infill_point (line : string) (s : SkinSkein)
    (boundaries : list (list complex)) :
  infillBoundaries s = Some boundaries -> infillBoundary s = Some aliasLast ->
  firstWordIs "(<infillPoint>" line = true ->
  parseLine line s
  = (location <- pointOfLine line ;;
     Ok (emit (addLine line)
           (set_infillBoundaries
              (Some (alterLast (fun loop => loop ++ [dropAxis location]) boundaries))
              s))).
Proof.
  intros Hset Halias Hword. apply firstWordIs_split in Hword.
  destruct Hword as (others & Hsplit).
  unfold parseLine, pointOfLine. rewrite Hsplit, Hset, Halias. reflexivity.
Qed.

Lemma parseLines_infill_points (pointLines : list string) (index : nat)
    (s s' : SkinSkein) (boundaries : list (list complex)) (loop : list complex) :
  infillBoundaries s = Some (boundaries ++ [loop]) ->
  infillBoundary s = Some aliasLast ->
  Forall (fun line => firstWordIs "(<infillPoint>" line = true) pointLines ->
  parseLines index pointLines s = Ok s' ->
  exists locations,
    mapM pointOfLine pointLines = Ok locations
    /\ infillBoundaries s' = Some (boundaries ++ [loop ++ map dropAxis locations])
    /\ infillBoundary s' = Some aliasLast
    /\ distanceFeedRate s' = distanceFeedRate s ++ map addLine pointLines.
Proof.
  intros Hset Halias Hall. revert index s loop Hset Halias.
  induction Hall as [|line rest Hline Hrest IH]; intros index s loop Hset Halias;
    cbn [parseLines mapM map].
  - intros [= <-]. exists []. cbn [map]. rewrite !app_nil_r. auto.
  - rewrite (parseLine_infill_point line (set_lineIndex index s) _ Hset Halias Hline).
    destruct (pointOfLine line) as [location|]; cbn [bind]; [|discriminate].
    rewrite alterLast_snoc. intros Hrun.
    apply (IH (S index) _ (loop ++ [dropAxis location])) in Hrun;
      [|reflexivity|exact Halias].
    destruct Hrun as (locations & Hlocations & Hset' & Halias' & Hcalls).
    exists (location :: locations). rewrite Hlocations. cbn [bind map].
    split; [reflexivity|]. split; [rewrite Hset', <- app_assoc; reflexivity|].
    split; [exact Halias'|].
    rewrite Hcalls. unfold emit. cbn. rewrite <- app_assoc. reflexivity.
Qed.

(** X12.  In an open infill region, a loop start tag followed by point tags
    adds one loop to the set of infill boundaries: the x and y of the
    locations of the points, in order.  The tags themselves are forwarded to
    the output. *)
Theorem parseLines_infill_loop (loopLine : string) (pointLines : list string)
    (index : nat) (s s' : SkinSkein) (boundaries : list (list complex)) :
  infillBoundaries s = Some boundaries ->
  firstWordIs "(<infillBoundary>)" loopLine = true ->
  Forall (fun line => firstWordIs "(<infillPoint>" line = true) pointLines ->
  parseLines index (loopLine :: pointLines) s = Ok s' ->
  exists locations,
    mapM pointOfLine pointLines = Ok locations
    /\ infillBoundaries s' = Some (boundaries ++ [map dropAxis locations])
    /\ distanceFeedRate s'
       = distanceFeedRate s ++ map addLine (loopLine :: pointLines).
Proof.
  intros Hset Hloop Hpoints. cbn [parseLines].
  rewrite (parseLine_infill_loop loopLine (set_lineIndex index s) _ Hset Hloop).
  cbn [bind]. intros Hrun.
  apply (parseLines_infill_points _ _ _ _ boundaries []) in Hrun;
    [|reflexivity|reflexivity|exact Hpoints].
  destruct Hrun as (locations & Hlocations & Hset' & _ & Hcalls).
  exists locations. split; [exact Hlocations|]. split; [exact Hset'|].
  rewrite Hcalls. unfold emit. cbn. rewrite <- app_assoc. reflexivity.
Qed.

(** ** The layers of the prescan and of the body *)

Lemma mapM_app {A B : Type} (f : A -> result B) (a b : list A) :
  mapM f (a ++ b) = (xs <- mapM f a ;; ys <- mapM f b ;; Ok (xs ++ ys)).
Proof.
  induction a as [|x a IH]; cbn [app mapM bind].
  - destruct (mapM f b); reflexivity.
  - destruct (f x) as [y|]; cbn [bind]; [|reflexivity]. rewrite IH.
    destruct (mapM f a) as [xs|]; cbn [bind]; [|reflexivity].
    destruct (mapM f b) as [ys|]; reflexivity.
Qed.

Lemma mapM_length {A B : Type} (f : A -> result B) (xs : list A) (ys : list B) :
  mapM f xs = Ok ys -> List.length ys = List.length xs.
Proof.
  revert ys. induction xs as [|x xs IH]; intros ys; cbn [mapM].
  - intros [= <-]. reflexivity.
  - destruct (f x) as [y|]; cbn [bind]; [|discriminate].
    destruct (mapM f xs) as [rest|]; cbn [bind]; [|discriminate].
    intros [= <-]. cbn [List.length]. f_equal. apply IH. reflexivity.
Qed.

Lemma forEach_app {A S : Type} (body : A -> S -> result S) (a b : list A) (s : S) :
  forEach body (a ++ b) s = (s1 <- forEach body a s ;; forEach body b s1).
Proof.
  revert s. induction a as [|x a IH]; intros s; cbn [app forEach bind]; [reflexivity|].
  destruct (body x s) as [s1|]; cbn [bind]; [apply IH | reflexivity].
Qed.

Lemma map_alterLast {A B : Type} (g : A -> B) (f : A -> A) (l : list A) :
  (forall a, g (f a) = g a) -> map g (alterLast f l) = map g l.
Proof.
  intros Hsame. induction l as [|a l IH]; [reflexivity|].
  destruct l as [|b l]; cbn [alterLast map]; [rewrite Hsame; reflexivity|].
  cbn [alterLast map] in IH. rewrite IH. reflexivity.
Qed.

Lemma map_alterAt {A B : Type} (g : A -> B) (f : A -> A) (i : nat) (l : list A) :
  (forall a, g (f a) = g a) -> map g (alterAt f i l) = map g l.
Proof.
  intros Hsame. revert i. induction l as [|a l IH]; intros i;
    [destruct i; reflexivity|].
  destruct i as [|i]; cbn [alterAt map]; [rewrite Hsame | rewrite IH]; reflexivity.
Qed.

Lemma countLayers_app (a b : list string) :
  countLayers (a ++ b) = countLayers a + countLayers b.
Proof. unfold countLayers. rewrite filter_app, length_app. lia. Qed.

(** One line of the prescan: a layer tag adds a layer with the height of
    the tag; no other line changes the heights of the layers. *)
Lemma parseBoundaryLine_heights (line : string) (s s' : SkinSkein)
    (boundaryLoop boundaryLoop' : option nat) :
  parseBoundaryLine line (s, boundaryLoop) = Ok (s', boundaryLoop') ->
  exists heights,
    mapM heightOfLine (filter (firstWordIs "(<layer>") [line]) = Ok heights
    /\ map layerZ (boundaryLayers s') = map layerZ (boundaryLayers s) ++ heights.
Proof.
  unfold parseBoundaryLine, firstWordIs, getFirstWord, heightOfLine. cbn [filter].
  destruct (getSplitLineBeforeBracketSemicolon line) as [|firstWord others] eqn:Hsplit.
  { cbn [String.eqb]. intros [= <- <-]. exists []. rewrite app_nil_r. auto. }
  firstWordCases firstWord; cbn [String.eqb Ascii.eqb Bool.eqb].
  - intros [= <- <-]. exists []. rewrite app_nil_r. auto.
  - destruct (getLocationFromSplitLine None _) as [location|]; cbn [bind]; [|discriminate].
    destruct boundaryLoop as [layerOfLoop|].
    + cbn [bind]. intros [= <- <-]. exists []. rewrite app_nil_r.
      cbn [boundaryLayers set_boundaryLayers].
      split; [reflexivity | apply map_alterAt; reflexivity].
    + destruct (boundaryLayers s) as [|layer layers] eqn:Hlayers; [discriminate|].
      cbn [bind]. intros [= <- <-]. exists []. rewrite app_nil_r.
      cbn [boundaryLayers set_boundaryLayers]. split; [reflexivity|].
      rewrite map_alterAt by reflexivity.
      exact (map_alterLast layerZ appendBoundaryLoop (layer :: layers)
               (fun _ => eq_refl)).
  - cbn [mapM]. rewrite Hsplit.
    destruct (item (_ :: others) 1) as [word|]; cbn [bind]; [|discriminate].
    destruct (float_of_string word) as [height|]; cbn [bind]; [|discriminate].
    intros [= <- <-]. exists [height].
    cbn [boundaryLayers set_boundaryLayers set_layerIndexTop].
    rewrite map_app. auto.
  - intros [= <- <-]. exists []. rewrite app_nil_r. auto.
Qed.

Lemma forEach_parseBoundaryLine_heights (textLines : list string) (s s' : SkinSkein)
    (boundaryLoop boundaryLoop' : option nat) :
  forEach parseBoundaryLine textLines (s, boundaryLoop) = Ok (s', boundaryLoop') ->
  exists heights,
    mapM heightOfLine (filter (firstWordIs "(<layer>") textLines) = Ok heights
    /\ map layerZ (boundaryLayers s') = map layerZ (boundaryLayers s) ++ heights.
Proof.
  revert s boundaryLoop.
  induction textLines as [|line rest IH]; intros s boundaryLoop; cbn [forEach].
  - intros [= <- <-]. exists []. rewrite app_nil_r. auto.
  - destruct (parseBoundaryLine line (s, boundaryLoop)) as [[s1 loop1]|] eqn:Hone;
      cbn [bind]; [|discriminate].
    intros Hrest. apply parseBoundaryLine_heights in Hone.
    destruct Hone as (h1 & Hh1 & Hm1).
    apply IH in Hrest. destruct Hrest as (h2 & Hh2 & Hm2).
    exists (h1 ++ h2).
    change (line :: rest) with ([line] ++ rest).
    rewrite filter_app, mapM_app, Hh1, Hh2. cbn [bind].
    rewrite Hm2, Hm1, app_assoc. auto.
Qed.

Lemma firstLayerWithLoops_bounds (layers : list LoopLayer) (start index : Z) :
  firstLayerWithLoops layers start = Some index ->
  start <= index < start + Z.of_nat (List.length layers).
Proof.
  revert start. induction layers as [|layer layers IH]; intros start;
    cbn [firstLayerWithLoops]; [discriminate|].
  destruct (0 <? List.length (loops layer))%nat.
  - intros [= <-]. cbn [List.length]. lia.
  - intros Hrest. apply IH in Hrest. cbn [List.length]. lia.
Qed.

(** X13.  The prescan looks ahead without consuming or writing: it leaves
    the scan position, the lines and the output as they are.  It records
    one boundary layer per start-of-layer tag of the body, in order, with
    the height the tag gives, so that the top index is the number of
    layers minus one; and it never lowers the starting layer, which it
    raises by less than the number of layers. *)
Theorem parseBoundaries_layers (s s0 : SkinSkein) :
  parseBoundaries s = Ok s0 ->
  mapM heightOfLine (filter (firstWordIs "(<layer>") (bodyLines s))
  = Ok (map layerZ (boundaryLayers s0))
  /\ Z.of_nat (List.length (boundaryLayers s0)) = countLayers (bodyLines s)
  /\ layerIndexTop s0 = Z.of_nat (List.length (boundaryLayers s0)) - 1
  /\ layersFromBottom s <= layersFromBottom s0
     <= layersFromBottom s + Z.max 0 (layerIndexTop s0)
  /\ distanceFeedRate s0 = distanceFeedRate s
  /\ lineIndex s0 = lineIndex s
  /\ lines s0 = lines s
  /\ layerIndex s0 = layerIndex s.
Proof.
  intros Hscan. pose proof (parseBoundaries_effect _ _ Hscan) as (layers & Hs0).
  assert (Hheights : mapM heightOfLine (filter (firstWordIs "(<layer>") (bodyLines s))
                     = Ok (map layerZ layers)).
  { revert Hscan. unfold parseBoundaries, bodyLines.
    cbn [lineIndex lines set_layerIndexTop set_boundaryLayers].
    destruct (forEach parseBoundaryLine _ _) as [[s1 boundaryLoop]|] eqn:Hloop;
      cbn [bind]; [|discriminate].
    apply forEach_parseBoundaryLine_heights in Hloop.
    destruct Hloop as (heights & Hheights & Hmap).
    cbn [boundaryLayers set_layerIndexTop set_boundaryLayers map app] in Hmap.
    intros Hscan. rewrite Hheights. f_equal. rewrite <- Hmap. f_equal.
    destruct (firstLayerWithLoops (boundaryLayers s1) 0);
      injection Hscan as Hscan; rewrite Hs0 in Hscan;
      apply (f_equal boundaryLayers) in Hscan; exact Hscan. }
  assert (Hcount : Z.of_nat (List.length layers) = countLayers (bodyLines s)).
  { apply mapM_length in Hheights. rewrite length_map in Hheights.
    unfold countLayers. rewrite Hheights. reflexivity. }
  rewrite Hs0.
  cbn [boundaryLayers layerIndexTop layersFromBottom distanceFeedRate lineIndex lines
       layerIndex set_layersFromBottom set_layerIndexTop set_boundaryLayers].
  split; [exact Hheights|]. split; [exact Hcount|]. split; [lia|].
  split; [|repeat split].
  destruct (firstLayerWithLoops layers 0) as [index|] eqn:Hfirst; [|lia].
  apply firstLayerWithLoops_bounds in Hfirst. lia.
Qed.

Lemma parseBoundaryLine_other (line : string) (s : SkinSkein) :
  firstWordIs "(<layer>" line || firstWordIs "(<boundaryPoint>" line = false ->
  parseBoundaryLine line (s, None) = Ok (s, None).
Proof.
  unfold parseBoundaryLine, firstWordIs, getFirstWord.
  destruct (getSplitLineBeforeBracketSemicolon line) as [|firstWord others];
    [reflexivity|].
  intros Hother. apply orb_false_iff in Hother. destruct Hother as [-> ->].
  destruct (firstWord =? "(</boundaryPerimeter>)")%string; reflexivity.
Qed.

(** X14.  A boundary point that the prescan meets before any start-of-layer
    tag has no layer to go to: the prescan never returns, and it raises
    [AttributeError] when the location of the point can be read. *)
Theorem parseBoundaries_point_before_layer (s : SkinSkein) (before : list string)
    (pointLine : string) (after : list string) :
  bodyLines s = before ++ pointLine :: after ->
  Forall (fun line =>
            firstWordIs "(<layer>" line || firstWordIs "(<boundaryPoint>" line = false)
    before ->
  firstWordIs "(<boundaryPoint>" pointLine = true ->
  (forall s0, parseBoundaries s <> Ok s0)
  /\ (forall location,
         pointOfLine pointLine = Ok location ->
         parseBoundaries s = Raise AttributeError).
Proof.
  intros Hbody Hbefore Hpoint.
  assert (Hskip : forall t, forEach parseBoundaryLine before (t, None) = Ok (t, None)).
  { clear Hbody. intros t.
    induction Hbefore as [|line rest Hline Hrest IH]; [reflexivity|].
    cbn [forEach]. rewrite (parseBoundaryLine_other _ _ Hline). cbn [bind].
    apply IH. }
  assert (Hrun : parseBoundaries s
                 = match pointOfLine pointLine with
                   | Ok _ => Raise AttributeError
                   | Raise e => Raise e
                   end).
  { unfold parseBoundaries. unfold bodyLines in Hbody.
    cbn [lineIndex lines set_layerIndexTop set_boundaryLayers].
    rewrite Hbody, forEach_app, Hskip. cbn [bind forEach].
    apply firstWordIs_split in Hpoint. destruct Hpoint as (others & Hsplit).
    unfold parseBoundaryLine, pointOfLine, getFirstWord. rewrite Hsplit.
    cbn [String.eqb Ascii.eqb Bool.eqb].
    destruct (getLocationFromSplitLine None _); reflexivity. }
  split.
  - intros s0. rewrite Hrun. destruct (pointOfLine pointLine); discriminate.
  - intros location Hlocation. rewrite Hrun, Hlocation. reflexivity.
Qed.

Lemma alterAt_snoc {A : Type} (f : A -> A) (l : list A) (a : A) :
  alterAt f (List.length l) (l ++ [a]) = l ++ [f a].
Proof.
  induction l as [|b l IH]; [reflexivity|].
  cbn [List.length app alterAt]. rewrite IH. reflexivity.
Qed.

(** A boundary point met while no loop is open starts a loop in the last
    layer; a point met while the last loop of the last layer is open goes
    to that loop. *)
Lemma parseBoundaryLine_first_point (line : string) (s : SkinSkein)
    (layers : list LoopLayer) (layer : LoopLayer) :
  boundaryLayers s = layers ++ [layer] ->
  firstWordIs "(<boundaryPoint>" line = true ->
  parseBoundaryLine line (s, None)
  = (location <- pointOfLine line ;;
     Ok (set_boundaryLayers
           (layers ++ [mkLoopLayer (layerZ layer)
                         (loops layer ++ [[dropAxis location]])]) s,
         Some (List.length layers))).
Proof.
  intros Hlayers Hword. apply firstWordIs_split in Hword.
  destruct Hword as (others & Hsplit).
  unfold parseBoundaryLine, pointOfLine, getFirstWord. rewrite Hsplit.
  cbn [String.eqb Ascii.eqb Bool.eqb].
  destruct (getLocationFromSplitLine None _) as [location|]; cbn [bind]; [|reflexivity].
  destruct (boundaryLayers s) as [|first rest] eqn:Hb; [destruct layers; discriminate|].
  unfold bind. cbv beta iota. cbn [boundaryLayers set_boundaryLayers].
  rewrite Hlayers, alterLast_snoc, length_app, Nat.add_1_r, Nat.pred_succ, alterAt_snoc.
  unfold appendBoundaryPoint, appendBoundaryLoop. cbn [layerZ loops].
  rewrite alterLast_snoc. cbn [app]. clear Hb. destruct s; reflexivity.
Qed.

Lemma parseBoundaryLine_next_point (line : string) (s : SkinSkein)
    (layers : list LoopLayer) (height : float) (others : list (list complex))
    (loop : list complex) :
  boundaryLayers s = layers ++ [mkLoopLayer height (others ++ [loop])] ->
  firstWordIs "(<boundaryPoint>" line = true ->
  parseBoundaryLine line (s, Some (List.length layers))
  = (location <- pointOfLine line ;;
     Ok (set_boundaryLayers
           (layers ++ [mkLoopLayer height (others ++ [loop ++ [dropAxis location]])]) s,
         Some (List.length layers))).
Proof.
  intros Hlayers Hword. apply firstWordIs_split in Hword.
  destruct Hword as (words & Hsplit).
  unfold parseBoundaryLine, pointOfLine, getFirstWord. rewrite Hsplit.
  cbn [String.eqb Ascii.eqb Bool.eqb].
  destruct (getLocationFromSplitLine None _) as [location|]; cbn [bind]; [|reflexivity].
  rewrite Hlayers, alterAt_snoc. unfold appendBoundaryPoint. cbn [layerZ loops].
  rewrite alterLast_snoc. reflexivity.
Qed.

Lemma forEach_parseBoundaryLine_points (pointLines : list string) (s s' : SkinSkein)
    (boundaryLoop' : option nat) (layers : list LoopLayer) (height : float)
    (others : list (list complex)) (loop : list complex) :
  boundaryLayers s = layers ++ [mkLoopLayer height (others ++ [loop])] ->
  Forall (fun line => firstWordIs "(<boundaryPoint>" line = true) pointLines ->
  forEach parseBoundaryLine pointLines (s, Some (List.length layers))
  = Ok (s', boundaryLoop') ->
  exists locations,
    mapM pointOfLine pointLines = Ok locations
    /\ boundaryLayers s'
       = layers ++ [mkLoopLayer height (others ++ [loop ++ map dropAxis locations])]
    /\ boundaryLoop' = Some (List.length layers).
Proof.
  intros Hlayers Hall. revert s loop Hlayers.
  induction Hall as [|line rest Hline Hrest IH]; intros s loop Hlayers;
    cbn [forEach mapM map].
  - intros [= <- <-]. exists []. cbn [map]. rewrite app_nil_r. auto.
  - rewrite (parseBoundaryLine_next_point _ _ _ _ _ _ Hlayers Hline).
    destruct (pointOfLine line) as [location|]; cbn [bind]; [|discriminate].
    intros Hrun.
    apply (IH _ (loop ++ [dropAxis location])) in Hrun; [|reflexivity].
    destruct Hrun as (locations & Hlocations & Hlayers' & Hloop).
    exists (location :: locations). rewrite Hlocations. cbn [bind map].
    split; [reflexivity|]. split; [|exact Hloop].
    rewrite Hlayers', <- app_assoc. reflexivity.
Qed.

(** X15.  The loops of the prescan.  The boundary points that follow each
    other, from a point met while no loop is open (after a start-of-layer
    tag or an end-of-boundary tag), become one new loop at the end of the
    last boundary layer: the x and y of their locations, in order.  The
    height and the earlier loops of the layer and the earlier layers stay,
    and the end-of-boundary tag that follows closes the loop and changes
    nothing else. *)
Theorem parseBoundaryLines_loop (pointLine : string) (pointLines : list string)
    (s s' : SkinSkein) (boundaryLoop' : option nat)
    (layers : list LoopLayer) (layer : LoopLayer) :
  boundaryLayers s = layers ++ [layer] ->
  Forall (fun line => firstWordIs "(<boundaryPoint>" line = true)
    (pointLine :: pointLines) ->
  forEach parseBoundaryLine (pointLine :: pointLines) (s, None)
  = Ok (s', boundaryLoop') ->
  exists locations,
    mapM pointOfLine (pointLine :: pointLines) = Ok locations
    /\ boundaryLayers s'
       = layers ++ [mkLoopLayer (layerZ layer)
                      (loops layer ++ [map dropAxis locations])]
    /\ forall endLine,
         firstWordIs "(</boundaryPerimeter>)" endLine = true ->
         parseBoundaryLine endLine (s', boundaryLoop') = Ok (s', None).
Proof.
  intros Hlayers Hall. inversion Hall as [|? ? Hline Hrest]; subst.
  cbn [forEach mapM].
  rewrite (parseBoundaryLine_first_point _ _ _ _ Hlayers Hline).
  destruct (pointOfLine pointLine) as [location|]; cbn [bind]; [|discriminate].
  intros Hrun.
  apply (forEach_parseBoundaryLine_points _ _ _ _ layers (layerZ layer) (loops layer)
           [dropAxis location]) in Hrun; [|reflexivity|exact Hrest].
  destruct Hrun as (locations & Hlocations & Hlayers' & Hloop).
  exists (location :: locations). rewrite Hlocations. cbn [bind map].
  split; [reflexivity|]. split; [exact Hlayers'|].
  intros endLine Hend. apply firstWordIs_split in Hend.
  destruct Hend as (others & Hsplit).
  unfold parseBoundaryLine, getFirstWord. rewrite Hsplit. reflexivity.
Qed.

(** X16.  The prescan and the body count the same layers.  After the
    prescan, at every point of the body the layer index is the number of
    start-of-layer tags met so far minus one, it never passes the top index,
    and the two differ by the number of layer tags still to come: the layer
    index is the top index exactly from the last layer tag on. *)
Theorem layerIndex_reaches_top (s s0 : SkinSkein) :
  layerIndex s = -1 -> parseBoundaries s = Ok s0 ->
  forall before after index sk,
    bodyLines s0 = before ++ after ->
    parseLines index before s0 = Ok sk ->
    layerIndex sk = countLayers before - 1
    /\ layerIndexTop sk = layerIndexTop s0
    /\ layerIndexTop s0 = layerIndex sk + countLayers after
    /\ layerIndex sk <= layerIndexTop s0
    /\ (after = [] -> layerIndex sk = layerIndexTop s0).
Proof.
  intros Hstart Hscan before after index sk Hbody Hrun.
  pose proof (parseBoundaries_effect _ _ Hscan) as (layers & Hs0).
  assert (Hbody0 : bodyLines s0 = bodyLines s) by (rewrite Hs0; reflexivity).
  assert (Htop0 : layerIndexTop s0 = -1 + countLayers (bodyLines s))
    by (rewrite Hs0; reflexivity).
  assert (Hindex0 : layerIndex s0 = -1) by (rewrite Hs0; exact Hstart).
  assert (Hinv : layerIndex sk + countLayers after = layerIndexTop s0
                 /\ layerIndexTop sk = layerIndexTop s0).
  { apply (parseLines_invariant
             (fun t rest => layerIndex t + countLayers rest = layerIndexTop s0
                            /\ layerIndexTop t = layerIndexTop s0)
             ltac:(intros line rest i t t' Hone [Hcount Htop];
                   apply parseLine_effect in Hone;
                   cbn [layersFromBottom layerIndexTop layerIndex infillBoundaries
                        perimeter set_lineIndex] in Hone;
                   destruct Hone as (_ & Htop' & Hindex' & _);
                   rewrite countLayers_cons in Hcount;
                   split; [|congruence];
                   rewrite Hindex'; destruct (firstWordIs "(<layer>" line); lia)
             before after index s0 sk Hrun).
    rewrite <- Hbody, Hbody0, Htop0, Hindex0. split; [lia | reflexivity]. }
  destruct Hinv as [Hcount Htop].
  pose proof (countLayers_nonneg after) as Hafter.
  rewrite Htop0, <- Hbody0, Hbody, countLayers_app in Hcount.
  rewrite Htop0, <- Hbody0, Hbody, countLayers_app.
  repeat split; try lia.
  - rewrite Htop, Htop0, <- Hbody0, Hbody, countLayers_app. reflexivity.
  - intros ->. unfold countLayers in *. cbn in *. lia.
Qed.

(** ** The parameters of the header *)

Lemma configure_fresh (gcodeText : string) (repository_ : SkinRepository)
    (c : SkinSkein) :
  configure gcodeText repository_ = Ok c ->
  distanceFeedRate c = []
  /\ perimeterWidth c = None /\ halfPerimeterWidth c = None
  /\ infillWidth c = None /\ skinInfillWidth c = None
  /\ infillPerimeterOverlap c = None.
Proof.
  unfold configure.
  destruct (pyfloat (SkinRepository.horizontalInfillDivisions repository_));
    cbn [bind]; [|discriminate].
  destruct (pyfloat (SkinRepository.horizontalPerimeterDivisions repository_));
    cbn [bind]; [|discriminate].
  cbn [verticalDivisions set_verticalDivisions].
  destruct (pyfloat (Z.max (SkinRepository.verticalDivisions repository_) 1));
    cbn [bind]; [|discriminate].
  intros [= <-]. repeat split.
Qed.

Lemma isEndOfInitialization_parameter (tag line : string) :
  tag <> "(</extruderInitialization>)" ->
  isEndOfInitialization line = true -> isParameterLine tag line = false.
Proof.
  unfold isEndOfInitialization, isParameterLine. intros Htag Hmarker.
  apply String.eqb_eq in Hmarker. rewrite Hmarker. apply String.eqb_neq.
  intros Hsame. apply Htag. symmetry. exact Hsame.
Qed.

(** One line of the header stores the perimeter width, the infill width
    and the overlap only at their tags. *)
Lemma parseInitializationLine_parameters (line : string) (s s1 : SkinSkein)
    (returned : bool) :
  parseInitializationLine line s = Ok (returned, s1) ->
  (perimeterWidth s1 = perimeterWidth s
   \/ isParameterLine "(<perimeterWidth>" line = true)
  /\ (infillWidth s1 = infillWidth s
      \/ isParameterLine "(<infillWidth>" line = true)
  /\ (infillPerimeterOverlap s1 = infillPerimeterOverlap s
      \/ isParameterLine "(<infillPerimeterOverlap>" line = true).
Proof.
  unfold parseInitializationLine, isParameterLine.
  set (firstWord := getFirstWord (getSplitLineBeforeBracketSemicolon line)).
  clearbody firstWord.
  firstWordCases firstWord; cbn [String.eqb Ascii.eqb Bool.eqb];
    repeat match goal with
           | |- bind ?r _ = Ok _ -> _ =>
               let H := fresh "H" in
               destruct r eqn:H; cbn [bind attr]; [|discriminate]
           end;
    intros [= <- <-]; cbn; auto.
Qed.

Lemma parseInitializationLines_parameters (textLines : list string) (index : nat)
    (s s' : SkinSkein) :
  parseInitializationLines index textLines s = Ok s' ->
  (perimeterWidth s' = perimeterWidth s
   \/ existsb (isParameterLine "(<perimeterWidth>") (headerLines textLines) = true)
  /\ (infillWidth s' = infillWidth s
      \/ existsb (isParameterLine "(<infillWidth>") (headerLines textLines) = true)
  /\ (infillPerimeterOverlap s' = infillPerimeterOverlap s
      \/ existsb (isParameterLine "(<infillPerimeterOverlap>") (headerLines textLines)
         = true).
Proof.
  revert index s. induction textLines as [|line rest IH]; intros index s;
    cbn [parseInitializationLines headerLines].
  - intros [= <-]. auto.
  - destruct (parseInitializationLine line (set_lineIndex index s))
      as [[returned s1]|] eqn:Hone; cbn [bind]; [|discriminate].
    pose proof (parseInitializationLine_effect _ _ _ _ Hone) as (-> & _).
    apply parseInitializationLine_parameters in Hone.
    cbn [perimeterWidth infillWidth infillPerimeterOverlap set_lineIndex] in Hone.
    destruct (isEndOfInitialization line) eqn:Hmarker.
    + intros [= <-].
      pose proof (isEndOfInitialization_parameter "(<perimeterWidth>" line
                    ltac:(discriminate) Hmarker) as N1.
      pose proof (isEndOfInitialization_parameter "(<infillWidth>" line
                    ltac:(discriminate) Hmarker) as N2.
      pose proof (isEndOfInitialization_parameter "(<infillPerimeterOverlap>" line
                    ltac:(discriminate) Hmarker) as N3.
      destruct Hone as ([H1|H1] & [H2|H2] & [H3|H3]); try congruence; auto.
    + intros Hrest. apply IH in Hrest. cbn [existsb].
      destruct Hone as (H1 & H2 & H3). destruct Hrest as (R1 & R2 & R3).
      repeat split;
        match goal with
        | |- _ \/ isParameterLine ?tag line || _ = true =>
            destruct (isParameterLine tag line); [right; reflexivity|]
        end; cbn [orb].
      * destruct H1 as [H1|H1]; [|discriminate].
        destruct R1 as [R1|R1]; [left; congruence | right; exact R1].
      * destruct H2 as [H2|H2]; [|discriminate].
        destruct R2 as [R2|R2]; [left; congruence | right; exact R2].
      * destruct H3 as [H3|H3]; [|discriminate].
        destruct R3 as [R3|R3]; [left; congruence | right; exact R3].
Qed.

(** X17.  [getCraftedGcode] gets past the header only when the header, the
    lines before the end-of-initialization marker, holds a perimeter width
    tag, an infill width tag and an infill perimeter overlap tag: without
    one of them the transform raises before it reaches the body. *)
Theorem initialize_requires_parameters (gcodeText : string)
    (repository_ : SkinRepository) (s1 : SkinSkein) :
  initialize gcodeText repository_ = Ok s1 ->
  existsb (isParameterLine "(<perimeterWidth>") (headerLines (getTextLines gcodeText))
  = true
  /\ existsb (isParameterLine "(<infillWidth>") (headerLines (getTextLines gcodeText))
     = true
  /\ existsb (isParameterLine "(<infillPerimeterOverlap>")
       (headerLines (getTextLines gcodeText)) = true.
Proof.
  unfold initialize.
  destruct (configure gcodeText repository_) as [c|] eqn:Hc; cbn [bind]; [|discriminate].
  pose proof (configure_effect _ _ _ Hc) as (_ & _ & Hlines & _).
  apply configure_fresh in Hc. destruct Hc as (_ & Hwidth & _ & Hinfill & _ & Hoverlap).
  destruct (parseInitialization c) as [h|] eqn:Hh; cbn [bind]; [|discriminate].
  unfold parseInitialization in Hh. apply parseInitializationLines_parameters in Hh.
  rewrite Hlines, Hwidth, Hinfill, Hoverlap in Hh. destruct Hh as (H1 & H2 & H3).
  repeat match goal with
         | |- bind (attr _ ?field) _ = Ok _ -> _ =>
             let E := fresh "E" in
             destruct field eqn:E; cbn [attr bind]; [|discriminate]
         end.
  intros _.
  cbn [perimeterWidth infillWidth infillPerimeterOverlap skinInfillWidth set_clipLength]
    in *.
  destruct H1 as [H1|H1]; [congruence|]. destruct H2 as [H2|H2]; [congruence|].
  destruct H3 as [H3|H3]; [congruence|]. auto.
Qed.

Lemma pydiv_Ok_nonzero (a b c : float) :
  pydiv a b = Ok c -> c = (a / b)%float /\ PrimFloat.eqb b 0 = false.
Proof.
  unfold pydiv. destruct (PrimFloat.eqb b 0); [discriminate | intros [= <-]; auto].
Qed.

Lemma parseInitializationLine_derived (line : string) (s s1 : SkinSkein)
    (returned : bool) :
  parseInitializationLine line s = Ok (returned, s1) ->
  parametersDerived s -> parametersDerived s1.
Proof.
  unfold parseInitializationLine, parametersDerived.
  set (firstWord := getFirstWord (getSplitLineBeforeBracketSemicolon line)).
  clearbody firstWord.
  firstWordCases firstWord; cbn [String.eqb Ascii.eqb Bool.eqb];
    repeat match goal with
           | |- bind ?r _ = Ok _ -> _ =>
               let H := fresh "H" in
               destruct r eqn:H; cbn [bind attr]; [|discriminate]
           end;
    intros [= <- <-]; cbn; intros (Hhalf & Hskin & Hzero);
    try match goal with
        | H : pydiv _ _ = Ok _ |- _ =>
            apply pydiv_Ok_nonzero in H; cbn in H; destruct H as [-> ?]
        end;
    repeat split; auto.
Qed.

Lemma parseInitializationLines_derived (textLines : list string) (index : nat)
    (s s' : SkinSkein) :
  parseInitializationLines index textLines s = Ok s' ->
  parametersDerived s -> parametersDerived s'.
Proof.
  revert index s. induction textLines as [|line rest IH]; intros index s;
    cbn [parseInitializationLines].
  - intros [= <-]. auto.
  - destruct (parseInitializationLine line (set_lineIndex index s))
      as [[returned s1]|] eqn:Hone; cbn [bind]; [|discriminate].
    intros Hrest Hinv. apply parseInitializationLine_derived in Hone; [|exact Hinv].
    destruct returned; [injection Hrest as <-; exact Hone | eapply IH; eassumption].
Qed.

(** No line of the body changes the parameters of the header. *)
Lemma parseLine_parameters (line : string) (s s' : SkinSkein) :
  parseLine line s = Ok s' -> parametersOf s' = parametersOf s.
Proof.
  unfold parseLine.
  destruct (getSplitLineBeforeBracketSemicolon line) as [|firstWord others] eqn:Hsplit.
  { intros [= <-]. reflexivity. }
  firstWordCases firstWord; cbn [String.eqb Ascii.eqb Bool.eqb orb andb];
    repeat match goal with
           | |- bind ?r _ = Ok _ -> _ =>
               let H := fresh "H" in
               destruct r eqn:H; cbn [bind attr]; [|discriminate]
           | |- match ?r with _ => _ end = Ok _ -> _ =>
               destruct r eqn:?; cbn [bind attr]
           | |- (if ?c then _ else _) = Ok _ -> _ =>
               destruct c eqn:?; cbn [bind attr]
           end;
    try discriminate;
    intros [= <-];
    try match goal with
        | H : addSkinnedInfill _ = Ok _ |- _ =>
            apply addSkinnedInfill_frame in H;
            destruct H as (calls & location & alias_ & ->)
        | H : addSkinnedPerimeter _ = Ok _ |- _ =>
            apply addSkinnedPerimeter_frame in H;
            destruct H as (calls & ->)
        end;
    reflexivity.
Qed.

Lemma parseLines_parameters (textLines : list string) (index : nat)
    (s s' : SkinSkein) :
  parseLines index textLines s = Ok s' -> parametersOf s' = parametersOf s.
Proof.
  intros Hrun.
  apply (parseLines_invariant (fun t _ => parametersOf t = parametersOf s)
           ltac:(intros line rest i t t' Hone Ht;
                 apply parseLine_parameters in Hone; exact (eq_trans Hone Ht))
           textLines [] index s s' Hrun).
  reflexivity.
Qed.

(** X18.  From the end of the header to the last line of the body, the
    parameters are the ones the header gave, and they are there for the
    generators: the perimeter width with its half, the infill width with the
    skin infill width, which is the infill width divided by a horizontal
    infill division count that is not zero, the overlap, the clip length and
    the skin infill inset.  So a horizontal infill division count of zero
    fails in the header, at the infill width tag. *)
Theorem craft_parameters (gcodeText : string) (repository_ : SkinRepository)
    (s1 s0 : SkinSkein) (textLines : list string) (index : nat) (sk : SkinSkein) :
  initialize gcodeText repository_ = Ok s1 ->
  parseBoundaries s1 = Ok s0 ->
  parseLines index textLines s0 = Ok sk ->
  parametersOf sk = parametersOf s1
  /\ exists perimeterWidth_ infillWidth_ overlap,
       perimeterWidth sk = Some perimeterWidth_
       /\ halfPerimeterWidth sk = Some (0.5 * perimeterWidth_)%float
       /\ infillWidth sk = Some infillWidth_
       /\ skinInfillWidth sk
          = Some (infillWidth_ / horizontalInfillDivisionsFloat sk)%float
       /\ infillPerimeterOverlap sk = Some overlap
       /\ PrimFloat.eqb (horizontalInfillDivisionsFloat sk) 0 = false
       /\ clipLength sk = (0.5 * clipOverPerimeterWidth sk * perimeterWidth_)%float
       /\ skinInfillInset sk
          = (0.5 * (infillWidth_ + infillWidth_ / horizontalInfillDivisionsFloat sk)
             * (1.0 - overlap))%float.
Proof.
  intros Hinit Hscan Hrun.
  assert (Hkeep : parametersOf sk = parametersOf s1
                  /\ horizontalInfillDivisionsFloat sk
                     = horizontalInfillDivisionsFloat s1).
  { apply parseBoundaries_effect in Hscan. destruct Hscan as (layers & ->).
    pose proof (parseLines_parameters _ _ _ _ Hrun) as Hp.
    pose proof (parseLines_config _ _ _ _ Hrun) as Hc.
    split; [exact Hp|]. unfold configOf in Hc. cbn in Hc. congruence. }
  destruct Hkeep as [Hp Hdivisions]. split; [exact Hp|].
  assert (Hs1 : exists perimeterWidth_ infillWidth_ overlap,
             perimeterWidth s1 = Some perimeterWidth_
             /\ halfPerimeterWidth s1 = Some (0.5 * perimeterWidth_)%float
             /\ infillWidth s1 = Some infillWidth_
             /\ skinInfillWidth s1
                = Some (infillWidth_ / horizontalInfillDivisionsFloat s1)%float
             /\ infillPerimeterOverlap s1 = Some overlap
             /\ PrimFloat.eqb (horizontalInfillDivisionsFloat s1) 0 = false
             /\ clipLength s1
                = (0.5 * clipOverPerimeterWidth s1 * perimeterWidth_)%float
             /\ skinInfillInset s1
                = (0.5 * (infillWidth_
                          + infillWidth_ / horizontalInfillDivisionsFloat s1)
                   * (1.0 - overlap))%float).
  { revert Hinit. unfold initialize.
    destruct (configure gcodeText repository_) as [c|] eqn:Hc; cbn [bind];
      [|discriminate].
    apply configure_fresh in Hc.
    destruct Hc as (_ & Hwidth & Hhalf & Hinfill & Hskin & _).
    assert (Hinv : parametersDerived c).
    { unfold parametersDerived. rewrite Hwidth, Hhalf, Hinfill, Hskin.
      repeat split. intros Hsome. contradiction. }
    destruct (parseInitialization c) as [h|] eqn:Hh; cbn [bind]; [|discriminate].
    apply parseInitializationLines_derived in Hh; [|exact Hinv].
    destruct Hh as (Dhalf & Dskin & Dzero).
    destruct (perimeterWidth h) as [perimeterWidth_|] eqn:E1; cbn [attr bind];
      [|discriminate].
    cbn [infillWidth skinInfillWidth infillPerimeterOverlap set_clipLength].
    destruct (infillWidth h) as [infillWidth_|] eqn:E2; cbn [attr bind];
      [|discriminate].
    destruct (skinInfillWidth h) as [skinInfillWidth_|] eqn:E3; cbn [attr bind];
      [|discriminate].
    destruct (infillPerimeterOverlap h) as [overlap|] eqn:E4; cbn [attr bind];
      [|discriminate].
    intros [= <-]. cbn in Dhalf, Dskin. injection Dskin as ->.
    exists perimeterWidth_, infillWidth_, overlap. cbn.
    rewrite E1, E2, E3, E4, Dhalf. repeat split. apply Dzero. discriminate. }
  destruct Hs1 as (perimeterWidth_ & infillWidth_ & overlap & Hs1).
  exists perimeterWidth_, infillWidth_, overlap.
  unfold parametersOf in Hp. rewrite Hdivisions.
  injection Hp as P1 P2 P3 P4 P5 P6 P7 P8 P9 P10 P11.
  rewrite P1, P2, P3, P4, P6, P7, P8, P9. exact Hs1.
Qed.

(** ** What the transform writes *)

Lemma forEach_writes_all {A : Type} (P : DistanceFeedRateCall -> Prop)
    (body : A -> SkinSkein -> result SkinSkein) :
  (forall a s s', body a s = Ok s' ->
     exists calls,
       s' = set_distanceFeedRate (distanceFeedRate s ++ calls) s /\ Forall P calls) ->
  forall xs s s', forEach body xs s = Ok s' ->
    exists calls,
      s' = set_distanceFeedRate (distanceFeedRate s ++ calls) s /\ Forall P calls.
Proof.
  intros Hbody xs. induction xs as [|a xs IH]; intros s s'; cbn [forEach].
  - intros [= <-]. exists []. rewrite app_nil_r, set_distanceFeedRate_same. auto.
  - destruct (body a s) as [s1|] eqn:Hone; cbn [bind]; [|discriminate].
    intros Hrest. destruct (Hbody _ _ _ Hone) as (c1 & -> & H1).
    destruct (IH _ _ Hrest) as (c2 & -> & H2).
    exists (c1 ++ c2). cbn. rewrite app_assoc.
    split; [reflexivity | apply Forall_app; auto].
Qed.

(** The perimeter generator writes lines and threads only. *)
Lemma addSkinnedPerimeter_calls (s s' : SkinSkein) :
  addSkinnedPerimeter s = Ok s' ->
  exists calls,
    distanceFeedRate s' = distanceFeedRate s ++ calls
    /\ Forall (fun call => isLineOrMotion call = true) calls.
Proof.
  unfold addSkinnedPerimeter.
  destruct (perimeter s) as [perimeter_|] eqn:Hp.
  - destruct (getBottomZ s) as [[[known layerThickness_] bottomZ]|]; cbn [bind];
      [|discriminate].
    destruct (getInsetPerimeters perimeter_ s) as [perimeters|]; cbn [bind];
      [|discriminate].
    destruct (oldFlowRate s) as [oldFlowRate_|] eqn:Hrate; cbn [attr bind];
      [|discriminate].
    destruct (pydiv oldFlowRate_ _) as [perVertical|]; cbn [bind]; [|discriminate].
    match goal with
    | |- bind ?loop _ = _ -> _ => destruct loop as [s1|] eqn:Hloop
    end; cbn [bind]; [|discriminate].
    assert (Hs1 : exists calls,
               s1 = set_distanceFeedRate (distanceFeedRate s ++ calls) s
               /\ Forall (fun call => isLineOrMotion call = true) calls).
    { destruct (getIsMinimumSides perimeters 3).
      - destruct (pydiv perVertical _) as [flowRate|]; cbn [bind] in Hloop;
          [|discriminate].
        apply (forEach_writes_all (fun call => isLineOrMotion call = true)) in Hloop.
        + destruct Hloop as (calls & -> & Hall). unfold addFlowRateLine, emit.
          cbn [distanceFeedRate set_distanceFeedRate].
          rewrite <- app_assoc. eexists. split; [reflexivity|].
          constructor; [reflexivity | exact Hall].
        + intros index s2 s3.
          destruct (divisionZ bottomZ layerThickness_ index s2) as [z|]; cbn [bind];
            [|discriminate].
          rewrite forEach_addPerimeterLoop. intros [= <-].
          eexists. split; [reflexivity|]. unfold loopsAt.
          apply Forall_map. apply Forall_forall. intros thread _. reflexivity.
      - apply (forEach_writes_all (fun call => isLineOrMotion call = true)) in Hloop.
        + destruct Hloop as (calls & -> & Hall). unfold addFlowRateLine, emit.
          cbn [distanceFeedRate set_distanceFeedRate].
          rewrite <- app_assoc. eexists. split; [reflexivity|].
          constructor; [reflexivity | exact Hall].
        + intros index s2 s3.
          destruct (divisionZ bottomZ layerThickness_ index s2) as [z|]; cbn [bind];
            [|discriminate].
          intros [= <-]. unfold addPerimeterLoop, emit.
          eexists. split; [reflexivity|]. repeat constructor. }
    destruct Hs1 as (calls & -> & Hall). cbn [oldFlowRate set_distanceFeedRate].
    rewrite Hrate. cbn [attr bind]. intros [= <-].
    exists (calls ++ [addLine (flowRateLine oldFlowRate_)]).
    unfold addFlowRateLine, emit. cbn. rewrite <- app_assoc.
    split; [reflexivity|]. apply Forall_app. split; [exact Hall | repeat constructor].
  - intros [= <-]. exists []. rewrite app_nil_r. auto.
Qed.

(** The infill generator writes lines and motions only. *)
Lemma addSkinnedInfill_calls (s s' : SkinSkein) :
  addSkinnedInfill s = Ok s' ->
  exists calls,
    distanceFeedRate s' = distanceFeedRate s ++ calls
    /\ Forall (fun call => isLineOrMotion call = true) calls.
Proof.
  destruct (infillBoundaries s) as [infillBoundaries_|] eqn:Hset.
  - intros Hrun.
    destruct (addSkinnedInfill_located s s' _ Hset Hrun) as (known & Hknown).
    destruct (addSkinnedInfill_written s s' infillBoundaries_ (Vector3.z known) Hset
                (ex_intro _ known (conj Hknown eq_refl)) Hrun)
      as (oldFlowRate_ & block & location & _ & -> & Hmotion & _).
    eexists. split; [reflexivity|]. constructor; [reflexivity|].
    apply Forall_app. split; [|repeat constructor].
    revert Hmotion. apply Forall_impl. intros call. destruct call; cbn; congruence.
  - unfold addSkinnedInfill. rewrite Hset. intros [= <-].
    exists []. rewrite app_nil_r. auto.
Qed.

(** One line of the body writes lines and motions only. *)
Lemma parseLine_calls (line : string) (s s' : SkinSkein) :
  parseLine line s = Ok s' ->
  exists calls,
    distanceFeedRate s' = distanceFeedRate s ++ calls
    /\ Forall (fun call => isLineOrMotion call = true) calls.
Proof.
  unfold parseLine.
  destruct (getSplitLineBeforeBracketSemicolon line) as [|firstWord others] eqn:Hsplit.
  { intros [= <-]. exists []. rewrite app_nil_r. auto. }
  firstWordCases firstWord; cbn [String.eqb Ascii.eqb Bool.eqb orb andb];
    repeat match goal with
           | |- bind ?r _ = Ok _ -> _ =>
               let H := fresh "H" in
               destruct r eqn:H; cbn [bind attr]; [|discriminate]
           | |- match ?r with _ => _ end = Ok _ -> _ =>
               destruct r eqn:?; cbn [bind attr]
           | |- (if ?c then _ else _) = Ok _ -> _ =>
               destruct c eqn:?; cbn [bind attr]
           end;
    try discriminate;
    intros [= <-];
    try match goal with
        | H : addSkinnedInfill _ = Ok _ |- _ =>
            apply addSkinnedInfill_calls in H;
            destruct H as (calls & Hcalls & Hall)
        | H : addSkinnedPerimeter _ = Ok _ |- _ =>
            apply addSkinnedPerimeter_calls in H;
            destruct H as (calls & Hcalls & Hall)
        end;
    unfold emit; cbn;
    try match goal with
        | Hcalls : distanceFeedRate ?t = distanceFeedRate _ ++ _
          |- context [distanceFeedRate ?t] => rewrite Hcalls, <- app_assoc
        end;
    first [ exists []; split; [rewrite app_nil_r; reflexivity | constructor]
          | eexists; split;
            [ reflexivity
            | first [ apply Forall_app; split; [assumption | repeat constructor]
                    | repeat constructor ] ] ].
Qed.

Lemma parseLines_calls (textLines : list string) (index : nat) (s s' : SkinSkein) :
  parseLines index textLines s = Ok s' ->
  exists calls,
    distanceFeedRate s' = distanceFeedRate s ++ calls
    /\ Forall (fun call => isLineOrMotion call = true) calls.
Proof.
  revert index s. induction textLines as [|line rest IH]; intros index s;
    cbn [parseLines].
  - intros [= <-]. exists []. rewrite app_nil_r. auto.
  - destruct (parseLine line (set_lineIndex index s)) as [s1|] eqn:Hone; cbn [bind];
      [|discriminate].
    intros Hrest. apply parseLine_calls in Hone. destruct Hone as (c1 & H1 & A1).
    apply IH in Hrest. destruct Hrest as (c2 & H2 & A2).
    exists (c1 ++ c2). split; [|apply Forall_app; auto].
    rewrite H2, H1, app_assoc. reflexivity.
Qed.

Lemma filter_isProcedureTag_calls (calls : list DistanceFeedRateCall) :
  Forall (fun call => isLineOrMotion call = true) calls ->
  filter isProcedureTag calls = [].
Proof.
  induction 1 as [|call calls Hcall _ IH]; [reflexivity|].
  cbn [filter]. destruct call; try discriminate; exact IH.
Qed.

Lemma filter_isProcedureTag_headerCalls (textLines : list string) :
  filter isProcedureTag (headerCalls textLines) = [].
Proof.
  induction textLines as [|line rest IH]; [reflexivity|].
  unfold headerCalls, shown in *. cbn [flat_map app filter isProcedureTag]. exact IH.
Qed.

Lemma isEndOfInitialization_plain (line : string) :
  isEndOfInitialization line = true -> isPlainLine line = true.
Proof.
  unfold isEndOfInitialization, isPlainLine, getFirstWord.
  destruct (getSplitLineBeforeBracketSemicolon line) as [|firstWord others];
    [cbn; discriminate|].
  intros Hmarker. apply String.eqb_eq in Hmarker. subst firstWord. reflexivity.
Qed.

Lemma skipn_last {A : Type} (l : list A) (d : A) :
  l <> [] -> skipn (List.length l - 1) l = [last l d].
Proof.
  induction l as [|a l IH]; [contradiction|]. intros _.
  destruct l as [|b l]; [reflexivity|].
  replace (List.length (a :: b :: l) - 1)%nat with (S (List.length (b :: l) - 1))
    by (cbn [List.length]; lia).
  cbn [skipn]. rewrite IH by discriminate. reflexivity.
Qed.

(** What [getCraftedGcode] has done before the prescan on a text with an
    end-of-initialization marker, and on a text without one. *)
Lemma initialize_marker (gcodeText : string) (repository_ : SkinRepository)
    (s1 : SkinSkein) (before : list string) (marker : string) (after : list string) :
  getTextLines gcodeText = before ++ marker :: after ->
  Forall (fun line => isEndOfInitialization line = false) before ->
  isEndOfInitialization marker = true ->
  initialize gcodeText repository_ = Ok s1 ->
  lineIndex s1 = List.length before
  /\ lines s1 = before ++ marker :: after
  /\ distanceFeedRate s1
     = headerCalls before ++ [shown marker; addTagBracketedProcedure "skin"].
Proof.
  intros Hlines Hbefore Hmarker. unfold initialize.
  destruct (configure gcodeText repository_) as [c|] eqn:Hc; cbn [bind]; [|discriminate].
  pose proof (configure_effect _ _ _ Hc) as (_ & _ & Hl & _).
  apply configure_fresh in Hc. destruct Hc as (Hd & _).
  destruct (parseInitialization c) as [h|] eqn:Hh; cbn [bind]; [|discriminate].
  unfold parseInitialization in Hh.
  pose proof (parseInitializationLines_config _ _ _ _ Hh) as (_ & _ & Hlh & _).
  rewrite Hl, Hlines in Hh.
  apply parseInitializationLines_marker in Hh; [|assumption|assumption].
  destruct Hh as (Hi & Hcalls & _).
  repeat match goal with
         | |- bind (attr _ ?field) _ = Ok _ -> _ =>
             destruct field; cbn [attr bind]; [|discriminate]
         end.
  intros [= <-].
  cbn [lineIndex lines distanceFeedRate set_skinInfillInset set_clipLength].
  rewrite Hi, Hlh, Hl, Hlines, Hcalls, Hd. auto.
Qed.

Lemma initialize_unmarked (gcodeText : string) (repository_ : SkinRepository)
    (s1 : SkinSkein) :
  Forall (fun line => isEndOfInitialization line = false) (getTextLines gcodeText) ->
  initialize gcodeText repository_ = Ok s1 ->
  getTextLines gcodeText <> []
  /\ lineIndex s1 = (List.length (getTextLines gcodeText) - 1)%nat
  /\ lines s1 = getTextLines gcodeText
  /\ distanceFeedRate s1 = headerCalls (getTextLines gcodeText).
Proof.
  intros Hall. unfold initialize.
  destruct (configure gcodeText repository_) as [c|] eqn:Hc; cbn [bind]; [|discriminate].
  pose proof (configure_effect _ _ _ Hc) as (_ & _ & Hl & _).
  apply configure_fresh in Hc. destruct Hc as (Hd & Hwidth & _).
  destruct (parseInitialization c) as [h|] eqn:Hh; cbn [bind]; [|discriminate].
  unfold parseInitialization in Hh.
  pose proof (parseInitializationLines_config _ _ _ _ Hh) as (_ & _ & Hlh & _).
  rewrite Hl in Hh.
  apply parseInitializationLines_unmarked in Hh; [|exact Hall].
  destruct Hh as (Hcalls & Hi & Hsame & _).
  destruct (perimeterWidth h) as [perimeterWidth_|] eqn:E; cbn [attr bind];
    [|discriminate].
  assert (Hne : getTextLines gcodeText <> []).
  { intros Hempty. rewrite (Hsame Hempty) in E. congruence. }
  repeat match goal with
         | |- bind (attr _ ?field) _ = Ok _ -> _ =>
             destruct field; cbn [attr bind]; [|discriminate]
         end.
  intros [= <-].
  cbn [lineIndex lines distanceFeedRate set_skinInfillInset set_clipLength].
  rewrite (Hi Hne), Hlh, Hl, Hcalls, Hd. auto.
Qed.

(** X19.  On a text with an end-of-initialization marker, the transform
    writes the lines of the header as they are and in order, then the
    stage-completion tag, then the marker line, and after it lines and
    motions only: the tag is written exactly once, just before the marker
    line. *)
Theorem craft_marker_output (gcodeText : string) (repository_ : SkinRepository)
    (s : SkinSkein) (before : list string) (marker : string) (after : list string) :
  getTextLines gcodeText = before ++ marker :: after ->
  Forall (fun line => isEndOfInitialization line = false) before ->
  isEndOfInitialization marker = true ->
  craft gcodeText repository_ = Ok s ->
  exists calls,
    distanceFeedRate s
    = headerCalls before
      ++ [shown marker; addTagBracketedProcedure "skin"; addLine marker] ++ calls
    /\ Forall (fun call => isLineOrMotion call = true) calls
    /\ filter isProcedureTag (distanceFeedRate s) = [addTagBracketedProcedure "skin"]
    /\ forwardedLines (distanceFeedRate s) = before ++ marker :: forwardedLines calls.
Proof.
  intros Hlines Hbefore Hmarker. unfold craft.
  destruct (initialize gcodeText repository_) as [s1|] eqn:Hinit; cbn [bind];
    [|discriminate].
  apply (initialize_marker _ _ _ before marker after Hlines Hbefore Hmarker) in Hinit.
  destruct Hinit as (Hi & Hl & Hd).
  destruct (parseBoundaries s1) as [s0|] eqn:Hscan; cbn [bind]; [|discriminate].
  apply parseBoundaries_effect in Hscan. destruct Hscan as (layers & ->).
  unfold bodyLines.
  cbn [lineIndex lines set_layersFromBottom set_layerIndexTop set_boundaryLayers].
  rewrite Hi, Hl, skipn_app, skipn_all, Nat.sub_diag. cbn [app skipn parseLines].
  rewrite (parseLine_plain marker _ (isEndOfInitialization_plain _ Hmarker)).
  cbn [bind]. intros Hrun. apply parseLines_calls in Hrun.
  destruct Hrun as (calls & Hcalls & Hall).
  unfold emit in Hcalls. cbn in Hcalls. rewrite Hd, <- !app_assoc in Hcalls.
  exists calls. split; [exact Hcalls|]. split; [exact Hall|].
  rewrite Hcalls. split.
  - rewrite !filter_app, filter_isProcedureTag_headerCalls,
      (filter_isProcedureTag_calls _ Hall). reflexivity.
  - rewrite !forwardedLines_app, forwardedLines_headerCalls. reflexivity.
Qed.

(** X20.  On a text without an end-of-initialization marker, the whole text
    is read as header: every line is forwarded, the stage-completion tag is
    never written, and the scan stops at the last line, which the body then
    handles once more, as its only line. *)
Theorem craft_unmarked_output (gcodeText : string) (repository_ : SkinRepository)
    (s : SkinSkein) :
  Forall (fun line => isEndOfInitialization line = false) (getTextLines gcodeText) ->
  craft gcodeText repository_ = Ok s ->
  exists s1 s0 calls,
    initialize gcodeText repository_ = Ok s1
    /\ parseBoundaries s1 = Ok s0
    /\ distanceFeedRate s0 = headerCalls (getTextLines gcodeText)
    /\ bodyLines s0 = [last (getTextLines gcodeText) ""]
    /\ parseLine (last (getTextLines gcodeText) "") (set_lineIndex (lineIndex s0) s0)
       = Ok s
    /\ distanceFeedRate s = headerCalls (getTextLines gcodeText) ++ calls
    /\ Forall (fun call => isLineOrMotion call = true) calls
    /\ filter isProcedureTag (distanceFeedRate s) = [].
Proof.
  intros Hall. unfold craft.
  destruct (initialize gcodeText repository_) as [s1|] eqn:Hinit; cbn [bind];
    [|discriminate].
  pose proof (initialize_unmarked _ _ _ Hall Hinit) as (Hne & Hi & Hl & Hd).
  destruct (parseBoundaries s1) as [s0|] eqn:Hscan; cbn [bind]; [|discriminate].
  pose proof (parseBoundaries_effect _ _ Hscan) as (layers & Hs0).
  assert (Hi0 : lineIndex s0 = lineIndex s1) by (rewrite Hs0; reflexivity).
  assert (Hl0 : lines s0 = lines s1) by (rewrite Hs0; reflexivity).
  assert (Hd0 : distanceFeedRate s0 = headerCalls (getTextLines gcodeText))
    by (rewrite Hs0; exact Hd).
  assert (Hbody : bodyLines s0 = [last (getTextLines gcodeText) ""%string]).
  { unfold bodyLines. rewrite Hi0, Hl0, Hi, Hl. apply skipn_last. exact Hne. }
  rewrite Hbody. cbn [parseLines].
  destruct (parseLine _ (set_lineIndex (lineIndex s0) s0)) as [s'|] eqn:Hone;
    cbn [bind]; [|discriminate].
  intros [= <-].
  pose proof (parseLine_calls _ _ _ Hone) as (calls & Hcalls & Hcall).
  cbn [distanceFeedRate set_lineIndex] in Hcalls. rewrite Hd0 in Hcalls.
  exists s1, s0, calls.
  split; [first [reflexivity | exact Hinit]|].
  split; [first [reflexivity | exact Hscan]|]. split; [exact Hd0|].
  split; [exact Hbody|]. split; [exact Hone|]. split; [exact Hcalls|].
  split; [exact Hcall|].
  rewrite Hcalls, filter_app, filter_isProcedureTag_headerCalls,
    (filter_isProcedureTag_calls _ Hcall). reflexivity.
Qed.

(** X21.  With the settings as [getNewRepository] gives them, the skin is
    off: [getCraftedTextFromText] returns every text unchanged, and
    [getCraftedText] returns the text that [archive.getTextIfEmpty] gives
    it, as it does for any settings in which the skin is not activated. *)
Theorem getCraftedText_new_repository
    (getTextIfEmpty : string -> string -> string) (fileName gcodeText : string) :
  getCraftedTextFromText gcodeText (Some getNewRepository) = Ok gcodeText
  /\ getCraftedText getTextIfEmpty fileName gcodeText (Some getNewRepository)
     = Ok (getTextIfEmpty fileName gcodeText)
  /\ (forall repository_,
         SkinRepository.activateSkin (repositoryOrRead repository_) = false ->
         getCraftedText getTextIfEmpty fileName gcodeText repository_
         = Ok (getTextIfEmpty fileName gcodeText)).
Proof.
  assert (Hoff : forall input repository_,
             SkinRepository.activateSkin (repositoryOrRead repository_) = false ->
             getCraftedTextFromText input repository_ = Ok input).
  { intros input repository_ Hfalse. unfold getCraftedTextFromText.
    destruct (isProcedureDoneOrFileIsEmpty input "skin"); [reflexivity|].
    rewrite Hfalse. reflexivity. }
  split; [apply Hoff; reflexivity|]. split; [apply Hoff; reflexivity|].
  intros repository_ Hfalse. apply Hoff. exact Hfalse.
Qed.

(** ** The hops of the infill *)

Lemma addInfillPath_no_hop (upperZ z : float) (infillPath : list complex)
    (s s' : SkinSkein) :
  SkinRepository.hopWhenExtrudingInfill (repository s) = false ->
  addInfillPath upperZ z infillPath s = Ok s' ->
  exists calls,
    infillWritten upperZ s s' calls
    /\ Forall (fun call => isHop call = false) calls
    /\ List.length calls = 1%nat.
Proof.
  intros Hhop Hrun.
  destruct (addInfillPath_written _ _ _ _ _ Hrun) as (calls & Hw & (thread & Hloops) & Hone).
  exists calls. split; [exact Hw|].
  rewrite Hhop, andb_false_r in Hone. specialize (Hone eq_refl).
  destruct calls as [|call [|]]; try discriminate. split; [|reflexivity].
  constructor; [|constructor]. destruct call; try reflexivity. discriminate.
Qed.

Lemma forEach_addInfillPath_no_hop (upperZ z : float)
    (infillPaths : list (list complex)) (s s' : SkinSkein) :
  SkinRepository.hopWhenExtrudingInfill (repository s) = false ->
  forEach (addInfillPath upperZ z) infillPaths s = Ok s' ->
  exists calls,
    infillWritten upperZ s s' calls
    /\ Forall (fun call => isHop call = false) calls
    /\ List.length calls = List.length infillPaths.
Proof.
  revert s. induction infillPaths as [|infillPath rest IH]; intros s Hhop; cbn [forEach].
  - intros [= <-]. exists []. split; [apply infillWritten_refl|].
    split; [constructor | reflexivity].
  - destruct (addInfillPath upperZ z infillPath s) as [s1|] eqn:Hone; cbn [bind];
      [|discriminate].
    intros Hrest.
    destruct (addInfillPath_no_hop _ _ _ _ _ Hhop Hone) as (c1 & Hw1 & Hh1 & Hl1).
    assert (Hhop1 : SkinRepository.hopWhenExtrudingInfill (repository s1) = false).
    { destruct Hw1 as (location & -> & _). exact Hhop. }
    destruct (IH _ Hhop1 Hrest) as (c2 & Hw2 & Hh2 & Hl2).
    exists (c1 ++ c2). split; [eapply infillWritten_trans; eassumption|].
    split; [apply Forall_app; auto|].
    rewrite length_app, Hl1, Hl2. reflexivity.
Qed.

Lemma forEach_infillPass_no_hop (bottomZ layerThickness_ offsetY top : float)
    (indices : list Z) (s s' : SkinSkein) :
  SkinRepository.hopWhenExtrudingInfill (repository s) = false ->
  topIs top (oldLocation s) ->
  forEach (infillPass bottomZ layerThickness_ offsetY) indices s = Ok s' ->
  exists calls,
    infillWritten top s s' calls /\ Forall (fun call => isHop call = false) calls.
Proof.
  revert s. induction indices as [|index indices IH]; intros s Hhop Htop; cbn [forEach].
  - intros [= <-]. exists []. split; [apply infillWritten_refl | constructor].
  - destruct (infillPass bottomZ layerThickness_ offsetY index s) as [s1|] eqn:Hpass;
      cbn [bind]; [|discriminate].
    intros Hrest. unfold infillPass in Hpass.
    destruct (divisionZ bottomZ layerThickness_ index s) as [z|]; cbn [bind] in Hpass;
      [|discriminate].
    destruct (infillBoundaries s) as [boundaries|]; cbn [attr bind] in Hpass;
      [|discriminate].
    destruct Htop as (known & Hknown & Hz). rewrite Hknown in Hpass.
    cbn [attr bind] in Hpass. rewrite Hz in Hpass.
    unfold addSkinnedInfillBoundary in Hpass.
    destruct (getInfillPaths boundaries _ s) as [infillPaths|]; cbn [bind] in Hpass;
      [|discriminate].
    destruct (forEach_addInfillPath_no_hop _ _ _ _ _ Hhop Hpass) as (c1 & Hw1 & Hh1 & _).
    assert (Htop1 : topIs top (oldLocation s1)).
    { eapply infillWritten_topIs; [|exact Hw1]. exists known. auto. }
    assert (Hhop1 : SkinRepository.hopWhenExtrudingInfill (repository s1) = false).
    { destruct Hw1 as (location & -> & _). exact Hhop. }
    destruct (IH s1 Hhop1 Htop1 Hrest) as (c2 & Hw2 & Hh2).
    exists (c1 ++ c2). split; [eapply infillWritten_trans; eassumption|].
    apply Forall_app. auto.
Qed.

(** X22.  The hops of the infill generator.  With the hop setting off, the
    generator writes no vertical move at all.  With the setting on, a path
    of a pass below the upper height is written as three calls: a vertical
    move at the upper height above the first point of the path rotated by
    the tracked rotation, that rotated path at the height of the pass, and
    a vertical move at the upper height above its last point.  A path of a
    pass that is not below the upper height, or with the setting off, is
    written as the rotated path alone. *)
Theorem addSkinnedInfill_hops :
  (forall s s',
      SkinRepository.hopWhenExtrudingInfill (repository s) = false ->
      addSkinnedInfill s = Ok s' ->
      exists calls,
        distanceFeedRate s' = distanceFeedRate s ++ calls
        /\ Forall (fun call => isHop call = false) calls)
  /\ (forall upperZ z infillPath s s',
         SkinRepository.hopWhenExtrudingInfill (repository s) = true ->
         PrimFloat.ltb z upperZ = true ->
         addInfillPath upperZ z infillPath s = Ok s' ->
         exists rotation_ first last_,
           rotation s = Some rotation_
           /\ firstItem (getRotatedComplexes rotation_ infillPath) = Ok first
           /\ lastItem (getRotatedComplexes rotation_ infillPath) = Ok last_
           /\ distanceFeedRate s'
              = distanceFeedRate s
                ++ [addGcodeMovementZWithFeedRate (maximumZFeedRateMinute s) first upperZ;
                    addGcodeFromFeedRateThreadZ (feedRateMinute s)
                      (getRotatedComplexes rotation_ infillPath)
                      (travelFeedRateMinute s) z;
                    addGcodeMovementZWithFeedRate (maximumZFeedRateMinute s) last_
                      upperZ])
  /\ (forall upperZ z infillPath s s',
         PrimFloat.ltb z upperZ
         && SkinRepository.hopWhenExtrudingInfill (repository s) = false ->
         addInfillPath upperZ z infillPath s = Ok s' ->
         exists rotation_,
           rotation s = Some rotation_
           /\ distanceFeedRate s'
              = distanceFeedRate s
                ++ [addGcodeFromFeedRateThreadZ (feedRateMinute s)
                      (getRotatedComplexes rotation_ infillPath)
                      (travelFeedRateMinute s) z]).
Proof.
  split; [|split].
  - intros s s' Hhop Hrun.
    destruct (infillBoundaries s) as [infillBoundaries_|] eqn:Hset.
    + destruct (addSkinnedInfill_located s s' _ Hset Hrun) as (known & Hknown).
      revert Hrun. unfold addSkinnedInfill, getBottomZ. rewrite Hset, Hknown.
      cbn [attr bind].
      destruct (layerThickness s) as [layerThickness_|]; cbn [attr bind]; [|discriminate].
      destruct (pydiv layerThickness_ _) as [step|]; cbn [bind]; [|discriminate].
      destruct (skinInfillWidth s) as [width|]; cbn [attr bind]; [|discriminate].
      destruct (oldFlowRate s) as [oldFlowRate_|] eqn:Hrate; cbn [attr bind];
        [|discriminate].
      destruct (pydiv oldFlowRate_ _) as [perVertical|]; cbn [bind]; [|discriminate].
      destruct (pydiv perVertical _) as [flowRate|]; cbn [bind]; [|discriminate].
      match goal with
      | |- bind ?loop _ = _ -> _ => destruct loop as [s1|] eqn:Hloop
      end; cbn [bind]; [|discriminate].
      apply (forEach_infillPass_no_hop _ _ _ (Vector3.z known)) in Hloop;
        [|exact Hhop|exists known; auto].
      destruct Hloop as (block & (location & -> & _) & Hblock).
      cbn [oldFlowRate set_oldLocation set_distanceFeedRate addFlowRateLine emit].
      rewrite Hrate. cbn [attr bind]. intros [= <-].
      exists (addLine (flowRateLine flowRate)
              :: block ++ [addLine (flowRateLine oldFlowRate_)]).
      split.
      * unfold addFlowRateLine, emit. cbn. rewrite <- !app_assoc. reflexivity.
      * constructor; [reflexivity|]. apply Forall_app.
        split; [exact Hblock | repeat constructor].
    + revert Hrun. unfold addSkinnedInfill. rewrite Hset. intros [= <-].
      exists []. rewrite app_nil_r. auto.
  - intros upperZ z infillPath s s' Hhop Hbelow. unfold addInfillPath.
    destruct (rotation s) as [rotation_|]; cbn [attr bind]; [|discriminate].
    rewrite Hhop, Hbelow. cbn [andb].
    destruct (firstItem _) as [first|] eqn:Hfirst; cbn [bind]; [|discriminate].
    destruct (lastItem _) as [last_|] eqn:Hlast; cbn [bind]; [|discriminate].
    intros [= <-].
    exists rotation_, first, last_.
    split; [reflexivity|]. split; [exact Hfirst|]. split; [exact Hlast|].
    unfold emit. cbn. rewrite <- !app_assoc. reflexivity.
  - intros upperZ z infillPath s s' Hhop. unfold addInfillPath.
    destruct (rotation s) as [rotation_|]; cbn [attr bind]; [|discriminate].
    rewrite Hhop. cbn [bind].
    destruct (lastItem _) as [last_|]; cbn [bind]; [|discriminate].
    intros [= <-].
    exists rotation_. split; [reflexivity|]. reflexivity.
Qed.

End SkinFacts.

(** * The claims on the sample texts *)

(** Facts about closed terms, by evaluation. *)
Ltac evaluated :=
  vm_compute;
  repeat match goal with
         | |- _ /\ _ => split
         | |- exists _, _ => eexists
         end;
  first [ reflexivity
        | discriminate
        | let H := fresh in intro H; discriminate H ].

(** C2 on the sample perimeter: two vertical divisions and one horizontal
    division give two loops. *)
Lemma addSkinnedPerimeter_division_count_witness :
  exists s' calls,
    @addSkinnedPerimeter Sample.keeping Sample.perimeterState = Ok s'
    /\ distanceFeedRate s' = distanceFeedRate Sample.perimeterState ++ calls
    /\ Z.of_nat (List.length (emittedLoops calls)) = 2 * 1.
Proof.
  destruct (@addSkinnedPerimeter_division_count Sample.keeping Sample.perimeterState
              Sample.triangle 1 0.5 200 [Sample.triangle])
    as (s' & calls & Hrun & Hcalls & _ & Hcount & _).
  - evaluated.
  - evaluated.
  - evaluated.
  - evaluated.
  - evaluated.
  - exists s', calls. split; [exact Hrun|]. split; [exact Hcalls|].
    vm_compute in Hcount |- *. exact Hcount.
Defined.

(** C2, as it is stated, fails on the sample perimeter (top 1, thickness
    0.5, two vertical divisions): the loops are emitted at 0.75 and at 1,
    the layer top, and 1 is above the span from [top - thickness] to
    [top - thickness / V], which ends at 0.75.  With a thickness of zero the
    two loops are emitted at the same height. *)
Lemma perimeter_heights_counterexample :
  perimeterCaptured Sample.perimeterState Sample.triangle 1 0.5 200
  /\ (exists s',
         @addSkinnedPerimeter Sample.keeping Sample.perimeterState = Ok s'
         /\ map snd (emittedLoops (Sample.writtenSince Sample.perimeterState s'))
            = [0.75; 1]%float)
  /\ forallb (withinLowerSpan 1 0.5 2) [0.75; 1]%float = false
  /\ perimeterCaptured Sample.flatState Sample.triangle 1 0 200
  /\ (exists s',
         @addSkinnedPerimeter Sample.keeping Sample.flatState = Ok s'
         /\ map snd (emittedLoops (Sample.writtenSince Sample.flatState s'))
            = [1; 1]%float).
Proof.
  split; [evaluated|]. split; [evaluated|]. split; [evaluated|].
  split; [evaluated|]. evaluated.
Qed.

(** C3 on the sample perimeter when no inset is left: the two loops are the
    captured triangle, after the flow rate divided by two. *)
Lemma addSkinnedPerimeter_fallback_witness :
  exists s' block,
    @addSkinnedPerimeter Sample.narrow Sample.narrowState = Ok s'
    /\ distanceFeedRate s'
       = distanceFeedRate Sample.narrowState
         ++ addLine "M108 S100.000" :: block ++ [addLine "M108 S200.000"]
    /\ emittedLoops block = [(Sample.triangle, 0.75%float); (Sample.triangle, 1%float)].
Proof.
  destruct (@addSkinnedPerimeter_fallback Sample.narrow Sample.narrowState
              Sample.triangle 1 0.5 200 [[]])
    as (s' & block & Hrun & Hcalls & _ & Hloops & _).
  - evaluated.
  - evaluated.
  - evaluated.
  - evaluated.
  - exists []. split; [left; reflexivity | cbn; lia].
  - exists s', block. split; [exact Hrun|]. split.
    + vm_compute in Hcalls |- *. exact Hcalls.
    + vm_compute in Hloops |- *. exact Hloops.
Defined.



(** The heights of C2 are rounded: with a top of 1, a thickness of 0.1 and
    three vertical divisions, the last of the three heights is above the
    layer top. *)
Lemma divisionZs_rounded :
  let step := (0.1 / 3)%float in
  divisionZs (1 + step - 0.1)%float step 3
  = [0.93333333333333346; 0.96666666666666679; 1.0000000000000002]%float
  /\ PrimFloat.ltb 1 1.0000000000000002 = true.
Proof. vm_compute. split; reflexivity. Qed.

(** C10 on the sample infill: the position ends at the end of the last
    path, at the layer top 1, and the hops are at 1. *)
Lemma addSkinnedInfill_position_witness :
  exists s' calls,
    @addSkinnedInfill Sample.keeping Sample.infillState = Ok s'
    /\ distanceFeedRate s' = distanceFeedRate Sample.infillState ++ calls
    /\ endsAt 1 calls (oldLocation Sample.infillState) (oldLocation s')
    /\ Forall (isHopAt 1) calls
    /\ oldLocation s' = Some (Vector3.mk 2 2 1).
Proof.
  assert (Hrun : exists s', @addSkinnedInfill Sample.keeping Sample.infillState = Ok s'
                            /\ oldLocation s' = Some (Vector3.mk 2 2 1)) by evaluated.
  destruct Hrun as (s' & Hrun & Hlocation).
  destruct (proj2 (@addSkinnedInfill_position Sample.keeping)
              [[Complex 0 0; Complex 4 0; Complex 0 4]]%float 1%float
              Sample.infillState s')
    as (calls & Hcalls & Hends & Hhops & _);
    [evaluated | evaluated | exact Hrun |].
  exists s', calls. auto.
Defined.

(** C5 on the sample with two layers without boundary: the offset 1 becomes
    3, and nothing is captured below the layer of index 3. *)
Lemma starting_layer_offset_witness :
  layersFromBottom (Sample.prescanned Sample.keeping Sample.raft Sample.fromSecond) = 3
  /\ forall textLines index sk,
       @parseLines Sample.keeping index textLines
         (Sample.prescanned Sample.keeping Sample.raft Sample.fromSecond) = Ok sk ->
       layerIndex sk < 3 ->
       perimeter sk = None /\ infillBoundaries sk = None.
Proof.
  assert (Hscan : @parseBoundaries Sample.keeping
                    (Sample.initialized Sample.keeping Sample.raft Sample.fromSecond)
                  = Ok (Sample.prescanned Sample.keeping Sample.raft Sample.fromSecond))
    by (vm_compute; reflexivity).
  eapply (proj2 (proj2 (proj2 (@starting_layer_offset Sample.keeping _ _ Hscan)))).
  - vm_compute. reflexivity.
  - reflexivity.
  - reflexivity.
  - discriminate.
  - evaluated.
  - evaluated.
  - evaluated.
Defined.

(** C6 on the sample infill: the start tag is met in the top layer, at or
    after the offset, and opens the empty set. *)
Lemma infill_capture_gate_witness :
  exists sk',
    @parseLine Sample.keeping "(<infill>)"
      (set_lineIndex 21 (Sample.bodyStateAt Sample.keeping Sample.infillClosed
                           Sample.settings 16)) = Ok sk'
    /\ infillCondition (Sample.bodyStateAt Sample.keeping Sample.infillClosed
                          Sample.settings 16) = true
    /\ infillBoundaries sk' = Some [].
Proof.
  pose (s0 := Sample.prescanned Sample.keeping Sample.infillClosed Sample.settings).
  assert (Hscan : @parseBoundaries Sample.keeping
                    (Sample.initialized Sample.keeping Sample.infillClosed Sample.settings)
                  = Ok s0) by (vm_compute; reflexivity).
  assert (Hindex : layerIndex
                     (Sample.initialized Sample.keeping Sample.infillClosed Sample.settings)
                   = -1) by evaluated.
  assert (Hset : infillBoundaries
                   (Sample.initialized Sample.keeping Sample.infillClosed Sample.settings)
                 = None) by evaluated.
  destruct (@infill_capture_gate Sample.keeping _ s0 Hindex Hset Hscan
              (firstn 16 (bodyLines s0)) "(<infill>)" (skipn 17 (bodyLines s0))
              (Sample.bodyStateAt Sample.keeping Sample.infillClosed Sample.settings 16)
              21%nat)
    as (sk' & Hline & Hcond & Hopen & _).
  - vm_compute. reflexivity.
  - vm_compute. reflexivity.
  - vm_compute. reflexivity.
  - exists sk'. split; [exact Hline|].
    assert (Htrue : infillCondition
                      (Sample.bodyStateAt Sample.keeping Sample.infillClosed
                         Sample.settings 16) = true) by evaluated.
    split; [exact Htrue | exact (Hopen Htrue)].
Defined.

(** C7 on the sample header: the scan returns at the marker, whose index
    is 5. *)
Lemma parseInitialization_scan_witness :
  exists s',
    @parseInitialization Sample.keeping Sample.headerState = Ok s'
    /\ lineIndex s' = 5%nat
    /\ nth_error (lines Sample.headerState) (lineIndex s')
       = Some "(</extruderInitialization>)"
    /\ forwardedLines (Sample.writtenSince Sample.headerState s')
       = firstn 5 (lines Sample.headerState).
Proof.
  assert (Hrun : exists s',
             @parseInitialization Sample.keeping Sample.headerState = Ok s'
             /\ forwardedLines (Sample.writtenSince Sample.headerState s')
                = firstn 5 (lines Sample.headerState)) by evaluated.
  destruct Hrun as (s' & Hrun & Hforwarded).
  destruct (proj1 (@parseInitialization_scan Sample.keeping Sample.headerState)
              (firstn 5 (lines Sample.headerState)) "(</extruderInitialization>)" [])
    as [_ Hshape].
  - vm_compute. reflexivity.
  - vm_compute. repeat (constructor; [reflexivity|]). constructor.
  - vm_compute. reflexivity.
  - destruct (Hshape s' Hrun) as (Hindex & Hnth & _).
    exists s'. split; [exact Hrun|]. split; [exact Hindex|]. split; [exact Hnth|].
    exact Hforwarded.
Defined.

(** C7, as it is stated, fails on the sample header: the marker is the line
    of index 5; the scan returns with the position 5, not 6, and has
    forwarded the five lines before the marker, not the marker. *)
Lemma parseInitialization_position_counterexample :
  nth_error (lines Sample.headerState) 5 = Some "(</extruderInitialization>)"
  /\ exists s',
       @parseInitialization Sample.keeping Sample.headerState = Ok s'
       /\ lineIndex s' = 5%nat
       /\ lineIndex s' <> 6%nat
       /\ forwardedLines (Sample.writtenSince Sample.headerState s')
          = firstn 5 (lines Sample.headerState)
       /\ ~ In "(</extruderInitialization>)"
              (forwardedLines (Sample.writtenSince Sample.headerState s')).
Proof.
  split; [evaluated|].
  vm_compute. eexists. split; [reflexivity|]. split; [reflexivity|].
  split; [discriminate|]. split; [reflexivity|].
  intros H. repeat (destruct H as [H|H]; [discriminate H|]). exact H.
Qed.

(** C8 on the sample with two layers without boundary: the end tag of the
    first perimeter is met with no buffer, and only forwards its line. *)
Lemma absent_buffer_noop_witness :
  let s := Sample.bodyStateAt Sample.keeping Sample.raft Sample.fromSecond 9 in
  @addSkinnedPerimeter Sample.keeping s = Ok s
  /\ @parseLine Sample.keeping "(</perimeter>)" s = Ok (emit (addLine "(</perimeter>)") s)
  /\ @parseLine Sample.keeping "(</infill>)" s = Ok (emit (addLine "(</infill>)") s).
Proof.
  intros s.
  destruct (@absent_buffer_noop Sample.keeping s) as [Hperimeter Hinfill].
  destruct (Hperimeter ltac:(evaluated)) as [Hgenerator Hline].
  destruct (Hinfill ltac:(evaluated)) as [_ Hline'].
  split; [exact Hgenerator|]. split.
  - apply Hline. vm_compute. reflexivity.
  - apply Hline'. left. vm_compute. reflexivity.
Defined.

(** C8, as it is stated, fails on a region that is not balanced: an infill
    point that arrives in an open set in which no loop has been started
    finds no loop to append to, and the transform raises. *)
Lemma unbalanced_point_counterexample :
  let s := Sample.bodyStateAt Sample.keeping Sample.unbalanced Sample.settings 3 in
  let line := "(<infillPoint> X0.0 Y0.0 Z1.0 </infillPoint>)" in
  nth_error (bodyLines (Sample.prescanned Sample.keeping Sample.unbalanced Sample.settings)) 3
  = Some line
  /\ infillBoundaries s = Some []
  /\ infillBoundary s = None
  /\ @parseLine Sample.keeping line s = Raise AttributeError
  /\ @getCraftedTextFromText Sample.keeping (Sample.text Sample.unbalanced)
       (Some Sample.settings) = Raise AttributeError.
Proof. evaluated. Qed.

(** C9 on settings with a negative vertical count: the count used is 1. *)
Lemma division_counts_witness :
  exists s,
    @configure Sample.keeping (Sample.text (Sample.header "0.5"))
      (SkinRepository.mk true 2 1 (-3) true 0) = Ok s
    /\ verticalDivisions s = 1
    /\ PrimFloat.leb 1 (verticalDivisionsFloat s) = true.
Proof.
  destruct (@division_counts Sample.keeping (Sample.text (Sample.header "0.5"))
              (SkinRepository.mk true 2 1 (-3) true 0)) as (Hcounts & _ & Htotal).
  destruct Htotal as (s & Hs); [evaluated | evaluated | evaluated |].
  destruct (Hcounts s Hs) as (Hv & _ & _ & Hle & _).
  exists s. split; [exact Hs|]. split; [exact Hv|]. apply Hle. evaluated.
Defined.

(** C9, as it is stated, fails for the horizontal counts: with a horizontal
    perimeter division count of zero the transform uses zero, which is not
    at least 1, and the first perimeter divides by it. *)
Lemma horizontal_division_counterexample :
  (exists s,
      @configure Sample.keeping (Sample.text (Sample.perimeterClosed "0.5"))
        Sample.noPerimeterDivision = Ok s
      /\ horizontalPerimeterDivisionsFloat s = 0%float
      /\ PrimFloat.leb 1 (horizontalPerimeterDivisionsFloat s) = false)
  /\ @getCraftedTextFromText Sample.keeping (Sample.text (Sample.perimeterClosed "0.5"))
       (Some Sample.noPerimeterDivision) = Raise ZeroDivisionError.
Proof. evaluated. Qed.

(** C1 on the sample: the transform turns the text with the perimeter and
    the infill into another text, which holds the marker, and the transform
    gives that text back; so it does with the empty text. *)
Lemma getCraftedTextFromText_short_circuit_witness :
  @getCraftedTextFromText Sample.keeping (Sample.text Sample.infillClosed)
    (Some Sample.settings) = Ok Sample.crafted
  /\ Sample.crafted <> Sample.text Sample.infillClosed
  /\ @isProcedureDone Sample.keeping Sample.crafted "skin" = true
  /\ @getCraftedTextFromText Sample.keeping Sample.crafted (Some Sample.settings)
     = Ok Sample.crafted
  /\ @getCraftedTextFromText Sample.keeping "" (Some Sample.settings) = Ok "".
Proof.
  assert (Hfirst : @getCraftedTextFromText Sample.keeping (Sample.text Sample.infillClosed)
                     (Some Sample.settings) = Ok Sample.crafted)
    by (vm_compute; reflexivity).
  assert (Hchanged : Sample.crafted <> Sample.text Sample.infillClosed)
    by (vm_compute; intros Hsame; discriminate Hsame).
  assert (Hcraft : @craft Sample.keeping (Sample.text Sample.infillClosed) Sample.settings
                   = Ok (Sample.stateAfter Sample.keeping Sample.infillClosed
                           Sample.settings))
    by (vm_compute; reflexivity).
  assert (Hfound : @isProcedureDone Sample.keeping
                     (@getGcodeWithoutDuplication Sample.keeping "M108"
                        (@getvalue Sample.keeping
                           (distanceFeedRate
                              (Sample.stateAfter Sample.keeping Sample.infillClosed
                                 Sample.settings)))) "skin" = true)
    by (vm_compute; reflexivity).
  destruct (proj2 (@getCraftedTextFromText_short_circuit Sample.keeping
                     (Sample.text Sample.infillClosed) (Some Sample.settings))
              Sample.crafted) as [Hmarker Hsecond].
  - exact Hfirst.
  - vm_compute. reflexivity.
  - intros s Hs _. change (repositoryOrRead (Some Sample.settings)) with Sample.settings in Hs.
    rewrite Hcraft in Hs.
    apply (f_equal (fun r => match r with Ok state => state | Raise _ => s end)) in Hs.
    cbv beta iota in Hs. rewrite <- Hs. exact Hfound.
  - split; [exact Hfirst|]. split; [exact Hchanged|].
    split; [destruct Hmarker as [Hsame|Hdone]; [contradiction | exact Hdone]|].
    split; [exact Hsecond|].
    apply (proj1 (@getCraftedTextFromText_short_circuit Sample.keeping ""
                    (Some Sample.settings))).
    right. left. reflexivity.
Defined.

(** * The further properties on the sample texts *)

(** X2 on the sample perimeter: one division, and the inset is the closed
    triangle. *)
Lemma getInsetPerimeters_radii_witness :
  exists perimeterWidth_ halfPerimeterWidth_,
    perimeterWidth Sample.perimeterState = Some perimeterWidth_
    /\ halfPerimeterWidth Sample.perimeterState = Some halfPerimeterWidth_
    /\ [Sample.triangle]
       = map (fun division =>
                @clippedLoopPath Sample.keeping Sample.perimeterState halfPerimeterWidth_
                  (removelast Sample.triangle))
           (seq 0 1).
Proof.
  destruct (@getInsetPerimeters_radii Sample.keeping Sample.triangle
              Sample.perimeterState [Sample.triangle])
    as (width & half & Hwidth & Hhalf & _ & Hinsets & _).
  - vm_compute. reflexivity.
  - exists width, half. split; [exact Hwidth|]. split; [exact Hhalf|]. exact Hinsets.
Defined.

(** X3 on the sample perimeter. *)
Lemma addSkinnedPerimeter_leaves_witness :
  exists s',
    @addSkinnedPerimeter Sample.keeping Sample.perimeterState = Ok s'
    /\ perimeter s' = None
    /\ oldLocation s' = oldLocation Sample.perimeterState
    /\ oldFlowRate s' = oldFlowRate Sample.perimeterState.
Proof.
  assert (Hrun : exists s', @addSkinnedPerimeter Sample.keeping Sample.perimeterState = Ok s')
    by (vm_compute; eexists; reflexivity).
  destruct Hrun as (s' & Hrun).
  destruct (@addSkinnedPerimeter_leaves Sample.keeping _ _ Hrun)
    as (_ & Hp & Hlocation & Hrate & _).
  exists s'. auto.
Defined.


(** X5 on a perimeter whose end tag comes before any move, and on the
    sample perimeter with a horizontal perimeter division count of zero. *)
Lemma addSkinnedPerimeter_raises_witness :
  let s := Sample.stateAfter Sample.keeping Sample.unlocated Sample.settings in
  let z := Sample.stateAfter Sample.keeping (Sample.perimeterOpen "0.5")
             Sample.noPerimeterDivision in
  perimeter s = Some []
  /\ @addSkinnedPerimeter Sample.keeping s = Raise AttributeError
  /\ perimeter z = Some Sample.triangle
  /\ @addSkinnedPerimeter Sample.keeping z = Raise ZeroDivisionError.
Proof.
  intros s z.
  assert (Hs : perimeter s = Some []) by (vm_compute; reflexivity).
  assert (Hz : perimeter z = Some Sample.triangle) by (vm_compute; reflexivity).
  split; [exact Hs|]. split.
  - apply (proj1 (@addSkinnedPerimeter_raises Sample.keeping s [] Hs)).
    vm_compute. reflexivity.
  - split; [exact Hz|].
    apply (proj1 (proj2 (proj2 (@addSkinnedPerimeter_raises Sample.keeping z
                                  Sample.triangle Hz)))).
    + vm_compute. discriminate.
    + vm_compute. discriminate.
    + vm_compute. reflexivity.
    + vm_compute. discriminate.
    + vm_compute. reflexivity.
Defined.

(** X6 on an infill region whose end tag comes before any move. *)
Lemma addSkinnedInfill_raises_witness :
  let s := Sample.bodyStateAt Sample.keeping Sample.unbalanced Sample.settings 3 in
  infillBoundaries s = Some []
  /\ @addSkinnedInfill Sample.keeping s = Raise AttributeError.
Proof.
  intros s.
  assert (Hs : infillBoundaries s = Some []) by (vm_compute; reflexivity).
  split; [exact Hs|].
  apply (proj1 (@addSkinnedInfill_raises Sample.keeping s [] Hs)).
  vm_compute. reflexivity.
Defined.

(** X7 on three plain lines met while the sample perimeter is captured. *)
Lemma parseLines_plain_witness :
  exists s',
    @parseLines Sample.keeping 0 Sample.plain Sample.perimeterState = Ok s'
    /\ distanceFeedRate s'
       = distanceFeedRate Sample.perimeterState ++ map addLine Sample.plain.
Proof.
  destruct (@parseLines_plain Sample.keeping Sample.plain 0%nat Sample.perimeterState)
    as (s' & Hrun & Hcalls & _).
  - vm_compute. repeat (constructor; [reflexivity|]). constructor.
  - exists s'. auto.
Defined.

(** X9 on the sample with two layers without boundary: the 33 lines of the
    body before the fourth layer, the perimeters of three layers among them,
    are forwarded as they are. *)
Lemma parseLines_below_offset_witness :
  let s0 := Sample.prescanned Sample.keeping Sample.raft Sample.fromSecond in
  let textLines := firstn 33 (bodyLines s0) in
  exists s',
    @parseLines Sample.keeping 5 textLines s0 = Ok s'
    /\ distanceFeedRate s' = distanceFeedRate s0 ++ map addLine textLines
    /\ layerIndex s' = 2.
Proof.
  intros s0 textLines.
  assert (Hrun : exists s', @parseLines Sample.keeping 5 textLines s0 = Ok s')
    by (vm_compute; eexists; reflexivity).
  destruct Hrun as (s' & Hrun).
  destruct (@parseLines_below_offset Sample.keeping textLines 5%nat s0 s')
    as (Hcalls & _ & _ & Hindex).
  - vm_compute. reflexivity.
  - vm_compute. reflexivity.
  - vm_compute. reflexivity.
  - exact Hrun.
  - exists s'. split; [exact Hrun|]. split.
    + rewrite Hcalls. f_equal.
    + rewrite Hindex. vm_compute. reflexivity.
Defined.

(** X10 on the sample perimeter: the six lines between the tags write
    nothing and leave the triangle in the buffer. *)
Lemma parseLines_perimeter_capture_witness :
  let s := Sample.bodyStateAt Sample.keeping (Sample.perimeterOpen "0.5")
             Sample.settings 8 in
  let textLines :=
    skipn 8 (bodyLines (Sample.prescanned Sample.keeping (Sample.perimeterOpen "0.5")
                          Sample.settings)) in
  exists s',
    @parseLines Sample.keeping 13 textLines s = Ok s'
    /\ distanceFeedRate s' = distanceFeedRate s
    /\ perimeter s' = Some Sample.triangle.
Proof.
  intros s textLines.
  assert (Hrun : exists s',
             @parseLines Sample.keeping 13 textLines s = Ok s'
             /\ perimeter s' = Some Sample.triangle) by evaluated.
  destruct Hrun as (s' & Hrun & Hp).
  destruct (@parseLines_perimeter_capture Sample.keeping textLines 13%nat s s' [])
    as (Hcalls & _).
  - vm_compute. reflexivity.
  - vm_compute. reflexivity.
  - vm_compute. repeat (constructor; [reflexivity|]). constructor.
  - exact Hrun.
  - exists s'. auto.
Defined.

(** X11 on the sample infill: the move inside the region is dropped. *)
Lemma parseLines_infill_motion_witness :
  let s := Sample.bodyStateAt Sample.keeping Sample.infillOpen Sample.settings 22 in
  exists s',
    @parseLines Sample.keeping 27 ["G1 X1.0 Y1.0 Z1.0"] s = Ok s'
    /\ distanceFeedRate s' = distanceFeedRate s
    /\ infillBoundaries s' = infillBoundaries s.
Proof.
  intros s.
  assert (Hrun : exists s', @parseLines Sample.keeping 27 ["G1 X1.0 Y1.0 Z1.0"] s = Ok s')
    by (vm_compute; eexists; reflexivity).
  destruct Hrun as (s' & Hrun).
  destruct (@parseLines_infill_motion Sample.keeping ["G1 X1.0 Y1.0 Z1.0"] 27%nat s s'
              [[Complex 0 0; Complex 4 0; Complex 0 4]])
    as (Hcalls & Hset & _).
  - vm_compute. reflexivity.
  - vm_compute. repeat (constructor; [reflexivity|]). constructor.
  - exact Hrun.
  - exists s'. split; [exact Hrun|]. split; [exact Hcalls|].
    rewrite Hset. vm_compute. reflexivity.
Defined.

(** X12 on the sample infill: the loop of three points. *)
Lemma parseLines_infill_loop_witness :
  let s := Sample.bodyStateAt Sample.keeping Sample.infillOpen Sample.settings 17 in
  let pointLines :=
    [ "(<infillPoint> X0.0 Y0.0 Z1.0 </infillPoint>)";
      "(<infillPoint> X4.0 Y0.0 Z1.0 </infillPoint>)";
      "(<infillPoint> X0.0 Y4.0 Z1.0 </infillPoint>)" ] in
  exists s' locations,
    @parseLines Sample.keeping 22 ("(<infillBoundary>)" :: pointLines) s = Ok s'
    /\ mapM (@pointOfLine Sample.keeping) pointLines = Ok locations
    /\ infillBoundaries s' = Some [map dropAxis locations].
Proof.
  intros s pointLines.
  assert (Hrun : exists s',
             @parseLines Sample.keeping 22 ("(<infillBoundary>)" :: pointLines) s = Ok s')
    by (vm_compute; eexists; reflexivity).
  destruct Hrun as (s' & Hrun).
  destruct (@parseLines_infill_loop Sample.keeping "(<infillBoundary>)" pointLines
              22%nat s s' [])
    as (locations & Hlocations & Hset & _).
  - vm_compute. reflexivity.
  - vm_compute. reflexivity.
  - vm_compute. repeat (constructor; [reflexivity|]). constructor.
  - exact Hrun.
  - exists s', locations. auto.
Defined.

(** X13 on the sample with four layers: four boundary layers, the top
    index 3, and nothing written. *)
Lemma parseBoundaries_layers_witness :
  let s := Sample.initialized Sample.keeping Sample.raft Sample.fromSecond in
  let s0 := Sample.prescanned Sample.keeping Sample.raft Sample.fromSecond in
  @parseBoundaries Sample.keeping s = Ok s0
  /\ Z.of_nat (List.length (boundaryLayers s0)) = 4
  /\ layerIndexTop s0 = 3
  /\ distanceFeedRate s0 = distanceFeedRate s
  /\ lineIndex s0 = lineIndex s.
Proof.
  intros s s0.
  assert (Hscan : @parseBoundaries Sample.keeping s = Ok s0) by (vm_compute; reflexivity).
  destruct (@parseBoundaries_layers Sample.keeping s s0 Hscan)
    as (_ & Hcount & Htop & _ & Hcalls & Hindex & _).
  split; [exact Hscan|]. split; [rewrite Hcount; vm_compute; reflexivity|].
  split; [rewrite Htop, Hcount; vm_compute; reflexivity|]. auto.
Defined.

(** X14 on a text whose first boundary point comes before any layer. *)
Lemma parseBoundaries_point_before_layer_witness :
  @parseBoundaries Sample.keeping
    (Sample.initialized Sample.keeping Sample.unlayered Sample.settings)
  = Raise AttributeError.
Proof.
  eapply (proj2 (@parseBoundaries_point_before_layer Sample.keeping
                   (Sample.initialized Sample.keeping Sample.unlayered Sample.settings)
                   ["(</extruderInitialization>)"]
                   "(<boundaryPoint> X0.0 Y0.0 Z1.0 </boundaryPoint>)" [] _ _ _)).
  vm_compute. reflexivity.
  Unshelve.
  - vm_compute. reflexivity.
  - vm_compute. repeat (constructor; [reflexivity|]). constructor.
  - vm_compute. reflexivity.
Defined.

(** X16 on the sample with four layers: after the last line the layer
    index is the top index, 3. *)
Lemma layerIndex_reaches_top_witness :
  let s := Sample.initialized Sample.keeping Sample.raft Sample.fromSecond in
  let s0 := Sample.prescanned Sample.keeping Sample.raft Sample.fromSecond in
  let sk := Sample.bodyStateAt Sample.keeping Sample.raft Sample.fromSecond 42 in
  layerIndex sk = layerIndexTop s0 /\ layerIndexTop s0 = 3.
Proof.
  intros s s0 sk.
  assert (Hstart : layerIndex s = -1) by (vm_compute; reflexivity).
  assert (Hscan : @parseBoundaries Sample.keeping s = Ok s0) by (vm_compute; reflexivity).
  assert (Hbody : bodyLines s0 = bodyLines s0 ++ []) by (symmetry; apply app_nil_r).
  assert (Hrun : @parseLines Sample.keeping 5 (bodyLines s0) s0 = Ok sk)
    by (vm_compute; reflexivity).
  destruct (@layerIndex_reaches_top Sample.keeping s s0 Hstart Hscan (bodyLines s0) []
              5%nat sk Hbody Hrun) as (_ & _ & _ & _ & Hend).
  split; [exact (Hend eq_refl) | vm_compute; reflexivity].
Defined.

(** X17 on the sample text: the header holds the three tags. *)
Lemma initialize_requires_parameters_witness :
  let header := @headerLines Sample.keeping
                  (@getTextLines Sample.keeping (Sample.text Sample.infillClosed)) in
  existsb (@isParameterLine Sample.keeping "(<perimeterWidth>") header = true
  /\ existsb (@isParameterLine Sample.keeping "(<infillWidth>") header = true
  /\ existsb (@isParameterLine Sample.keeping "(<infillPerimeterOverlap>") header = true.
Proof.
  intros header.
  apply (@initialize_requires_parameters Sample.keeping (Sample.text Sample.infillClosed)
           Sample.settings
           (Sample.initialized Sample.keeping Sample.infillClosed Sample.settings)).
  vm_compute. reflexivity.
Defined.

(** X18 on the sample text, after the last line. *)
Lemma craft_parameters_witness :
  let sk := Sample.bodyStateAt Sample.keeping Sample.infillClosed Sample.settings 25 in
  exists perimeterWidth_ infillWidth_,
    perimeterWidth sk = Some perimeterWidth_
    /\ halfPerimeterWidth sk = Some (0.5 * perimeterWidth_)%float
    /\ infillWidth sk = Some infillWidth_
    /\ skinInfillWidth sk
       = Some (infillWidth_ / horizontalInfillDivisionsFloat sk)%float.
Proof.
  intros sk.
  pose (s1 := Sample.initialized Sample.keeping Sample.infillClosed Sample.settings).
  pose (s0 := Sample.prescanned Sample.keeping Sample.infillClosed Sample.settings).
  assert (Hinit : @initialize Sample.keeping (Sample.text Sample.infillClosed)
                    Sample.settings = Ok s1) by (vm_compute; reflexivity).
  assert (Hscan : @parseBoundaries Sample.keeping s1 = Ok s0) by (vm_compute; reflexivity).
  assert (Hrun : @parseLines Sample.keeping 5 (bodyLines s0) s0 = Ok sk)
    by (vm_compute; reflexivity).
  destruct (@craft_parameters Sample.keeping _ _ s1 s0 (bodyLines s0) 5%nat sk
              Hinit Hscan Hrun)
    as (_ & width & infill & overlap & Hwidth & Hhalf & Hinfill & Hskin & _).
  exists width, infill. auto.
Defined.

(** X19 on the sample text: the tag is written once. *)
Lemma craft_marker_output_witness :
  let s := Sample.stateAfter Sample.keeping Sample.infillClosed Sample.settings in
  filter isProcedureTag (distanceFeedRate s) = [addTagBracketedProcedure "skin"]
  /\ exists calls,
       forwardedLines (distanceFeedRate s)
       = firstn 5 Sample.infillClosed
         ++ "(</extruderInitialization>)" :: forwardedLines calls.
Proof.
  intros s.
  destruct (@craft_marker_output Sample.keeping (Sample.text Sample.infillClosed)
              Sample.settings s (firstn 5 Sample.infillClosed)
              "(</extruderInitialization>)" (skipn 6 Sample.infillClosed))
    as (calls & _ & _ & Hone & Hforwarded).
  - vm_compute. reflexivity.
  - vm_compute. repeat (constructor; [reflexivity|]). constructor.
  - vm_compute. reflexivity.
  - vm_compute. reflexivity.
  - split; [exact Hone|]. exists calls. exact Hforwarded.
Defined.

(** X20 on the parameters without a marker: the five lines are forwarded,
    the last one twice, and no tag is written. *)
Lemma craft_unmarked_output_witness :
  let s := Sample.stateAfter Sample.keeping Sample.unmarked Sample.settings in
  filter isProcedureTag (distanceFeedRate s) = []
  /\ forwardedLines (distanceFeedRate s)
     = Sample.unmarked ++ ["(<perimeterWidth> 0.5 </perimeterWidth>)"].
Proof.
  intros s.
  destruct (@craft_unmarked_output Sample.keeping (Sample.text Sample.unmarked)
              Sample.settings s)
    as (s1 & s0 & calls & _ & _ & _ & _ & _ & _ & _ & Hnone).
  - vm_compute. repeat (constructor; [reflexivity|]). constructor.
  - vm_compute. reflexivity.
  - split; [exact Hnone | vm_compute; reflexivity].
Defined.

(** X22 on the sample infill: with the hop setting off no vertical move is
    written; with it on, a path of the pass at 0.75, below the layer top 1,
    is written between the two vertical moves at 1, and a path of the pass
    at 1 is written alone. *)
Lemma addSkinnedInfill_hops_witness :
  let s := Sample.stateAfter Sample.keeping Sample.infillOpen Sample.noHop in
  let infillPath := [Complex 1 1; Complex 2 2] in
  (exists s' calls,
      @addSkinnedInfill Sample.keeping s = Ok s'
      /\ distanceFeedRate s' = distanceFeedRate s ++ calls
      /\ Forall (fun call => isHop call = false) calls)
  /\ (exists s',
         @addInfillPath Sample.keeping 1 0.75 infillPath Sample.infillState = Ok s'
         /\ Sample.writtenSince Sample.infillState s'
            = [addGcodeMovementZWithFeedRate 60 (Complex 1 1) 1;
               addGcodeFromFeedRateThreadZ 600 infillPath 957 0.75;
               addGcodeMovementZWithFeedRate 60 (Complex 2 2) 1])
  /\ (exists s',
         @addInfillPath Sample.keeping 1 1 infillPath Sample.infillState = Ok s'
         /\ Sample.writtenSince Sample.infillState s'
            = [addGcodeFromFeedRateThreadZ 600 infillPath 957 1]).
Proof.
  intros s infillPath.
  assert (Hrun : exists s', @addSkinnedInfill Sample.keeping s = Ok s')
    by (vm_compute; eexists; reflexivity).
  assert (Hlow : exists s',
             @addInfillPath Sample.keeping 1 0.75 infillPath Sample.infillState = Ok s')
    by (vm_compute; eexists; reflexivity).
  assert (Htop : exists s',
             @addInfillPath Sample.keeping 1 1 infillPath Sample.infillState = Ok s')
    by (vm_compute; eexists; reflexivity).
  destruct Hrun as (s' & Hrun). destruct Hlow as (low & Hlow).
  destruct Htop as (top & Htop).
  split; [|split].
  - destruct (proj1 (@addSkinnedInfill_hops Sample.keeping) s s')
      as (calls & Hcalls & Hall).
    + vm_compute. reflexivity.
    + exact Hrun.
    + exists s', calls. auto.
  - destruct (proj1 (proj2 (@addSkinnedInfill_hops Sample.keeping))
                1 0.75 infillPath Sample.infillState low)%float
      as (rotation_ & first & last_ & Hrotation & Hfirst & Hlast & Hcalls).
    + vm_compute. reflexivity.
    + vm_compute. reflexivity.
    + exact Hlow.
    + vm_compute in Hrotation. injection Hrotation as <-.
      vm_compute in Hfirst. injection Hfirst as <-.
      vm_compute in Hlast. injection Hlast as <-.
      exists low. split; [exact Hlow|].
      unfold Sample.writtenSince. rewrite Hcalls, skipn_app, skipn_all, Nat.sub_diag.
      vm_compute. reflexivity.
  - destruct (proj2 (proj2 (@addSkinnedInfill_hops Sample.keeping))
                1 1 infillPath Sample.infillState top)%float
      as (rotation_ & Hrotation & Hcalls).
    + vm_compute. reflexivity.
    + exact Htop.
    + vm_compute in Hrotation. injection Hrotation as <-.
      exists top. split; [exact Htop|].
      unfold Sample.writtenSince. rewrite Hcalls, skipn_app, skipn_all, Nat.sub_diag.
      vm_compute. reflexivity.
Defined.

(** X8 on three lines met while the sample perimeter is captured: a move
    sets the tracked feed rate and the tracked position and leaves the flow
    rate and the rotation; an [M108] line sets the tracked flow rate to the
    number after its letter and leaves the feed rate and the position; a
    rotation tag sets the rotation and its conjugate. *)
Lemma parseLine_tracking_witness :
  (exists s',
      @parseLine Sample.keeping "G1 X1.0 Y1.0 Z1.0 F300.0" Sample.perimeterState = Ok s'
      /\ oldFlowRate s' = oldFlowRate Sample.perimeterState
      /\ rotation s' = rotation Sample.perimeterState
      /\ feedRateMinute s' = 300%float
      /\ oldLocation s' = Some (Vector3.mk 1 1 1))
  /\ (exists s',
         @parseLine Sample.keeping "M108 S150.0" Sample.perimeterState = Ok s'
         /\ oldFlowRate s' = Some 150%float
         /\ feedRateMinute s' = feedRateMinute Sample.perimeterState
         /\ oldLocation s' = oldLocation Sample.perimeterState)
  /\ (exists s',
         @parseLine Sample.keeping "(<rotation> 0.0 1.0 )" Sample.perimeterState = Ok s'
         /\ rotation s' = Some (Complex 0 1)
         /\ reverseRotation s' = Some (Complex 0 (-1))
         /\ oldFlowRate s' = oldFlowRate Sample.perimeterState).
Proof.
  assert (Hmove : exists s',
             @parseLine Sample.keeping "G1 X1.0 Y1.0 Z1.0 F300.0" Sample.perimeterState
             = Ok s')
    by (vm_compute; eexists; reflexivity).
  assert (Hflow : exists s',
             @parseLine Sample.keeping "M108 S150.0" Sample.perimeterState = Ok s')
    by (vm_compute; eexists; reflexivity).
  assert (Hturn : exists s',
             @parseLine Sample.keeping "(<rotation> 0.0 1.0 )" Sample.perimeterState
             = Ok s')
    by (vm_compute; eexists; reflexivity).
  destruct Hmove as (moved & Hmove). destruct Hflow as (flowed & Hflow).
  destruct Hturn as (turned & Hturn).
  split; [|split].
  - destruct (@parseLine_tracking Sample.keeping _ _ _ Hmove)
      as (Hrate & _ & _ & Hset & _ & Hrotation & _).
    destruct Hrotation as [Hrotation _]; [vm_compute; reflexivity|].
    destruct Hset as (feedRate & location & Hfeed & Hlocation & Hfed & Hlocated);
      [vm_compute; reflexivity|].
    vm_compute in Hfeed. injection Hfeed as <-.
    vm_compute in Hlocation. injection Hlocation as <-.
    exists moved. split; [exact Hmove|]. split; [|split; [exact Hrotation|]].
    + apply Hrate. vm_compute. reflexivity.
    + split; [exact Hfed | exact Hlocated].
  - destruct (@parseLine_tracking Sample.keeping _ _ _ Hflow)
      as (_ & Hset & Hfeed & _ & Hlocation & _).
    destruct Hset as (word & flowRate & Hword & Hvalue & Hstored);
      [vm_compute; reflexivity|].
    vm_compute in Hword. injection Hword as <-.
    vm_compute in Hvalue. injection Hvalue as <-.
    exists flowed. split; [exact Hflow|]. split; [exact Hstored|]. split.
    + apply Hfeed. vm_compute. reflexivity.
    + apply Hlocation; vm_compute; reflexivity.
  - destruct (@parseLine_tracking Sample.keeping _ _ _ Hturn)
      as (Hrate & _ & _ & _ & _ & _ & Hset).
    destruct Hset as (rotation_ & Hread & Hrotated & Hreversed);
      [vm_compute; reflexivity|].
    vm_compute in Hread. injection Hread as <-.
    exists turned. split; [exact Hturn|]. split; [exact Hrotated|].
    split; [vm_compute in Hreversed |- *; exact Hreversed|].
    apply Hrate. vm_compute. reflexivity.
Defined.

(** X15 on the boundary of the sample layer: the three points become the
    one loop of the layer. *)
Lemma parseBoundaryLines_loop_witness :
  let s := set_boundaryLayers [mkLoopLayer 1 []] SkinSkein_init in
  let pointLine := "(<boundaryPoint> X0.0 Y0.0 Z1.0 </boundaryPoint>)" in
  let pointLines :=
    [ "(<boundaryPoint> X4.0 Y0.0 Z1.0 </boundaryPoint>)";
      "(<boundaryPoint> X0.0 Y4.0 Z1.0 </boundaryPoint>)" ] in
  exists s' boundaryLoop' locations,
    forEach (@parseBoundaryLine Sample.keeping) (pointLine :: pointLines) (s, None)
    = Ok (s', boundaryLoop')
    /\ mapM (@pointOfLine Sample.keeping) (pointLine :: pointLines) = Ok locations
    /\ boundaryLayers s' = [mkLoopLayer 1 [map dropAxis locations]].
Proof.
  intros s pointLine pointLines.
  assert (Hrun : exists s' boundaryLoop',
             forEach (@parseBoundaryLine Sample.keeping) (pointLine :: pointLines)
               (s, None) = Ok (s', boundaryLoop'))
    by (vm_compute; eexists; eexists; reflexivity).
  destruct Hrun as (s' & boundaryLoop' & Hrun).
  destruct (@parseBoundaryLines_loop Sample.keeping pointLine pointLines s s'
              boundaryLoop' [] (mkLoopLayer 1 []))
    as (locations & Hlocations & Hlayers & _).
  - reflexivity.
  - vm_compute. repeat (constructor; [reflexivity|]). constructor.
  - exact Hrun.
  - exists s', boundaryLoop', locations. auto.
Defined.
